(** * d-plex-hw-optimizer: a shallow embedding and its verified properties

    The script walks a Plex movie library, probes each video with
    [mediainfo], and re-encodes the ones above 1 Mbps with [ffmpeg] into
    [<title>/Custom Versions/1Mbps/].

    Python numbers are modelled as the interpreter has them: [int] is an
    unbounded integer ([Z]); [float] is an IEEE 754 binary64 value, for
    which we take the Standard Library's executable specification
    [SpecFloat] at precision 53 and maximal exponent 1024.  Exceptions
    are an explicit error type; the file system, the two external tools
    and the console are an explicit state threaded through a small
    state-and-exception monad. *)

From Stdlib Require Import ZArith QArith Qpower Qround Lqa Lia Bool List String Ascii.
From Stdlib Require Import SpecFloat DecimalString.
From stdpp Require Import gmap strings.

Import ListNotations.
Open Scope Z_scope.

(* ================================================================= *)
(** * Python exceptions *)

Inductive exn : Type :=
| ZeroDivisionError
| OverflowError
| ValueError
| TypeError
| CalledProcessError (returncode : Z)
| OtherException (name : string).

(** A pure computation that either raises or returns. *)
Definition result (A : Type) : Type := exn + A.

Definition ok {A} (a : A) : result A := inr a.
Definition raise {A} (e : exn) : result A := inl e.

Definition rbind {A B} (r : result A) (k : A -> result B) : result B :=
  match r with
  | inl e => inl e
  | inr a => k a
  end.

Notation "'let!' x ':=' r 'in' k" := (rbind r (fun x => k))
  (at level 10, x name, r at level 200, k at level 200).

(* ================================================================= *)
(** * Python's numeric operations on [int] and [float] *)

Module Py.

(** binary64 *)
Definition prec : Z := 53.
Definition emax : Z := 1024.

Definition float : Type := spec_float.

(** An integer as an unrounded significand with exponent 0. *)
Definition raw_of_int (n : Z) : float :=
  match n with
  | Z0 => S754_zero false
  | Zpos p => S754_finite false p 0
  | Zneg p => S754_finite true p 0
  end.

(** [float(n)] for an int [n] (also the implicit conversion of the
    int operand of a mixed [int * float]): round to nearest even,
    [OverflowError] when the rounded value is not finite. *)
Definition float_of_int (n : Z) : result float :=
  match binary_normalize prec emax n 0 false with
  | S754_infinity _ => raise OverflowError
  | f => ok f
  end.

(** [a / b] on ints: the correctly rounded quotient of the two exact
    integers.  A zero divisor raises [ZeroDivisionError], a quotient
    too large for a float raises [OverflowError], a quotient too small
    becomes a (signed) zero. *)
Definition int_truediv (a b : Z) : result float :=
  if b =? 0 then raise ZeroDivisionError
  else match SFdiv prec emax (raw_of_int a) (raw_of_int b) with
       | S754_infinity _ => raise OverflowError
       | f => ok f
       end.

(** [x * y] on floats never raises. *)
Definition float_mul (x y : float) : float := SFmul prec emax x y.

(** [n * y] with [n] an int and [y] a float. *)
Definition int_mul_float (n : Z) (y : float) : result float :=
  let! x := float_of_int n in ok (float_mul x y).

(** [int(x)] for a float [x]: truncation toward zero. *)
Definition int_of_float (x : float) : result Z :=
  match x with
  | S754_nan => raise ValueError
  | S754_infinity _ => raise OverflowError
  | S754_zero _ => ok 0
  | S754_finite s m e =>
      let a := match e with
               | Z0 => Zpos m
               | Zpos _ => Zpos m * 2 ^ e
               | Zneg _ => Zpos m / 2 ^ (- e)
               end in
      ok (if s then - a else a)
  end.

(** [x < n] for a float [x] and an int [n] that a float holds exactly
    (the only comparison of the script is against 1000). *)
Definition float_lt_int (x : float) (n : Z) : bool :=
  SFltb x (binary_normalize prec emax n 0 false).

(** The value of a decimal literal [n * 10^-k], as [float("29.97")]
    reads it: the float nearest to the exact rational. *)
Definition float_of_decimal (n : Z) (k : nat) : float :=
  SFdiv prec emax (raw_of_int n) (raw_of_int (10 ^ Z.of_nat k)).

(** [str(n)] for an int. *)
Definition str_of_int (n : Z) : string :=
  NilZero.string_of_int (Z.to_int n).

End Py.

(* ================================================================= *)
(** * Constants of the script *)

Definition QUALITY_PROFILE : string := "1Mbps".
Definition VIDEO_BITRATE : Z := 1000.
(** [0.5], i.e. [2^52 * 2^-53]. *)
Definition GOP_SIZE_FACTOR : Py.float := S754_finite false 4503599627370496 (-53).
Definition TARGET_HORIZONTAL_RES : Z := 854.
Definition TARGET_VERTICAL_RES : Z := 480.

(* ================================================================= *)
(** * [calculate_new_resolution] *)

(** The first assignment of [new_height]:
    [int(height * (TARGET_HORIZONTAL_RES / width))]. *)
Definition fit_horizontal (width height : Z) : result Z :=
  let! ratio := Py.int_truediv TARGET_HORIZONTAL_RES width in
  let! scaled := Py.int_mul_float height ratio in
  Py.int_of_float scaled.

(** The reassignment of [new_width]:
    [int(width * (TARGET_VERTICAL_RES / height))]. *)
Definition fit_vertical (width height : Z) : result Z :=
  let! ratio := Py.int_truediv TARGET_VERTICAL_RES height in
  let! scaled := Py.int_mul_float width ratio in
  Py.int_of_float scaled.

Definition calculate_new_resolution (width height : Z) : result (Z * Z) :=
  let new_width := TARGET_HORIZONTAL_RES in
  let! new_height := fit_horizontal width height in
  if new_height >? TARGET_VERTICAL_RES then
    let new_height := TARGET_VERTICAL_RES in
    let! new_width := fit_vertical width height in
    ok (new_width, new_height)
  else
    ok (new_width, new_height).

(** [gop_size = int(framerate * GOP_SIZE_FACTOR)] *)
Definition gop_size (framerate : Py.float) : result Z :=
  Py.int_of_float (Py.float_mul framerate GOP_SIZE_FACTOR).


(* ================================================================= *)
(** * Strings and paths *)

Open Scope string_scope.
Open Scope Z_scope.

(** [s.endswith(suffix)]: some tail of [s] is [suffix]. *)
Fixpoint endswith (s suffix : string) : bool :=
  if String.eqb s suffix then true
  else match s with
       | EmptyString => false
       | String _ s' => endswith s' suffix
       end.

(** [s.startswith(p)] *)
Definition startswith (s p : string) : bool := String.prefix p s.

(** [needle in hay] on strings: [needle] starts at some position. *)
Fixpoint str_in (needle hay : string) : bool :=
  if String.prefix needle hay then true
  else match hay with
       | EmptyString => false
       | String _ hay' => str_in needle hay'
       end.

(** [posixpath.join(a, b)] *)
Definition os_path_join (a b : string) : string :=
  if startswith b "/" then b
  else if String.eqb a "" || endswith a "/" then a ++ b
  else a ++ "/" ++ b.

(** [s.rfind(c)] for a character, with positions counted from 0 and
    [None] for Python's [-1]. *)
Fixpoint rfind (c : ascii) (s : string) : option nat :=
  match s with
  | EmptyString => None
  | String a s' =>
      match rfind c s' with
      | Some i => Some (S i)
      | None => if Ascii.eqb a c then Some O else None
      end
  end.

(** The loop of [genericpath._splitext] looking, from [filenameIndex]
    up to [dotIndex], for a character that is not a dot. *)
Fixpoint has_non_dot (p : string) (filenameIndex dotIndex : nat) : bool :=
  match dotIndex with
  | O => false
  | S dotIndex' =>
      match filenameIndex with
      | S f' => match p with
                | EmptyString => false
                | String _ p' => has_non_dot p' f' dotIndex'
                end
      | O => match p with
             | EmptyString => false
             | String a p' =>
                 if Ascii.eqb a "." then has_non_dot p' O dotIndex' else true
             end
      end
  end.

(** [os.path.splitext(p)[0]] *)
Definition splitext_root (p : string) : string :=
  match rfind "." p with
  | None => p
  | Some dotIndex =>
      let filenameIndex := match rfind "/" p with
                           | Some sepIndex => S sepIndex
                           | None => O
                           end in
      if (filenameIndex <=? dotIndex)%nat && has_non_dot p filenameIndex dotIndex
      then substring 0 dotIndex p
      else p
  end.

Definition is_video_file (filename : string) : bool :=
  existsb (fun ext => endswith filename ext) [".mp4"; ".mkv"; ".webm"; ".avi"].


(* ================================================================= *)
(** * The world: file system, external tools, console *)

(** What a path names. *)
Inductive node : Type :=
| Directory
| File (data : string).

(** The file system maps the path strings the script builds to what
    they name. *)
Abbreviation filesystem := (gmap string node).

(** The video track of the [mediainfo] report, seen through the
    conversions that [get_video_info] applies to its fields: a field is
    absent ([None], the script then converts the default [0]), or its
    conversion by [float(...)] or [int(...)] raises or returns. *)
Record video_track : Type := {
  FrameRate : option (result Py.float);
  BitRate : option (result Z);
  Width : option (result Z);
  Height : option (result Z)
}.

(** The outcome of running [mediainfo --Output=JSON] on a file and of
    locating the first video track in its output: an exception
    (the tool is missing or exits with an error, the output is not JSON,
    a key is missing, there is no video track), or the track. *)
Inductive mediainfo_outcome : Type :=
| Probe_raises (e : exn)
| Probe_track (t : video_track).

(** The outcome of running [ffmpeg]: it cannot be started, or it exits
    with a return code, having possibly written (part of) its output
    file. *)
Inductive ffmpeg_outcome : Type :=
| Ffmpeg_not_run (e : exn)
| Ffmpeg_exit (returncode : Z) (written : option string).

(** The environment the script runs in. *)
Record tools : Type := {
  mediainfo : string -> mediainfo_outcome;
  ffmpeg : list string -> ffmpeg_outcome;
  (** [os.walk(top)]: the triples [(root, dirs, files)] it yields *)
  os_walk : string -> list (string * list string * list string);
  os_listdir : string -> list string;
  os_path_expanduser : string -> string
}.

(** What the run does that can be observed from outside. *)
Inductive event : Type :=
| Run_mediainfo (input_file : string)
| Run_ffmpeg (command : list string)
| Print_probe_error (input_file : string) (e : exn)
| Print_skipping (input_file : string)
| Print_path_missing
| Print_complete.

(** ** A state, exception and output monad

    A computation takes the file system and gives a result or an
    exception, the file system it leaves, and the events it caused, in
    order.  After an exception nothing more happens. *)
Record outcome (A : Type) : Type := Outcome {
  res : result A;
  final : filesystem;
  events : list event
}.
Arguments Outcome {A}.
Arguments res {A}.
Arguments final {A}.
Arguments events {A}.

Definition IO (A : Type) : Type := filesystem -> outcome A.

Definition ret {A} (a : A) : IO A := fun fs => Outcome (ok a) fs [].

Definition throw {A} (e : exn) : IO A := fun fs => Outcome (raise e) fs [].

Definition bind {A B} (m : IO A) (k : A -> IO B) : IO B :=
  fun fs =>
    let o := m fs in
    match res o with
    | inl e => Outcome (inl e) (final o) (events o)
    | inr a => let o' := k a (final o) in
               Outcome (res o') (final o') (events o ++ events o')
    end.

Notation "'let*' x ':=' m 'in' k" := (bind m (fun x => k))
  (at level 10, x name, m at level 200, k at level 200).
Notation "m ';;' k" := (bind m (fun _ => k))
  (at level 100, k at level 200, right associativity).

Definition lift {A} (r : result A) : IO A :=
  match r with
  | inl e => throw e
  | inr a => ret a
  end.

Definition emit (e : event) : IO unit := fun fs => Outcome (ok tt) fs [e].

(** [for x in l: body(x)]; a [continue] is a body that returns early. *)
Fixpoint for_each {A} (l : list A) (body : A -> IO unit) : IO unit :=
  match l with
  | [] => ret tt
  | x :: l' => body x ;; for_each l' body
  end.

(** ** File system calls *)

Definition os_path_exists (p : string) : IO bool :=
  fun fs => Outcome (ok (match fs !! p with Some _ => true | None => false end)) fs [].

Definition os_path_isdir (p : string) : IO bool :=
  fun fs => Outcome (ok (match fs !! p with Some Directory => true | _ => false end)) fs [].

(** The proper prefixes of a path that end before a ['/']. *)
Fixpoint prefixes_at_slash (acc s : string) : list string :=
  match s with
  | EmptyString => []
  | String c s' =>
      (if Ascii.eqb c "/" && negb (String.eqb acc "") then [acc] else [])
        ++ prefixes_at_slash (acc ++ String c "") s'
  end.

Definition mkdir_if_absent (fs : filesystem) (p : string) : filesystem :=
  match fs !! p with
  | Some _ => fs
  | None => <[p := Directory]> fs
  end.

(** [os.makedirs(p)] when it succeeds: the directory and its missing
    ancestors exist afterwards. *)
Definition os_makedirs (p : string) : IO unit :=
  fun fs => Outcome (ok tt) (foldl mkdir_if_absent fs (prefixes_at_slash "" p ++ [p])) [].

(** [subprocess.run(command, check=True)] for [ffmpeg] writing to
    [output_file]. *)
Definition run_ffmpeg (t : tools) (command : list string) (output_file : string) : IO unit :=
  fun fs =>
    match ffmpeg t command with
    | Ffmpeg_not_run e => Outcome (raise e) fs [Run_ffmpeg command]
    | Ffmpeg_exit returncode written =>
        Outcome (if returncode =? 0 then ok tt else raise (CalledProcessError returncode))
                (match written with
                 | Some data => <[output_file := File data]> fs
                 | None => fs
                 end)
                [Run_ffmpeg command]
    end.

(* ================================================================= *)
(** * The script *)

(** The body of the [try] block of [get_video_info], after the
    subprocess call: the four conversions, in source order. *)
Definition read_track (o : mediainfo_outcome)
  : result (Py.float * Py.float * Z * Z) :=
  match o with
  | Probe_raises e => raise e
  | Probe_track video_track =>
      let! framerate :=
        match FrameRate video_track with
        | Some r => r
        | None => Py.float_of_int 0
        end in
      let! bitrate :=
        (let! n := match BitRate video_track with
                   | Some r => r
                   | None => ok 0
                   end in
         Py.int_truediv n 1000) in
      let! width := match Width video_track with Some r => r | None => ok 0 end in
      let! height := match Height video_track with Some r => r | None => ok 0 end in
      ok (framerate, bitrate, width, height)
  end.

Definition get_video_info (t : tools) (input_file : string)
  : IO (option Py.float * option Py.float * option Z * option Z) :=
  emit (Run_mediainfo input_file) ;;
  match read_track (mediainfo t input_file) with
  | inr (framerate, bitrate, width, height) =>
      ret (Some framerate, Some bitrate, Some width, Some height)
  | inl e =>
      emit (Print_probe_error input_file e) ;;
      ret (None, None, None, None)
  end.

Definition ensure_custom_versions_folder (movie_folder_path : string) : IO unit :=
  let custom_versions_path := os_path_join movie_folder_path "Custom Versions" in
  (let* present := os_path_exists custom_versions_path in
   if negb present then os_makedirs custom_versions_path else ret tt) ;;
  let quality_profile_path := os_path_join custom_versions_path QUALITY_PROFILE in
  let* present := os_path_exists quality_profile_path in
  if negb present then os_makedirs quality_profile_path else ret tt.

Definition ffmpeg_command (input_file file : string) (gop_size new_width new_height : Z)
                          (output_file : string) : list string :=
  [ "ffmpeg";
    "-i"; input_file;
    "-map"; "0";
    "-map"; "-0:a";
    "-map"; "-0:d?";
    "-c:v"; "h264_nvenc";
    "-bf"; "2";
    "-g"; Py.str_of_int gop_size;
    "-coder"; "1";
    "-movflags"; "+faststart";
    "-b:v"; Py.str_of_int VIDEO_BITRATE ++ "k";
    "-maxrate"; Py.str_of_int (VIDEO_BITRATE * 2) ++ "k";
    "-bufsize"; Py.str_of_int (VIDEO_BITRATE * 4) ++ "k";
    "-pix_fmt"; "yuv420p";
    "-preset"; "slow";
    "-metadata"; "title=" ++ splitext_root file;
    "-vf"; "scale=" ++ Py.str_of_int new_width ++ ":" ++ Py.str_of_int new_height;
    output_file ]%string.

(** The body of the inner loop of [process_videos], for one [file] of
    the directory [root]. *)
Definition process_file (t : tools) (custom_versions_path root file : string) : IO unit :=
  if is_video_file file then
    let input_file := os_path_join root file in
    let output_file := os_path_join custom_versions_path file in
    let* present := os_path_exists output_file in
    if present then ret tt
    else
      let* info := get_video_info t input_file in
      let '(framerate, original_bitrate, width, height) := info in
      match framerate, original_bitrate with
      | Some framerate, Some original_bitrate =>
          if Py.float_lt_int original_bitrate VIDEO_BITRATE then
            emit (Print_skipping input_file)
          else
            let* gop_size := lift (gop_size framerate) in
            let* new_resolution :=
              lift match width, height with
                   | Some width, Some height => calculate_new_resolution width height
                   | _, _ => raise TypeError
                   end in
            let '(new_width, new_height) := new_resolution in
            run_ffmpeg t
              (ffmpeg_command input_file file gop_size new_width new_height output_file)
              output_file
      | _, _ => emit (Print_skipping input_file)
      end
  else ret tt.

(** The body of the outer loop, for one triple of [os.walk]. *)
Definition process_directory (t : tools) (custom_versions_path : string)
                             (entry : string * list string * list string) : IO unit :=
  let '(root, dirs, files) := entry in
  if str_in "Custom Versions" root then ret tt
  else for_each files (process_file t custom_versions_path root).

Definition process_videos (t : tools) (movie_folder_path : string) : IO unit :=
  let custom_versions_path :=
    os_path_join (os_path_join movie_folder_path "Custom Versions") QUALITY_PROFILE in
  (let* present := os_path_exists custom_versions_path in
   if negb present then os_makedirs custom_versions_path else ret tt) ;;
  for_each (os_walk t movie_folder_path) (process_directory t custom_versions_path).

(** [main], from the parsed command-line argument on. *)
Definition main (t : tools) (arg_plex_library_path : string) : IO unit :=
  let plex_library_path := os_path_expanduser t arg_plex_library_path in
  let* present := os_path_exists plex_library_path in
  if negb present then emit Print_path_missing
  else
    for_each (os_listdir t plex_library_path) (fun movie_folder =>
      let movie_folder_path := os_path_join plex_library_path movie_folder in
      let* is_dir := os_path_isdir movie_folder_path in
      if negb is_dir then ret tt
      else
        ensure_custom_versions_folder movie_folder_path ;;
        process_videos t movie_folder_path) ;;
    emit Print_complete.


(* ================================================================= *)
(** * A small library, for the examples

    One title, [lib/Film], with a video above the threshold, one below
    it, one already converted, one that [mediainfo] cannot read and a
    text file. *)

Definition example_fs : filesystem :=
  <["lib" := Directory]>
    (<["lib/Film" := Directory]>
       (<["lib/Film/a.mp4" := File "a"]>
          (<["lib/Film/low.mkv" := File "low"]>
             (<["lib/Film/old.mp4" := File "old"]>
                (<["lib/Film/Custom Versions/1Mbps/old.mp4" := File "converted"]> ∅))))).

Definition example_track (framerate : Py.float) (bitrate width height : Z) : mediainfo_outcome :=
  Probe_track {| FrameRate := Some (ok framerate);
                 BitRate := Some (ok bitrate);
                 Width := Some (ok width);
                 Height := Some (ok height) |}.

Definition example_mediainfo (p : string) : mediainfo_outcome :=
  if String.eqb p "lib/Film/a.mp4" then
    example_track (Py.float_of_decimal 23976 3) 5000000 1920 1080
  else if String.eqb p "lib/Film/low.mkv" then
    example_track (Py.float_of_decimal 25 0) 900000 1280 720
  else Probe_raises (OtherException "CalledProcessError").

Definition example_walk : list (string * list string * list string) :=
  [ ("lib/Film", ["Custom Versions"],
     ["a.mp4"; "low.mkv"; "old.mp4"; "bad.avi"; "notes.txt"]);
    ("lib/Film/Custom Versions", ["1Mbps"], []);
    ("lib/Film/Custom Versions/1Mbps", [], ["old.mp4"]) ]%string.

(** Every encode succeeds. *)
Definition example_tools : tools :=
  {| mediainfo := example_mediainfo;
     ffmpeg := fun _ => Ffmpeg_exit 0 (Some "encoded"%string);
     os_walk := fun _ => example_walk;
     os_listdir := fun _ => ["Film"; "readme.txt"]%string;
     os_path_expanduser := fun p => p |}.

(** Every encode fails with exit status 1. *)
Definition failing_tools : tools :=
  {| mediainfo := example_mediainfo;
     ffmpeg := fun _ => Ffmpeg_exit 1 None;
     os_walk := fun _ => example_walk;
     os_listdir := fun _ => ["Film"; "readme.txt"]%string;
     os_path_expanduser := fun p => p |}.

(** The probe of every file reports no [Width] and the frame rate
    given. *)
Definition no_width_tools (framerate : Py.float) : tools :=
  {| mediainfo := fun _ =>
       Probe_track {| FrameRate := Some (ok framerate);
                      BitRate := Some (ok 5000000);
                      Width := None;
                      Height := Some (ok 1080) |};
     ffmpeg := fun _ => Ffmpeg_exit 0 (Some "encoded"%string);
     os_walk := fun _ => example_walk;
     os_listdir := fun _ => ["Film"; "readme.txt"]%string;
     os_path_expanduser := fun p => p |}.

(* ================================================================= *)
(** * Notions used in the statements and proofs

    The exact rational value of a float, so that the rounding of the
    float operations can be measured. *)

Open Scope list_scope.
Open Scope Z_scope.

Abbreviation fexp64 := (fexp Py.prec Py.emax).

(** [2^e] as a rational. *)
Definition bpow (e : Z) : Q := ((2 # 1) ^ e)%Q.

(** [m * 2^e] *)
Definition F2Q (m e : Z) : Q := (inject_Z m * bpow e)%Q.

Arguments bpow : simpl never.
Arguments F2Q : simpl never.

(** The value of a float that is zero or finite. *)
Definition fval (f : Py.float) : Q :=
  match f with
  | S754_finite s m e => if s then (- F2Q (Zpos m) e)%Q else F2Q (Zpos m) e
  | _ => 0%Q
  end.


(** A float of the format that is a zero or a finite number: its
    significand and exponent are in canonical form. *)
Definition finite_float (f : Py.float) : Prop :=
  match f with
  | S754_zero _ => True
  | S754_finite _ m e => bounded Py.prec Py.emax m e = true
  | _ => False
  end.

(** Such a float that is not negative. *)
Definition nonneg_float (f : Py.float) : Prop :=
  match f with
  | S754_zero false => True
  | S754_finite false m e => bounded Py.prec Py.emax m e = true
  | _ => False
  end.

(** Truncation of a rational toward zero. *)
Definition Qtrunc (q : Q) : Z :=
  if Qle_bool 0 q then Qfloor q else Qceiling q.

(** ** Accounting for the events of a run *)

(** The skip test of [process_videos] on what the probe of a file
    returns: the probe failed, or the bitrate is below the threshold. *)
Definition skipped_by_probe (t : tools) (input_file : string) : Prop :=
  match read_track (mediainfo t input_file) with
  | inl _ => True
  | inr (_, bitrate, _, _) => Py.float_lt_int bitrate VIDEO_BITRATE = true
  end.

(** Every event has a reason.  [fs0] is the file system at the start,
    [candidates root file] says which files of which directories the
    loops range over. *)
Inductive accounted (t : tools) (custom_versions_path : string) (fs0 : filesystem)
                    (candidates : string -> string -> Prop) : event -> Prop :=
| acc_probe root file :
    candidates root file ->
    is_video_file file = true ->
    fs0 !! os_path_join custom_versions_path file = None ->
    accounted t custom_versions_path fs0 candidates
      (Run_mediainfo (os_path_join root file))
| acc_probe_error root file e :
    candidates root file ->
    read_track (mediainfo t (os_path_join root file)) = inl e ->
    accounted t custom_versions_path fs0 candidates
      (Print_probe_error (os_path_join root file) e)
| acc_skipping root file :
    candidates root file ->
    skipped_by_probe t (os_path_join root file) ->
    accounted t custom_versions_path fs0 candidates
      (Print_skipping (os_path_join root file))
| acc_ffmpeg root file framerate bitrate width height gop new_width new_height :
    candidates root file ->
    is_video_file file = true ->
    fs0 !! os_path_join custom_versions_path file = None ->
    read_track (mediainfo t (os_path_join root file)) = ok (framerate, bitrate, width, height) ->
    Py.float_lt_int bitrate VIDEO_BITRATE = false ->
    gop_size framerate = ok gop ->
    calculate_new_resolution width height = ok (new_width, new_height) ->
    accounted t custom_versions_path fs0 candidates
      (Run_ffmpeg (ffmpeg_command (os_path_join root file) file gop new_width new_height
                                  (os_path_join custom_versions_path file))).

(** A computation keeps what exists and causes accounted events only. *)
Definition well_behaved {A} (t : tools) (custom_versions_path : string)
           (candidates : string -> string -> Prop) (m : IO A) : Prop :=
  forall fs0 fs : filesystem,
    fs0 ⊆ fs ->
    fs0 ⊆ final (m fs) /\
    Forall (accounted t custom_versions_path fs0 candidates) (events (m fs)).

(** The input and output file named on an [ffmpeg] command line. *)
Definition command_input (command : list string) : string := nth 2 command ""%string.
Definition command_output (command : list string) : string := List.last command ""%string.

(** The exception, if any, that running [ffmpeg] on a command raises. *)
Definition ffmpeg_error (t : tools) (command : list string) : option exn :=
  match ffmpeg t command with
  | Ffmpeg_not_run e => Some e
  | Ffmpeg_exit returncode _ =>
      if returncode =? 0 then None else Some (CalledProcessError returncode)
  end.

(** No [ffmpeg] run among the events failed. *)
Definition all_encodes_succeed (t : tools) (evs : list event) : Prop :=
  Forall (fun e => forall command, e = Run_ffmpeg command -> ffmpeg_error t command = None) evs.

(** A failed [ffmpeg] run is the last thing that happens, and its
    exception is the result. *)
Definition stops_at_failed_encode {A} (t : tools) (o : outcome A) : Prop :=
  match res o with
  | inr _ => all_encodes_succeed t (events o)
  | inl x =>
      all_encodes_succeed t (events o) \/
      exists pre command,
        events o = (pre ++ [Run_ffmpeg command])%list /\
        all_encodes_succeed t pre /\
        ffmpeg_error t command = Some x
  end.

(** A directory lies under [base] when its path is [base] extended by
    (relative) names, as [os.walk] builds the paths it yields. *)
Inductive lies_under (base : string) : string -> Prop :=
| under_base : lies_under base base
| under_child dir name :
    lies_under base dir ->
    startswith name "/" = false ->
    lies_under base (os_path_join dir name).

(** The files that [process_videos] ranges over: those of the
    directories of the walk that pass the test on [root]. *)
Definition walk_candidates (t : tools) (movie_folder_path : string)
                           (root file : string) : Prop :=
  str_in "Custom Versions" root = false /\
  exists dirs files,
    In (root, dirs, files) (os_walk t movie_folder_path) /\ In file files.

(** The output directory of a title. *)
Definition output_directory (movie_folder_path : string) : string :=
  os_path_join (os_path_join movie_folder_path "Custom Versions") QUALITY_PROFILE.


(* ================================================================= *)
(** * The console

    [print] writes its message to standard output, and raises when the
    console does not take it: [UnicodeEncodeError] for a file name
    outside the encoding of the console, [BrokenPipeError] when the
    reader is gone.  The script prints in the exception handler of
    [get_video_info], before the [continue] of a skipped file, and in
    [main]; nothing catches what these prints raise.

    The definitions above are the script on a console that takes every
    message ([emit]).  The module [Printing] is the script on any
    console. *)

Record console : Type := {
  (** the exception, if any, that printing the message raises *)
  refuses : event -> option exn
}.

(** The console that takes every message. *)
Definition quiet_console : console := {| refuses := fun _ => None |}.

Module Printing.

(** [print(message)] *)
Definition print (c : console) (message : event) : IO unit :=
  fun fs =>
    match refuses c message with
    | Some e => Outcome (raise e) fs []
    | None => Outcome (ok tt) fs [message]
    end.

Definition get_video_info (c : console) (t : tools) (input_file : string)
  : IO (option Py.float * option Py.float * option Z * option Z) :=
  emit (Run_mediainfo input_file) ;;
  match read_track (mediainfo t input_file) with
  | inr (framerate, bitrate, width, height) =>
      ret (Some framerate, Some bitrate, Some width, Some height)
  | inl e =>
      print c (Print_probe_error input_file e) ;;
      ret (None, None, None, None)
  end.

(** The body of the inner loop of [process_videos]. *)
Definition process_file (c : console) (t : tools) (custom_versions_path root file : string)
  : IO unit :=
  if is_video_file file then
    let input_file := os_path_join root file in
    let output_file := os_path_join custom_versions_path file in
    let* present := os_path_exists output_file in
    if present then ret tt
    else
      let* info := get_video_info c t input_file in
      let '(framerate, original_bitrate, width, height) := info in
      match framerate, original_bitrate with
      | Some framerate, Some original_bitrate =>
          if Py.float_lt_int original_bitrate VIDEO_BITRATE then
            print c (Print_skipping input_file)
          else
            let* gop_size := lift (gop_size framerate) in
            let* new_resolution :=
              lift match width, height with
                   | Some width, Some height => calculate_new_resolution width height
                   | _, _ => raise TypeError
                   end in
            let '(new_width, new_height) := new_resolution in
            run_ffmpeg t
              (ffmpeg_command input_file file gop_size new_width new_height output_file)
              output_file
      | _, _ => print c (Print_skipping input_file)
      end
  else ret tt.

(** The body of the outer loop. *)
Definition process_directory (c : console) (t : tools) (custom_versions_path : string)
                             (entry : string * list string * list string) : IO unit :=
  let '(root, dirs, files) := entry in
  if str_in "Custom Versions" root then ret tt
  else for_each files (process_file c t custom_versions_path root).

Definition process_videos (c : console) (t : tools) (movie_folder_path : string) : IO unit :=
  let custom_versions_path :=
    os_path_join (os_path_join movie_folder_path "Custom Versions") QUALITY_PROFILE in
  (let* present := os_path_exists custom_versions_path in
   if negb present then os_makedirs custom_versions_path else ret tt) ;;
  for_each (os_walk t movie_folder_path) (process_directory c t custom_versions_path).

(** [main], from the parsed command-line argument on. *)
Definition main (c : console) (t : tools) (arg_plex_library_path : string) : IO unit :=
  let plex_library_path := os_path_expanduser t arg_plex_library_path in
  let* present := os_path_exists plex_library_path in
  if negb present then print c Print_path_missing
  else
    for_each (os_listdir t plex_library_path) (fun movie_folder =>
      let movie_folder_path := os_path_join plex_library_path movie_folder in
      let* is_dir := os_path_isdir movie_folder_path in
      if negb is_dir then ret tt
      else
        ensure_custom_versions_folder movie_folder_path ;;
        process_videos c t movie_folder_path) ;;
    print c Print_complete.

End Printing.

(** A console that cannot print the message of a failed probe (the
    file name is outside its encoding). *)
Definition narrow_console : console :=
  {| refuses := fun message =>
       match message with
       | Print_probe_error _ _ => Some (OtherException "UnicodeEncodeError")
       | _ => None
       end |}.

(** One title with a file that [mediainfo] cannot read before a video
    above the threshold. *)
Definition bad_first_tools : tools :=
  {| mediainfo := example_mediainfo;
     ffmpeg := fun _ => Ffmpeg_exit 0 (Some "encoded"%string);
     os_walk := fun _ => [("lib/Film", [], ["bad.avi"; "a.mp4"])]%string;
     os_listdir := fun _ => ["Film"]%string;
     os_path_expanduser := fun p => p |}.

(** Two videos of one name, in the folder of the title and in a
    subfolder. *)
Definition twin_tools : tools :=
  {| mediainfo := fun _ => example_track (Py.float_of_decimal 25 0) 5000000 1920 1080;
     ffmpeg := fun _ => Ffmpeg_exit 0 (Some "encoded"%string);
     os_walk := fun _ => [("lib/Film", ["extras"], ["a.mp4"]);
                          ("lib/Film/extras", [], ["a.mp4"])]%string;
     os_listdir := fun _ => ["Film"]%string;
     os_path_expanduser := fun p => p |}.

(* ================================================================= *)
(** * The shape of a run *)

(** What handling one file to its end adds to the events: the probe,
    followed by the two messages of a failed probe, by the message of
    a file skipped for its bitrate, or by an encode that succeeds. *)
Inductive file_block (t : tools) : list event -> Prop :=
| block_probe_failed input e :
    read_track (mediainfo t input) = raise e ->
    file_block t [Run_mediainfo input; Print_probe_error input e; Print_skipping input]
| block_skipped input framerate bitrate width height :
    read_track (mediainfo t input) = ok (framerate, bitrate, width, height) ->
    Py.float_lt_int bitrate VIDEO_BITRATE = true ->
    file_block t [Run_mediainfo input; Print_skipping input]
| block_encoded input framerate bitrate width height gop new_width new_height command :
    read_track (mediainfo t input) = ok (framerate, bitrate, width, height) ->
    Py.float_lt_int bitrate VIDEO_BITRATE = false ->
    gop_size framerate = ok gop ->
    calculate_new_resolution width height = ok (new_width, new_height) ->
    command_input command = input ->
    ffmpeg_error t command = None ->
    file_block t [Run_mediainfo input; Run_ffmpeg command].

Inductive blocks (t : tools) : list event -> Prop :=
| blocks_nil : blocks t []
| blocks_cons b evs : file_block t b -> blocks t evs -> blocks t (b ++ evs).

(** What a run that raises [e] while it handles a file ends with: the
    probe of a file whose keyframe interval or resolution cannot be
    computed; the probe and the failed encode of a file; or the probe
    of a file about which a message is refused by the console. *)
Inductive abort_tail (c : console) (t : tools) (e : exn) : list event -> Prop :=
| tail_computing input framerate bitrate width height :
    read_track (mediainfo t input) = ok (framerate, bitrate, width, height) ->
    Py.float_lt_int bitrate VIDEO_BITRATE = false ->
    gop_size framerate = raise e \/
    (exists gop, gop_size framerate = ok gop) /\
    calculate_new_resolution width height = raise e ->
    abort_tail c t e [Run_mediainfo input]
| tail_encoding input framerate bitrate width height gop new_width new_height command :
    read_track (mediainfo t input) = ok (framerate, bitrate, width, height) ->
    Py.float_lt_int bitrate VIDEO_BITRATE = false ->
    gop_size framerate = ok gop ->
    calculate_new_resolution width height = ok (new_width, new_height) ->
    command_input command = input ->
    ffmpeg_error t command = Some e ->
    abort_tail c t e [Run_mediainfo input; Run_ffmpeg command]
| tail_error_message_refused input e0 :
    read_track (mediainfo t input) = raise e0 ->
    refuses c (Print_probe_error input e0) = Some e ->
    abort_tail c t e [Run_mediainfo input]
| tail_skip_message_refused_after_error input e0 :
    read_track (mediainfo t input) = raise e0 ->
    refuses c (Print_probe_error input e0) = None ->
    refuses c (Print_skipping input) = Some e ->
    abort_tail c t e [Run_mediainfo input; Print_probe_error input e0]
| tail_skip_message_refused input framerate bitrate width height :
    read_track (mediainfo t input) = ok (framerate, bitrate, width, height) ->
    Py.float_lt_int bitrate VIDEO_BITRATE = true ->
    refuses c (Print_skipping input) = Some e ->
    abort_tail c t e [Run_mediainfo input].

(** How the events of a run end: with nothing more, with the completion
    message, or with the tail of an abort. *)
Definition run_end (c : console) (t : tools) (tail : list event) : Prop :=
  tail = [] \/ tail = [Print_complete] \/ exists x, abort_tail c t x tail.

(** The events of a computation are whole blocks, up to the tail of an
    abort. *)
Definition run_shape (c : console) (t : tools) {A} (o : outcome A) : Prop :=
  match res o with
  | inr _ => blocks t (events o)
  | inl e => exists pre tail,
      events o = pre ++ tail /\ blocks t pre /\ abort_tail c t e tail
  end.


(** What a computation may add to the file system: directories, and
    the output files that the encodes of its events wrote. *)
Definition creates_only (t : tools) {A} (fs : filesystem) (o : outcome A) : Prop :=
  forall p n,
    final o !! p = Some n ->
    fs !! p = Some n \/
    n = Directory \/
    exists command returncode data,
      In (Run_ffmpeg command) (events o) /\
      command_output command = p /\
      ffmpeg t command = Ffmpeg_exit returncode (Some data) /\
      n = File data.

(** What the loops of a run add to the file system: the output files
    that the encodes of its events wrote, and nothing else. *)
Definition writes_only (t : tools) {A} (fs : filesystem) (o : outcome A) : Prop :=
  forall p n,
    final o !! p = Some n ->
    fs !! p = Some n \/
    exists command returncode data,
      In (Run_ffmpeg command) (events o) /\
      command_output command = p /\
      ffmpeg t command = Ffmpeg_exit returncode (Some data) /\
      n = File data.

(** An [ffmpeg] that exits with status 0 has written its output file. *)
Definition success_writes_output (t : tools) : Prop :=
  forall command written, ffmpeg t command = Ffmpeg_exit 0 written -> written <> None.

(** The output files named by the encodes among the events. *)
Fixpoint encode_outputs (evs : list event) : list string :=
  match evs with
  | [] => []
  | Run_ffmpeg command :: evs' => command_output command :: encode_outputs evs'
  | _ :: evs' => encode_outputs evs'
  end.

(** The name consists of dots only. *)
Fixpoint all_dots (s : string) : bool :=
  match s with
  | EmptyString => true
  | String c s' => Ascii.eqb c "." && all_dots s'
  end.

(** The probe of every file reports a track without [BitRate]. *)
Definition no_bitrate_tools : tools :=
  {| mediainfo := fun _ =>
       Probe_track {| FrameRate := Some (ok (Py.float_of_decimal 25 0));
                      BitRate := None;
                      Width := Some (ok 1920);
                      Height := Some (ok 1080) |};
     ffmpeg := fun _ => Ffmpeg_exit 0 (Some "encoded"%string);
     os_walk := fun _ => example_walk;
     os_listdir := fun _ => ["Film"; "readme.txt"]%string;
     os_path_expanduser := fun p => p |}.

(** What an encode wrote is there at the end, whatever happens after
    it. *)
Definition outputs_persist (t : tools) {A} (o : outcome A) : Prop :=
  forall command returncode data,
    In (Run_ffmpeg command) (events o) ->
    ffmpeg t command = Ffmpeg_exit returncode (Some data) ->
    final o !! command_output command = Some (File data).

(** Every encode exits with status 1 after writing a part of its
    output. *)
Definition partial_tools : tools :=
  {| mediainfo := example_mediainfo;
     ffmpeg := fun _ => Ffmpeg_exit 1 (Some "part"%string);
     os_walk := fun _ => example_walk;
     os_listdir := fun _ => ["Film"; "readme.txt"]%string;
     os_path_expanduser := fun p => p |}.

(** The outputs of the encodes of a computation are new, distinct, and
    present when it returns. *)
Definition fresh_outputs {A} (fs : filesystem) (o : outcome A) : Prop :=
  fs ⊆ final o /\
  NoDup (encode_outputs (events o)) /\
  (forall p, In p (encode_outputs (events o)) -> fs !! p = None) /\
  (forall a, res o = ok a ->
             forall p, In p (encode_outputs (events o)) -> is_Some (final o !! p)).


(* ================================================================= *)
(** * Rounding in binary64: what [SpecFloat]'s operations guarantee *)
(* ---- digits ---- *)
Lemma digits2_pos_bounds (p : positive) :
  2 ^ (Zpos (digits2_pos p) - 1) <= Zpos p < 2 ^ Zpos (digits2_pos p).
Proof.
  induction p as [p IH | p IH |]; cbn [digits2_pos].
  - rewrite Pos2Z.inj_succ.
    replace (Z.succ (Zpos (digits2_pos p)) - 1) with (Z.succ (Zpos (digits2_pos p) - 1)) by lia.
    rewrite !Z.pow_succ_r by lia. lia.
  - rewrite Pos2Z.inj_succ.
    replace (Z.succ (Zpos (digits2_pos p)) - 1) with (Z.succ (Zpos (digits2_pos p) - 1)) by lia.
    rewrite !Z.pow_succ_r by lia. lia.
  - cbn. lia.
Qed.

Lemma Zdigits2_bounds (m : Z) :
  0 < m -> 2 ^ (Zdigits2 m - 1) <= m < 2 ^ Zdigits2 m.
Proof.
  destruct m as [|p|p]; try lia. intros _. apply digits2_pos_bounds.
Qed.

Lemma Zdigits2_nonneg (m : Z) : 0 <= Zdigits2 m.
Proof. destruct m; cbn; lia. Qed.

Lemma Zdigits2_pos (m : Z) : 0 < m -> 0 < Zdigits2 m.
Proof. destruct m; cbn; lia. Qed.

(** A positive number below [2^k] has at most [k] digits, one at least
    [2^k] has more than [k]. *)
Lemma Zdigits2_le (m k : Z) : 0 < m -> m < 2 ^ k -> Zdigits2 m <= k.
Proof.
  intros Hm Hk. destruct (Zdigits2_bounds m Hm) as [Hlo _].
  destruct (Z_le_gt_dec (Zdigits2 m) k) as [|Hgt]; [assumption|exfalso].
  assert (0 <= k) by (destruct k; try lia; rewrite Z.pow_neg_r in Hk; lia).
  assert (2 ^ k <= 2 ^ (Zdigits2 m - 1)) by (apply Z.pow_le_mono_r; lia).
  lia.
Qed.

Lemma Zdigits2_gt (m k : Z) : 0 <= k -> 2 ^ k <= m -> k < Zdigits2 m.
Proof.
  intros Hk Hm.
  assert (0 < m) by (pose proof (Z.pow_pos_nonneg 2 k); lia).
  destruct (Zdigits2_bounds m H) as [_ Hhi].
  destruct (Z_lt_le_dec k (Zdigits2 m)) as [|Hle]; [assumption|exfalso].
  assert (2 ^ Zdigits2 m <= 2 ^ k) by (apply Z.pow_le_mono_r; lia).
  lia.
Qed.

(* ---- shifting right ---- *)
Lemma shr_1_m (mrs : shr_record) :
  0 <= shr_m mrs -> shr_m (shr_1 mrs) = shr_m mrs / 2.
Proof.
  destruct mrs as [m r s]. cbn [shr_m]. intros Hm.
  destruct m as [|[p|p|]|p]; cbn [shr_1 shr_m]; try reflexivity; try lia.
  - rewrite (Pos2Z.inj_xI p). apply Z.div_unique with 1; lia.
  - rewrite (Pos2Z.inj_xO p). apply Z.div_unique with 0; lia.
Qed.

Lemma iter_shr_1_m (p : positive) : forall mrs,
  0 <= shr_m mrs -> shr_m (SpecFloat.iter_pos shr_1 p mrs) = shr_m mrs / 2 ^ Zpos p.
Proof.
  induction p as [p IH | p IH |]; intros mrs Hm; cbn [SpecFloat.iter_pos].
  - assert (H1 : 0 <= shr_m (shr_1 mrs)) by (rewrite shr_1_m by lia; apply Z.div_pos; lia).
    assert (H2 : 0 <= shr_m (SpecFloat.iter_pos shr_1 p (shr_1 mrs)))
      by (rewrite IH by lia; apply Z.div_pos; [lia | apply Z.pow_pos_nonneg; lia]).
    rewrite IH, IH, shr_1_m by lia.
    rewrite !Z.div_div by (try lia; apply Z.pow_pos_nonneg; lia).
    f_equal. rewrite (Pos2Z.inj_xI p).
    replace (2 * Zpos p + 1) with (1 + Zpos p + Zpos p) by lia.
    rewrite !Z.pow_add_r by lia. rewrite Z.pow_1_r. lia.
  - assert (H2 : 0 <= shr_m (SpecFloat.iter_pos shr_1 p mrs))
      by (rewrite IH by lia; apply Z.div_pos; [lia | apply Z.pow_pos_nonneg; lia]).
    rewrite IH, IH by lia.
    rewrite !Z.div_div by (try lia; apply Z.pow_pos_nonneg; lia).
    f_equal. rewrite (Pos2Z.inj_xO p).
    replace (2 * Zpos p) with (Zpos p + Zpos p) by lia.
    rewrite !Z.pow_add_r by lia. lia.
  - rewrite shr_1_m by lia. reflexivity.
Qed.

(** What [shr] does to the significand and the exponent. *)
Lemma shr_spec (mrs : shr_record) (e n : Z) :
  0 <= shr_m mrs ->
  shr_m (fst (shr mrs e n)) = shr_m mrs / 2 ^ Z.max 0 n /\
  snd (shr mrs e n) = e + Z.max 0 n.
Proof.
  intros Hm. destruct n as [|p|p]; cbn [shr fst snd Z.max Z.compare].
  - rewrite Z.div_1_r. lia.
  - rewrite iter_shr_1_m by assumption. replace (Z.max 0 (Zpos p)) with (Zpos p) by lia. lia.
  - replace (Z.max 0 (Zneg p)) with 0 by lia. rewrite Z.div_1_r. lia.
Qed.

Lemma shr_record_of_loc_m m l : shr_m (shr_record_of_loc m l) = m.
Proof. destruct l as [|[ | | ]]; reflexivity. Qed.

Lemma round_nearest_even_bounds m l :
  m <= round_nearest_even m l <= m + 1.
Proof.
  destruct l as [|[ | | ]]; cbn [round_nearest_even]; try lia.
  destruct (Z.even m); lia.
Qed.

Lemma loc_of_shr_record_of_loc m l :
  loc_of_shr_record (shr_record_of_loc m l) = l.
Proof. destruct l as [|[ | | ]]; reflexivity. Qed.

(** Shifting out zero bits only keeps the position exact. *)
Lemma shr_1_exact (k : Z) :
  0 <= k -> shr_1 (Build_shr_record (2 * k) false false) = Build_shr_record k false false.
Proof. intros Hk. destruct k as [|p|p]; try lia; reflexivity. Qed.

Lemma iter_shr_1_exact (p : positive) : forall k,
  0 <= k ->
  SpecFloat.iter_pos shr_1 p (Build_shr_record (k * 2 ^ Zpos p) false false)
  = Build_shr_record k false false.
Proof.
  induction p as [p IH | p IH |]; intros k Hk; cbn [SpecFloat.iter_pos].
  - rewrite (Pos2Z.inj_xI p).
    replace (k * 2 ^ (2 * Zpos p + 1)) with (2 * (k * 2 ^ Zpos p * 2 ^ Zpos p)).
    2:{ replace (2 * Zpos p + 1) with (1 + Zpos p + Zpos p) by lia.
        rewrite !Z.pow_add_r by lia. rewrite Z.pow_1_r. lia. }
    pose proof (Z.pow_pos_nonneg 2 (Zpos p)).
    rewrite shr_1_exact by nia. rewrite IH by nia. apply IH; lia.
  - rewrite (Pos2Z.inj_xO p).
    replace (k * 2 ^ (2 * Zpos p)) with (k * 2 ^ Zpos p * 2 ^ Zpos p).
    2:{ replace (2 * Zpos p) with (Zpos p + Zpos p) by lia.
        rewrite !Z.pow_add_r by lia. lia. }
    pose proof (Z.pow_pos_nonneg 2 (Zpos p)).
    rewrite IH by nia. apply IH; lia.
  - rewrite Z.pow_1_r. replace (k * 2) with (2 * k) by lia. apply shr_1_exact; lia.
Qed.


(** The anatomy of [binary_round_aux]: a first shift by [n] places
    brings the exponent to [fexp]; rounding adds at most one unit;
    a second shift absorbs a possible carry. *)
Lemma binary_round_aux_anatomy (s : bool) (mx ex : Z) (lx : location) :
  0 <= mx ->
  let n := Z.max 0 (fexp64 (Zdigits2 mx + ex) - ex) in
  let m1 := mx / 2 ^ n in
  let e1 := ex + n in
  exists m2,
    m1 <= m2 <= m1 + 1 /\
    (lx = loc_Exact -> mx mod 2 ^ n = 0 -> m2 = m1) /\
    let n2 := Z.max 0 (fexp64 (Zdigits2 m2 + e1) - e1) in
    binary_round_aux Py.prec Py.emax s mx ex lx =
      match m2 / 2 ^ n2 with
      | Z0 => S754_zero s
      | Zpos m => if e1 + n2 <=? Py.emax - Py.prec
                  then S754_finite s m (e1 + n2) else S754_infinity s
      | Zneg _ => S754_nan
      end.
Proof.
  intros Hmx n m1 e1.
  unfold binary_round_aux, shr_fexp.
  set (d := fexp64 (Zdigits2 mx + ex) - ex) in *.
  pose proof (shr_spec (shr_record_of_loc mx lx) ex d) as Hs1.
  rewrite shr_record_of_loc_m in Hs1. specialize (Hs1 Hmx).
  destruct (shr (shr_record_of_loc mx lx) ex d) as [mrs1 e1'] eqn:E1.
  cbn [fst snd] in Hs1. destruct Hs1 as [Hm1 He1].
  fold n in Hm1, He1. fold m1 in Hm1. fold e1 in He1. subst e1'.
  set (m2 := round_nearest_even (shr_m mrs1) (loc_of_shr_record mrs1)).
  assert (Hm1pos : 0 <= m1).
  { apply Z.div_pos; [lia | apply Z.pow_pos_nonneg; lia]. }
  assert (Hb : m1 <= m2 <= m1 + 1).
  { unfold m2. rewrite <- Hm1. apply round_nearest_even_bounds. }
  exists m2. split; [exact Hb|]. split.
  - intros -> Hdiv. unfold m2.
    assert (Hrec : mrs1 = Build_shr_record m1 false false).
    { destruct d as [|p|p] eqn:Ed; cbn [shr shr_record_of_loc] in E1.
      - inversion E1; subst mrs1. cbn [shr_m] in Hm1. congruence.
      - assert (Hn : n = Zpos p) by (unfold n; lia).
        assert (Hk : mx = m1 * 2 ^ n).
        { unfold m1. pose proof (Z.div_mod mx (2 ^ n)).
          pose proof (Z.pow_pos_nonneg 2 n). lia. }
        rewrite Hn in Hk.
        rewrite Hk in E1. rewrite iter_shr_1_exact in E1 by lia.
        inversion E1; subst mrs1. reflexivity.
      - inversion E1; subst mrs1. cbn [shr_m] in Hm1. congruence. }
    rewrite Hrec. reflexivity.
  - set (d2 := fexp64 (Zdigits2 m2 + e1) - e1) in *.
    pose proof (shr_spec (shr_record_of_loc m2 loc_Exact) e1 d2) as Hs2.
    rewrite shr_record_of_loc_m in Hs2.
    assert (H0 : 0 <= m2) by lia. specialize (Hs2 H0).
    destruct (shr (shr_record_of_loc m2 loc_Exact) e1 d2) as [mrs2 e2'] eqn:E2.
    cbn [fst snd] in Hs2. destruct Hs2 as [Hm2 He2].
    rewrite Hm2, He2. reflexivity.
Qed.

(* ---- rational values ---- *)
Open Scope Q_scope.


Lemma bpow_pos (e : Z) : 0 < bpow e.
Proof. apply Qpower_0_lt. reflexivity. Qed.

Lemma bpow_add (a b : Z) : bpow (a + b) == bpow a * bpow b.
Proof. apply Qpower_plus. discriminate. Qed.

Lemma bpow_inject (n : Z) : (0 <= n)%Z -> bpow n == inject_Z (2 ^ n).
Proof. intros Hn. unfold bpow. rewrite Zpower_Qpower by assumption. reflexivity. Qed.

Lemma bpow_le (a b : Z) : (a <= b)%Z -> bpow a <= bpow b.
Proof.
  intros Hab. replace b with (a + (b - a))%Z by lia.
  rewrite bpow_add, (bpow_inject (b - a)) by lia.
  assert (1 <= inject_Z (2 ^ (b - a))).
  { change 1 with (inject_Z 1). rewrite <- Zle_Qle.
    pose proof (Z.pow_pos_nonneg 2 (b - a)). lia. }
  pose proof (bpow_pos a). nra.
Qed.

Lemma F2Q_shift (m e k : Z) : (0 <= k)%Z -> F2Q (m * 2 ^ k) e == F2Q m (e + k).
Proof.
  intros Hk. unfold F2Q. rewrite bpow_add, (bpow_inject k), inject_Z_mult by assumption.
  ring.
Qed.

Lemma F2Q_le (m m' e : Z) : (m <= m')%Z -> F2Q m e <= F2Q m' e.
Proof.
  intros H. unfold F2Q. rewrite Zle_Qle in H. pose proof (bpow_pos e). nra.
Qed.

Lemma F2Q_nonneg (m e : Z) : (0 <= m)%Z -> 0 <= F2Q m e.
Proof.
  intros H. unfold F2Q. rewrite Zle_Qle in H. pose proof (bpow_pos e).
  change (inject_Z 0) with 0 in H. nra.
Qed.

(** Dropping [k] low bits does not increase the value. *)
Lemma F2Q_div_le (m e k : Z) :
  (0 <= m)%Z -> (0 <= k)%Z -> F2Q (m / 2 ^ k) (e + k) <= F2Q m e.
Proof.
  intros Hm Hk. rewrite <- F2Q_shift by assumption. apply F2Q_le.
  pose proof (Z.pow_pos_nonneg 2 k).
  pose proof (Z.mul_div_le m (2 ^ k)). lia.
Qed.
Close Scope Q_scope.

(* ---- bounds on the rounded result ---- *)

Lemma fexp64_eq (x : Z) : fexp64 x = Z.max (x - 53) (-1074).
Proof. reflexivity. Qed.

Lemma div_pow2_lower (m a n : Z) :
  0 <= a -> 0 <= n -> 2 ^ (a + n) <= m -> 2 ^ a <= m / 2 ^ n.
Proof.
  intros Ha Hn Hm. rewrite Z.pow_add_r in Hm by assumption.
  pose proof (Z.pow_pos_nonneg 2 n).
  apply Z.div_le_lower_bound; lia.
Qed.

Lemma div_pow2_upper (m a n : Z) :
  0 <= a -> 0 <= n -> m < 2 ^ (a + n) -> m / 2 ^ n < 2 ^ a.
Proof.
  intros Ha Hn Hm. rewrite Z.pow_add_r in Hm by assumption.
  pose proof (Z.pow_pos_nonneg 2 n).
  apply Z.div_lt_upper_bound; lia.
Qed.

(** Rounding a non-negative significand gives a zero, a finite number
    or an infinity of the requested sign, never a NaN. *)
Lemma binary_round_aux_sign (s : bool) (mx ex : Z) (lx : location) :
  0 <= mx ->
  match binary_round_aux Py.prec Py.emax s mx ex lx with
  | S754_zero s' | S754_infinity s' | S754_finite s' _ _ => s' = s
  | S754_nan => False
  end.
Proof.
  intros Hmx.
  destruct (binary_round_aux_anatomy s mx ex lx Hmx) as (m2 & Hb & _ & Heq).
  cbv zeta in Heq. rewrite Heq. clear Heq.
  set (n := Z.max 0 (fexp64 (Zdigits2 mx + ex) - ex)) in *.
  set (e1 := ex + n) in *.
  set (n2 := Z.max 0 (fexp64 (Zdigits2 m2 + e1) - e1)) in *.
  assert (0 <= m2 / 2 ^ n2).
  { pose proof (Z.div_pos mx (2 ^ n)). pose proof (Z.pow_pos_nonneg 2 n).
    apply Z.div_pos; [unfold n in *; lia | apply Z.pow_pos_nonneg; unfold n2; lia]. }
  destruct (m2 / 2 ^ n2); try lia; [reflexivity|].
  destruct (e1 + n2 <=? Py.emax - Py.prec); reflexivity.
Qed.

(** The rounded value exceeds the value [mx * 2^ex] it was computed
    from by at most one part in [2^52], unless it is subnormal (or the
    least normal number).  The position [lx] must be exact, or the
    significand already at the precision of the format. *)
Lemma binary_round_aux_upper (s : bool) (mx ex : Z) (lx : location) s' m e :
  0 <= mx ->
  lx = loc_Exact \/ ex <= fexp64 (Zdigits2 mx + ex) ->
  binary_round_aux Py.prec Py.emax s mx ex lx = S754_finite s' m e ->
  (F2Q (Zpos m) e <= F2Q mx ex * (1 + bpow (-52)) \/
   F2Q (Zpos m) e <= bpow (-1022))%Q.
Proof.
  intros Hmx Hloc H.
  destruct (binary_round_aux_anatomy s mx ex lx Hmx) as (m2 & Hb & Hex & Heq).
  cbv zeta in Heq. rewrite Heq in H. clear Heq.
  set (n := Z.max 0 (fexp64 (Zdigits2 mx + ex) - ex)) in *.
  set (e1 := ex + n) in *.
  set (n2 := Z.max 0 (fexp64 (Zdigits2 m2 + e1) - e1)) in *.
  destruct (m2 / 2 ^ n2) as [|q|q] eqn:Hq; try discriminate.
  destruct (e1 + n2 <=? Py.emax - Py.prec) eqn:Hle; try discriminate.
  inversion H; subst s' m e. clear H Hle.
  assert (Hn : 0 <= n) by (unfold n; lia).
  assert (Hn2 : 0 <= n2) by (unfold n2; lia).
  assert (Hm1 : 0 <= mx / 2 ^ n).
  { apply Z.div_pos; [lia | apply Z.pow_pos_nonneg; lia]. }
  assert (Hstep : (F2Q (Zpos q) (e1 + n2) <= F2Q m2 e1)%Q).
  { rewrite <- Hq. apply F2Q_div_le; lia. }
  assert (Hm1le : (F2Q (mx / 2 ^ n) e1 <= F2Q mx ex)%Q).
  { unfold e1. apply F2Q_div_le; lia. }
  assert (Hn_def : n = Z.max 0 (Z.max (Zdigits2 mx + ex - 53) (-1074) - ex)) by reflexivity.
  assert (He1_def : e1 = ex + n) by reflexivity.
  clearbody n2 e1 n.
  (* exact and no shift: the value is kept *)
  destruct (Z_lt_le_dec (Z.max (Zdigits2 mx + ex - 53) (-1074)) ex) as [Hlt|Hge].
  { destruct Hloc as [Hloc|Hloc]; [|rewrite fexp64_eq in Hloc; lia].
    assert (n = 0) as Hn0 by lia.
    left. assert (m2 = mx / 2 ^ n) as ->.
    { apply Hex; [assumption|]. rewrite Hn0. apply Z.mod_1_r. }
    eapply Qle_trans; [exact Hstep|]. eapply Qle_trans; [exact Hm1le|].
    pose proof (F2Q_nonneg mx ex Hmx). pose proof (bpow_pos (-52)). nra. }
  assert (Hne : n = Z.max (Zdigits2 mx + ex - 53) (-1074) - ex) by lia.
  destruct (Z.eq_dec mx 0) as [Hz|Hnz].
  { (* nothing to round *)
    right. subst mx. cbn [Zdigits2] in *. rewrite Z.div_0_l in * by (pose proof (Z.pow_pos_nonneg 2 n); lia).
    assert (e1 = -1074) as He1 by lia.
    eapply Qle_trans; [exact Hstep|]. rewrite He1.
    eapply Qle_trans; [apply (F2Q_le m2 1); lia|].
    unfold F2Q. rewrite Qmult_1_l. apply bpow_le. lia. }
  assert (Hpos : 0 < mx) by lia.
  destruct (Zdigits2_bounds mx Hpos) as [Hlo Hhi].
  pose proof (Zdigits2_pos mx Hpos) as Hd.
  destruct (Z_le_gt_dec (-1074) (Zdigits2 mx + ex - 53)) as [Hnorm|Hsub].
  - (* normal range *)
    left.
    assert (Hnd : n = Zdigits2 mx - 53) by lia.
    assert (H52 : 2 ^ 52 <= mx / 2 ^ n).
    { apply div_pow2_lower; [lia|lia|].
      replace (52 + n) with (Zdigits2 mx - 1) by lia. exact Hlo. }
    eapply Qle_trans; [exact Hstep|].
    assert (Hm2 : (F2Q m2 e1 <= F2Q (mx / 2 ^ n) e1 * (1 + bpow (-52)))%Q).
    { unfold F2Q. pose proof (bpow_pos e1) as Hbp.
      assert (Hi : (inject_Z m2 <= inject_Z (mx / 2 ^ n) + 1)%Q).
      { change 1%Q with (inject_Z 1). rewrite <- inject_Z_plus, <- Zle_Qle. lia. }
      assert (Hr : (1 <= inject_Z (mx / 2 ^ n) * bpow (-52))%Q).
      { assert (Hb52 : (bpow 52 * bpow (-52) == 1)%Q) by (rewrite <- bpow_add; reflexivity).
        rewrite (bpow_inject 52) in Hb52 by lia.
        rewrite Zle_Qle in H52. pose proof (bpow_pos (-52)). nra. }
      nra. }
    eapply Qle_trans; [exact Hm2|].
    pose proof (bpow_pos (-52)). nra.
  - (* subnormal range *)
    right.
    assert (He1 : e1 = -1074) by lia.
    assert (H52 : mx / 2 ^ n < 2 ^ 52).
    { apply div_pow2_upper; [lia|lia|].
      eapply Z.lt_le_trans; [exact Hhi|]. apply Z.pow_le_mono_r; lia. }
    eapply Qle_trans; [exact Hstep|]. rewrite He1.
    eapply Qle_trans; [apply (F2Q_le m2 (2 ^ 52)); lia|].
    unfold F2Q. rewrite <- (bpow_inject 52), <- bpow_add by lia.
    apply bpow_le. lia.
Qed.

(* ---- the operations on non-negative operands ---- *)


(* ---- more on digits ---- *)
Lemma Zdigits2_unique (x k : Z) :
  2 ^ (k - 1) <= x < 2 ^ k -> 0 < k -> Zdigits2 x = k.
Proof.
  intros [Hlo Hhi] Hk.
  assert (Hx : 0 < x) by (pose proof (Z.pow_pos_nonneg 2 (k - 1)); lia).
  pose proof (Zdigits2_le x k Hx Hhi).
  pose proof (Zdigits2_gt x (k - 1) ltac:(lia) Hlo). lia.
Qed.

Lemma Zdigits2_mono (x y : Z) : 0 <= x <= y -> Zdigits2 x <= Zdigits2 y.
Proof.
  intros [Hx Hxy]. destruct (Z.eq_dec x 0) as [->|Hnz].
  - cbn. apply Zdigits2_nonneg.
  - destruct (Zdigits2_bounds x ltac:(lia)) as [Hlo _].
    pose proof (Zdigits2_pos x ltac:(lia)).
    pose proof (Zdigits2_gt y (Zdigits2 x - 1) ltac:(lia) ltac:(lia)). lia.
Qed.

Lemma Zdigits2_mul_pow2 (x k : Z) :
  0 < x -> 0 <= k -> Zdigits2 (x * 2 ^ k) = Zdigits2 x + k.
Proof.
  intros Hx Hk. destruct (Zdigits2_bounds x Hx) as [Hlo Hhi].
  pose proof (Zdigits2_pos x Hx) as Hd.
  pose proof (Z.pow_pos_nonneg 2 k ltac:(lia) Hk) as Hp.
  apply Zdigits2_unique; [|lia].
  replace (Zdigits2 x + k - 1) with (Zdigits2 x - 1 + k) by lia.
  rewrite !Z.pow_add_r by lia. nia.
Qed.

(** Dropping [n] low bits of a number that has more than [n]. *)
Lemma Zdigits2_div_pow2 (x n : Z) :
  0 <= n -> 2 ^ n <= x -> Zdigits2 (x / 2 ^ n) = Zdigits2 x - n.
Proof.
  intros Hn Hx.
  assert (Hpos : 0 < x) by (pose proof (Z.pow_pos_nonneg 2 n); lia).
  destruct (Zdigits2_bounds x Hpos) as [Hlo Hhi].
  pose proof (Zdigits2_gt x n Hn Hx) as Hd.
  apply Zdigits2_unique; [|lia]. split.
  - apply div_pow2_lower; [lia|lia|].
    replace (Zdigits2 x - n - 1 + n) with (Zdigits2 x - 1) by lia. exact Hlo.
  - apply div_pow2_upper; [lia|lia|].
    replace (Zdigits2 x - n + n) with (Zdigits2 x) by lia. exact Hhi.
Qed.

(** A carry to one more digit only happens at a power of two. *)
Lemma Zdigits2_succ (x : Z) :
  0 <= x ->
  Zdigits2 (x + 1) = Zdigits2 x \/
  (Zdigits2 (x + 1) = Zdigits2 x + 1 /\ x + 1 = 2 ^ Zdigits2 x).
Proof.
  intros Hx. destruct (Z.eq_dec x 0) as [->|Hnz]; [right; split; reflexivity|].
  destruct (Zdigits2_bounds x ltac:(lia)) as [Hlo Hhi].
  pose proof (Zdigits2_pos x ltac:(lia)) as Hd.
  destruct (Z.eq_dec (x + 1) (2 ^ Zdigits2 x)) as [Heq|Hne].
  - right. split; [|exact Heq]. rewrite Heq.
    apply Zdigits2_unique; [|lia].
    replace (Zdigits2 x + 1 - 1) with (Zdigits2 x) by lia.
    rewrite Z.pow_add_r, Z.pow_1_r by lia. lia.
  - left. apply Zdigits2_unique; lia.
Qed.

(* ---- canonical results ---- *)
Lemma bounded_spec (m : positive) (e : Z) :
  bounded Py.prec Py.emax m e = true <->
  Z.max (Zdigits2 (Zpos m) + e - 53) (-1074) = e /\ e <= 971.
Proof.
  unfold bounded, canonical_mantissa. rewrite andb_true_iff, Z.eqb_eq, Z.leb_le.
  cbn [Zdigits2]. rewrite fexp64_eq. reflexivity.
Qed.

(** After the first shift of an aligned input the significand fits the
    format at its exponent. *)
Lemma aligned_first_shift (mx ex : Z) :
  0 <= mx -> ex <= fexp64 (Zdigits2 mx + ex) ->
  let n := Z.max 0 (fexp64 (Zdigits2 mx + ex) - ex) in
  let m1 := mx / 2 ^ n in
  let e1 := ex + n in
  0 <= m1 /\ e1 = fexp64 (Zdigits2 mx + ex) /\
  fexp64 (Zdigits2 m1 + e1) = e1 /\
  (0 < m1 -> Zdigits2 m1 + e1 = Zdigits2 mx + ex).
Proof.
  intros Hmx Hal n m1 e1.
  assert (Hn : n = fexp64 (Zdigits2 mx + ex) - ex) by (unfold n; lia).
  assert (Hn0 : 0 <= n) by lia.
  assert (He1 : e1 = fexp64 (Zdigits2 mx + ex)) by (unfold e1; lia).
  pose proof (Z.pow_pos_nonneg 2 n ltac:(lia) Hn0) as Hp.
  assert (Hm1 : 0 <= m1) by (apply Z.div_pos; lia).
  split; [exact Hm1|]. split; [exact He1|].
  rewrite fexp64_eq in *.
  destruct (Z_le_gt_dec (2 ^ n) mx) as [Hbig|Hsmall].
  - assert (Hd : Zdigits2 m1 = Zdigits2 mx - n) by (apply Zdigits2_div_pow2; assumption).
    split; [|lia]. rewrite Hd. replace (Zdigits2 mx - n + e1) with (Zdigits2 mx + ex) by lia.
    lia.
  - assert (Hz : m1 = 0) by (apply Z.div_small; lia).
    split; [|lia]. rewrite Hz. cbn [Zdigits2].
    destruct (Z.eq_dec mx 0) as [->|Hnz]; [cbn [Zdigits2] in *; lia|].
    pose proof (Zdigits2_le mx n ltac:(lia) ltac:(lia)). lia.
Qed.

Lemma binary_round_aux_canonical (s : bool) (mx ex : Z) (lx : location) :
  0 <= mx -> ex <= fexp64 (Zdigits2 mx + ex) ->
  finite_float (binary_round_aux Py.prec Py.emax s mx ex lx) \/
  exists s', binary_round_aux Py.prec Py.emax s mx ex lx = S754_infinity s'.
Proof.
  intros Hmx Hal.
  destruct (binary_round_aux_anatomy s mx ex lx Hmx) as (m2 & Hb & _ & Heq).
  destruct (aligned_first_shift mx ex Hmx Hal) as (Hm1 & _ & Hcan & _).
  cbv zeta in Heq, Hcan. rewrite Heq. clear Heq.
  set (n := Z.max 0 (fexp64 (Zdigits2 mx + ex) - ex)) in *.
  set (m1 := mx / 2 ^ n) in *.
  set (e1 := ex + n) in *.
  set (n2 := Z.max 0 (fexp64 (Zdigits2 m2 + e1) - e1)) in *.
  assert (Hn2_def : n2 = Z.max 0 (fexp64 (Zdigits2 m2 + e1) - e1)) by reflexivity.
  assert (Hn2 : 0 <= n2) by lia.
  clearbody n2 e1 m1 n.
  destruct (m2 / 2 ^ n2) as [|q|q] eqn:Hq; [left; exact I| |].
  2:{ exfalso. pose proof (Z.pow_pos_nonneg 2 n2 ltac:(lia) Hn2).
      pose proof (Z.div_pos m2 (2 ^ n2) ltac:(lia) ltac:(lia)). lia. }
  destruct (e1 + n2 <=? Py.emax - Py.prec) eqn:Hle; [left|right; eauto].
  apply Z.leb_le in Hle. unfold Py.emax, Py.prec in Hle.
  cbn [finite_float]. apply bounded_spec. split; [|lia].
  rewrite fexp64_eq in *.
  (* the digits of [m2] against those of [m1] *)
  assert (Hd2 : Zdigits2 m2 = Zdigits2 m1 \/
                (Zdigits2 m2 = Zdigits2 m1 + 1 /\ m2 = 2 ^ Zdigits2 m1)).
  { destruct (Z.eq_dec m2 m1) as [->|Hne]; [now left|].
    replace m2 with (m1 + 1) by lia. apply Zdigits2_succ. exact Hm1. }
  pose proof (Zdigits2_nonneg m1) as Hd1.
  destruct Hd2 as [Hd2|[Hd2 Hpow]].
  - assert (Hz : n2 = 0) by lia. rewrite Hz, Z.pow_0_r, Z.div_1_r in Hq.
    rewrite <- Hq, Hd2. lia.
  - destruct (Z_le_gt_dec (-1074) (Zdigits2 m1 + e1 - 53)) as [Hnorm|Hsub].
    + assert (H53 : Zdigits2 m1 = 53) by lia. assert (Hone : n2 = 1) by lia.
      assert (Hq' : Zpos q = 2 ^ 52).
      { rewrite <- Hq, Hpow, H53, Hone. reflexivity. }
      rewrite Hq'. change (Zdigits2 (2 ^ 52)) with 53. lia.
    + assert (Hz : n2 = 0) by lia. rewrite Hz, Z.pow_0_r, Z.div_1_r in Hq.
      rewrite <- Hq, Hd2. lia.
Qed.

(** An aligned input overflows only from [2^1023] on. *)
Lemma binary_round_aux_overflow (s : bool) (mx ex : Z) (lx : location) s' :
  0 <= mx -> ex <= fexp64 (Zdigits2 mx + ex) ->
  binary_round_aux Py.prec Py.emax s mx ex lx = S754_infinity s' ->
  (bpow 1023 <= F2Q mx ex)%Q.
Proof.
  intros Hmx Hal H.
  destruct (binary_round_aux_anatomy s mx ex lx Hmx) as (m2 & Hb & _ & Heq).
  destruct (aligned_first_shift mx ex Hmx Hal) as (Hm1 & He1 & Hcan & Hsum).
  cbv zeta in Heq, Hcan, He1, Hsum. rewrite Heq in H. clear Heq.
  set (n := Z.max 0 (fexp64 (Zdigits2 mx + ex) - ex)) in *.
  set (m1 := mx / 2 ^ n) in *.
  set (e1 := ex + n) in *.
  set (n2 := Z.max 0 (fexp64 (Zdigits2 m2 + e1) - e1)) in *.
  assert (Hn2_def : n2 = Z.max 0 (fexp64 (Zdigits2 m2 + e1) - e1)) by reflexivity.
  assert (Hm1_def : m1 = mx / 2 ^ n) by reflexivity.
  assert (Hn0 : 0 <= n) by (unfold n; lia).
  assert (Hn2 : 0 <= n2) by lia.
  clearbody n2 e1 m1 n.
  destruct (m2 / 2 ^ n2) as [|q|q] eqn:Hq; try discriminate.
  destruct (e1 + n2 <=? Py.emax - Py.prec) eqn:Hle; [discriminate|].
  apply Z.leb_gt in Hle. unfold Py.emax, Py.prec in Hle.
  rewrite fexp64_eq in *.
  assert (Hd2 : Zdigits2 m2 <= Zdigits2 m1 + 1).
  { destruct (Z.eq_dec m2 m1) as [->|Hne]; [lia|].
    replace m2 with (m1 + 1) by lia. destruct (Zdigits2_succ m1 Hm1); lia. }
  pose proof (Zdigits2_nonneg m1) as Hd1.
  assert (He1big : 971 <= e1) by lia.
  assert (Hm1pos : 0 < m1).
  { destruct (Z.eq_dec m1 0) as [Hz|]; [|lia]. rewrite Hz in *. cbn [Zdigits2] in *. lia. }
  specialize (Hsum Hm1pos).
  assert (Hmxpos : 0 < mx).
  { destruct (Z.eq_dec mx 0) as [Hz|]; [|lia]. rewrite Hz, Z.div_0_l in Hm1_def; [lia|].
    pose proof (Z.pow_pos_nonneg 2 n). lia. }
  destruct (Zdigits2_bounds mx Hmxpos) as [Hlo _].
  pose proof (Zdigits2_pos mx Hmxpos) as Hdpos.
  eapply Qle_trans; [|apply (F2Q_le (2 ^ (Zdigits2 mx - 1)) mx ex Hlo)].
  unfold F2Q. rewrite <- bpow_inject, <- bpow_add by lia. apply bpow_le. lia.
Qed.

Lemma nonneg_float_range (f : Py.float) :
  nonneg_float f -> (0 <= fval f /\ fval f <= bpow 1024)%Q.
Proof.
  destruct f as [[|]|[|]| |[|] m e]; cbn [nonneg_float fval]; try tauto; intros H.
  - split; [lra | pose proof (bpow_pos 1024); lra].
  - apply bounded_spec in H. destruct H as [Hc He].
    assert (Hm : Zpos m < 2 ^ 53).
    { destruct (Zdigits2_bounds (Zpos m) ltac:(lia)) as [_ Hhi].
      eapply Z.lt_le_trans; [exact Hhi|]. apply Z.pow_le_mono_r; lia. }
    split; [apply F2Q_nonneg; lia|].
    eapply Qle_trans; [apply (F2Q_le _ (2 ^ 53)); lia|].
    unfold F2Q. rewrite <- (bpow_inject 53), <- bpow_add by lia.
    apply bpow_le. lia.
Qed.

Lemma Zpos_iter_xO (p d : positive) :
  Zpos (Pos.iter xO p d) = Zpos p * 2 ^ Zpos d.
Proof.
  induction d as [|d IH] using Pos.peano_ind.
  - cbn [Pos.iter]. rewrite (Pos2Z.inj_xO p). rewrite Z.pow_1_r. lia.
  - rewrite Pos.iter_succ, (Pos2Z.inj_xO (Pos.iter xO p d)), IH, Pos2Z.inj_succ.
    rewrite Z.pow_succ_r by lia. lia.
Qed.

Lemma shl_align_value (mx : positive) (ex ex' : Z) :
  (F2Q (Zpos (fst (shl_align mx ex ex'))) (snd (shl_align mx ex ex')) == F2Q (Zpos mx) ex)%Q.
Proof.
  unfold shl_align. destruct (ex' - ex) as [|d|d] eqn:Hd; cbn [fst snd]; try reflexivity.
  rewrite Zpos_iter_xO, F2Q_shift by lia.
  replace (ex' + Zpos d) with ex by lia. reflexivity.
Qed.

Lemma shl_align_aligned (mx : positive) (ex : Z) :
  snd (shl_align mx ex (fexp64 (Zpos (digits2_pos mx) + ex)))
  <= fexp64 (Zdigits2 (Zpos (fst (shl_align mx ex (fexp64 (Zpos (digits2_pos mx) + ex)))))
             + snd (shl_align mx ex (fexp64 (Zpos (digits2_pos mx) + ex)))).
Proof.
  unfold shl_align. change (Zpos (digits2_pos mx)) with (Zdigits2 (Zpos mx)).
  set (E := fexp64 (Zdigits2 (Zpos mx) + ex)).
  destruct (E - ex) as [|d|d] eqn:Hd; cbn [fst snd]; fold E; try lia.
  rewrite Zpos_iter_xO, Zdigits2_mul_pow2 by lia.
  replace (Zdigits2 (Zpos mx) + Zpos d + E) with (Zdigits2 (Zpos mx) + ex) by lia.
  fold E. lia.
Qed.

Lemma float_of_int_pos (w : Z) (f : Py.float) :
  0 < w -> Py.float_of_int w = ok f ->
  nonneg_float f /\ (fval f <= inject_Z w * (1 + bpow (-52)))%Q.
Proof.
  intros Hw H. unfold Py.float_of_int in H.
  destruct w as [|p|p]; try lia. cbn [binary_normalize] in H.
  unfold binary_round in H.
  pose proof (shl_align_value p 0 (fexp64 (Zpos (digits2_pos p) + 0))) as Hv.
  pose proof (shl_align_aligned p 0) as Hal.
  destruct (shl_align p 0 (fexp64 (Zpos (digits2_pos p) + 0))) as [mz ez].
  cbn [fst snd] in Hv, Hal.
  pose proof (binary_round_aux_canonical false (Zpos mz) ez loc_Exact
                (Pos2Z.is_nonneg mz) Hal) as Hcan.
  pose proof (binary_round_aux_sign false (Zpos mz) ez loc_Exact (Pos2Z.is_nonneg mz)) as Hsg.
  destruct (binary_round_aux Py.prec Py.emax false (Zpos mz) ez loc_Exact) as [sz|sz| |sz m e] eqn:Hr;
    try discriminate; try contradiction; inversion H; subst f sz; clear H.
  - cbn [nonneg_float fval]. split; [exact I|].
    assert (0 <= inject_Z (Zpos p))%Q by (change 0%Q with (inject_Z 0); rewrite <- Zle_Qle; lia).
    pose proof (bpow_pos (-52)) as Hb. clear - H Hb. nra.
  - split; [destruct Hcan as [Hcan|[? Hcan]]; [exact Hcan | discriminate]|]. cbn [fval].
    assert (Hone : (1 <= inject_Z (Zpos p))%Q)
      by (change 1%Q with (inject_Z 1); rewrite <- Zle_Qle; lia).
    assert (Hval : (F2Q (Zpos mz) ez == inject_Z (Zpos p))%Q).
    { rewrite Hv. unfold F2Q. change (bpow 0) with 1%Q. ring. }
    destruct (binary_round_aux_upper _ _ _ _ _ _ _ (Pos2Z.is_nonneg mz) (or_introl eq_refl) Hr) as [Hu|Hu].
    + rewrite Hval in Hu. exact Hu.
    + eapply Qle_trans; [exact Hu|].
      assert (bpow (-1022) <= bpow 0)%Q by (apply bpow_le; lia).
      change (bpow 0) with 1%Q in *. pose proof (bpow_pos (-52)) as Hb.
      clear - Hone H Hb. nra.
Qed.

Lemma fexp64_mono (x y : Z) : x <= y -> fexp64 x <= fexp64 y.
Proof. rewrite !fexp64_eq. lia. Qed.

(** The quotient that [SFdiv] hands to the rounding: a lower
    approximation of [m1 / m2] with enough significant bits. *)
Lemma SFdiv_core_binary_int (m1 m2 : positive) :
  let '(q, e', _) := SFdiv_core_binary Py.prec Py.emax (Zpos m1) 0 (Zpos m2) 0 in
  0 <= q /\ e' <= fexp64 (Zdigits2 q + e') /\
  (F2Q q e' * inject_Z (Zpos m2) <= inject_Z (Zpos m1))%Q.
Proof.
  unfold SFdiv_core_binary.
  set (d1 := Zdigits2 (Zpos m1)). set (d2 := Zdigits2 (Zpos m2)).
  rewrite !Z.add_0_r, !Z.sub_0_r, Z.sub_0_l.
  set (e' := Z.min (fexp64 (d1 - d2)) 0).
  assert (He' : e' <= 0) by (unfold e'; lia).
  set (m' := match - e' with Z0 => Zpos m1 | Zpos _ => Z.shiftl (Zpos m1) (- e') | Zneg _ => 0 end).
  assert (Hm' : m' = Zpos m1 * 2 ^ (- e')).
  { unfold m'. remember (- e') as k eqn:Hk. destruct k as [|k|k]; try lia.
    apply Z.shiftl_mul_pow2. lia. }
  clearbody m'.
  pose proof (Z_div_mod m' (Zpos m2) ltac:(lia)) as Hdm.
  destruct (Z.div_eucl m' (Zpos m2)) as [q r]. destruct Hdm as [Hdm Hr].
  pose proof (Z.pow_pos_nonneg 2 (- e') ltac:(lia)) as Hp.
  assert (Hq : 0 <= q) by nia.
  split; [exact Hq|]. split.
  - apply Z.le_trans with (fexp64 (d1 - d2)); [unfold e'; lia|].
    apply fexp64_mono.
    destruct (Z_le_gt_dec (d1 - d2 - e') 0) as [Hs|Hs].
    { pose proof (Zdigits2_nonneg q). lia. }
    enough (d1 - d2 - e' - 1 < Zdigits2 q) by lia.
    apply Zdigits2_gt; [lia|].
    destruct (Zdigits2_bounds (Zpos m1) ltac:(lia)) as [Hlo1 _].
    destruct (Zdigits2_bounds (Zpos m2) ltac:(lia)) as [_ Hhi2].
    fold d1 in Hlo1. fold d2 in Hhi2.
    pose proof (Zdigits2_pos (Zpos m1) ltac:(lia)) as Hd1. fold d1 in Hd1.
    pose proof (Zdigits2_pos (Zpos m2) ltac:(lia)) as Hd2. fold d2 in Hd2.
    assert (Hpow : 2 ^ (d1 - d2 - e' - 1) * 2 ^ d2 = 2 ^ (d1 - 1) * 2 ^ (- e')).
    { rewrite <- !Z.pow_add_r by lia. f_equal. lia. }
    pose proof (Z.pow_pos_nonneg 2 (d1 - d2 - e' - 1) ltac:(lia)) as Hpk.
    destruct (Z_le_gt_dec (2 ^ (d1 - d2 - e' - 1)) q) as [|Hlt]; [assumption|exfalso].
    assert (q + 1 <= 2 ^ (d1 - d2 - e' - 1)) by lia.
    assert (m' < (q + 1) * Zpos m2) by lia.
    assert ((q + 1) * Zpos m2 <= 2 ^ (d1 - d2 - e' - 1) * 2 ^ d2) by nia.
    nia.
  - assert (Hle : q * Zpos m2 <= Zpos m1 * 2 ^ (- e')) by lia.
    rewrite Zle_Qle, !inject_Z_mult in Hle.
    rewrite <- (bpow_inject (- e')) in Hle by lia.
    assert (Hone : (bpow (- e') * bpow e' == 1)%Q).
    { rewrite <- bpow_add. replace (- e' + e') with 0 by lia. reflexivity. }
    unfold F2Q. pose proof (bpow_pos e') as Hb.
    set (Q1 := inject_Z (Zpos m1)) in *. set (Q2 := inject_Z (Zpos m2)) in *.
    set (Qq := inject_Z q) in *. clearbody Q1 Q2 Qq.
    assert (Hmul : (Qq * Q2 * bpow e' <= Q1 * bpow (- e') * bpow e')%Q).
    { apply Qmult_le_compat_r; [exact Hle | lra]. }
    assert (E : (Q1 * bpow (- e') * bpow e' == Q1)%Q).
    { rewrite <- Qmult_assoc, Hone. ring. }
    rewrite E in Hmul. lra.
Qed.

Lemma int_truediv_pos (a b : Z) (f : Py.float) :
  0 < a -> 0 < b -> Py.int_truediv a b = ok f ->
  nonneg_float f /\
  (fval f * inject_Z b <= inject_Z a * (1 + bpow (-52)) \/ fval f <= bpow (-1022))%Q.
Proof.
  intros Ha Hb H. unfold Py.int_truediv in H.
  destruct (Z.eqb_spec b 0) as [|_]; [lia|].
  destruct a as [|pa|pa]; try lia. destruct b as [|pb|pb]; try lia.
  cbn [Py.raw_of_int SFdiv xorb] in H.
  pose proof (SFdiv_core_binary_int pa pb) as Hc.
  destruct (SFdiv_core_binary Py.prec Py.emax (Zpos pa) 0 (Zpos pb) 0) as [[q e'] l].
  destruct Hc as (Hq & Hfe & Hv).
  pose proof (binary_round_aux_sign false q e' l Hq) as Hsg.
  pose proof (binary_round_aux_canonical false q e' l Hq Hfe) as Hcan.
  assert (Hqa : (0 <= inject_Z (Zpos pa))%Q)
    by (change 0%Q with (inject_Z 0); rewrite <- Zle_Qle; lia).
  assert (Hqb : (0 < inject_Z (Zpos pb))%Q)
    by (change 0%Q with (inject_Z 0); rewrite <- Zlt_Qlt; lia).
  pose proof (bpow_pos (-52)) as Hu.
  destruct (binary_round_aux Py.prec Py.emax false q e' l) as [sz|sz| |sz m e] eqn:Hr;
    try discriminate; try contradiction; inversion H; subst f sz; clear H.
  - cbn [nonneg_float fval]. split; [exact I|]. left.
    set (A := inject_Z (Zpos pa)) in *. set (B := inject_Z (Zpos pb)) in *.
    clearbody A B. nra.
  - split; [destruct Hcan as [Hcan|[? Hcan]]; [exact Hcan | discriminate]|]. cbn [fval].
    destruct (binary_round_aux_upper _ _ _ _ _ _ _ Hq (or_intror Hfe) Hr) as [Hup|Hup];
      [left|right; exact Hup].
    set (A := inject_Z (Zpos pa)) in *. set (B := inject_Z (Zpos pb)) in *.
    set (R := F2Q (Zpos m) e) in *. set (X := F2Q q e') in *.
    clearbody A B R X.
    assert (R * B <= X * (1 + bpow (-52)) * B)%Q by (apply Qmult_le_compat_r; lra).
    nra.
Qed.

Lemma F2Q_mul (m1 e1 m2 e2 : Z) :
  (F2Q (m1 * m2) (e1 + e2) == F2Q m1 e1 * F2Q m2 e2)%Q.
Proof. unfold F2Q. rewrite inject_Z_mult, bpow_add. ring. Qed.

(** The exact product of two numbers of the format is aligned. *)
Lemma mul_aligned (mx : positive) (ex : Z) (my : positive) (ey : Z) :
  bounded Py.prec Py.emax mx ex = true -> bounded Py.prec Py.emax my ey = true ->
  ex + ey <= fexp64 (Zdigits2 (Zpos (mx * my)) + (ex + ey)).
Proof.
  rewrite !bounded_spec, fexp64_eq. intros [Hx _] [Hy _].
  pose proof (Zdigits2_pos (Zpos mx) ltac:(lia)) as Hdx.
  pose proof (Zdigits2_pos (Zpos my) ltac:(lia)) as Hdy.
  destruct (Zdigits2_bounds (Zpos mx) ltac:(lia)) as [Hlx _].
  destruct (Zdigits2_bounds (Zpos my) ltac:(lia)) as [Hly _].
  assert (Hd : Zdigits2 (Zpos mx) + Zdigits2 (Zpos my) - 2 < Zdigits2 (Zpos (mx * my))).
  { apply Zdigits2_gt; [lia|]. rewrite Pos2Z.inj_mul.
    replace (Zdigits2 (Zpos mx) + Zdigits2 (Zpos my) - 2)
      with ((Zdigits2 (Zpos mx) - 1) + (Zdigits2 (Zpos my) - 1)) by lia.
    rewrite Z.pow_add_r by lia.
    pose proof (Z.pow_pos_nonneg 2 (Zdigits2 (Zpos mx) - 1)).
    pose proof (Z.pow_pos_nonneg 2 (Zdigits2 (Zpos my) - 1)). nia. }
  lia.
Qed.

(** The product of two non-negative floats, when it does not overflow. *)
Lemma float_mul_nonneg (x y : Py.float) :
  nonneg_float x -> nonneg_float y ->
  match Py.float_mul x y with
  | S754_infinity _ => True
  | f => nonneg_float f /\
         (fval f <= fval x * fval y * (1 + bpow (-52)) \/ fval f <= bpow (-1022))%Q
  end.
Proof.
  intros Hx Hy.
  pose proof (nonneg_float_range x Hx) as [Hx0 _].
  pose proof (nonneg_float_range y Hy) as [Hy0 _].
  pose proof (bpow_pos (-52)) as Hu.
  assert (Hz : (0 <= fval x * fval y * (1 + bpow (-52)))%Q).
  { apply Qmult_le_0_compat; [apply Qmult_le_0_compat; assumption | lra]. }
  destruct x as [[|]|[|]| |[|] mx ex]; cbn [nonneg_float] in Hx; try contradiction;
  destruct y as [[|]|[|]| |[|] my ey]; cbn [nonneg_float] in Hy; try contradiction;
  cbn [Py.float_mul SFmul xorb].
  1-3: split; [exact I | left; exact Hz].
  pose proof (binary_round_aux_sign false (Zpos (mx * my)) (ex + ey) loc_Exact
                (Pos2Z.is_nonneg _)) as Hsg.
  pose proof (binary_round_aux_canonical false (Zpos (mx * my)) (ex + ey) loc_Exact
                (Pos2Z.is_nonneg _) (mul_aligned mx ex my ey Hx Hy)) as Hcan.
  destruct (binary_round_aux Py.prec Py.emax false (Zpos (mx * my)) (ex + ey) loc_Exact)
    as [sz|sz| |sz m e] eqn:Hr; try contradiction; subst sz; [| exact I |].
  - split; [exact I | left; exact Hz].
  - split; [destruct Hcan as [Hcan|[? Hcan]]; [exact Hcan | discriminate]|].
    destruct (binary_round_aux_upper _ _ _ _ _ _ _ (Pos2Z.is_nonneg _) (or_introl eq_refl) Hr)
      as [Hup|Hup]; [left|right; exact Hup].
    cbn [fval]. rewrite Pos2Z.inj_mul, F2Q_mul in Hup. exact Hup.
Qed.

(** Truncating a finite float: the magnitude is rounded down, the sign
    is kept. *)
Lemma int_of_float_magnitude (m : positive) (e : Z) :
  exists a,
    (forall s, Py.int_of_float (S754_finite s m e) = ok (if s then - a else a)) /\
    0 <= a /\
    (inject_Z a <= F2Q (Zpos m) e /\ F2Q (Zpos m) e < inject_Z a + 1)%Q.
Proof.
  cbn [Py.int_of_float]. destruct e as [|k|k].
  - exists (Zpos m). split; [reflexivity|]. split; [lia|].
    unfold F2Q. change (bpow 0) with 1%Q.
    set (M := inject_Z (Zpos m)). clearbody M. split; lra.
  - exists (Zpos m * 2 ^ Zpos k). split; [reflexivity|].
    pose proof (Z.pow_pos_nonneg 2 (Zpos k) ltac:(lia)). split; [nia|].
    unfold F2Q. rewrite inject_Z_mult, (bpow_inject (Zpos k)) by lia.
    set (M := (inject_Z (Zpos m) * inject_Z (2 ^ Zpos k))%Q). clearbody M. split; lra.
  - exists (Zpos m / 2 ^ (- Zneg k)). split; [reflexivity|].
    change (- Zneg k) with (Zpos k).
    pose proof (Z.pow_pos_nonneg 2 (Zpos k) ltac:(lia)) as Hp.
    pose proof (Z_div_mod (Zpos m) (2 ^ Zpos k) ltac:(lia)) as Hdm.
    unfold Z.div. destruct (Z.div_eucl (Zpos m) (2 ^ Zpos k)) as [q r].
    destruct Hdm as [Hdm Hr]. assert (Hq : 0 <= q) by nia.
    split; [exact Hq|].
    assert (Hone : (bpow (Zpos k) * bpow (Zneg k) == 1)%Q).
    { rewrite <- bpow_add. replace (Zpos k + Zneg k) with 0 by lia. reflexivity. }
    rewrite (bpow_inject (Zpos k)) in Hone by lia.
    assert (H1 : (inject_Z q * inject_Z (2 ^ Zpos k) <= inject_Z (Zpos m))%Q).
    { rewrite <- inject_Z_mult, <- Zle_Qle. lia. }
    assert (H2 : (inject_Z (Zpos m) < (inject_Z q + 1) * inject_Z (2 ^ Zpos k))%Q).
    { change 1%Q with (inject_Z 1). rewrite <- inject_Z_plus, <- inject_Z_mult, <- Zlt_Qlt. lia. }
    unfold F2Q. pose proof (bpow_pos (Zneg k)) as Hb.
    set (M := inject_Z (Zpos m)) in *. set (P := inject_Z (2 ^ Zpos k)) in *.
    set (B := bpow (Zneg k)) in *. set (Qq := inject_Z q) in *.
    clearbody M P B Qq.
    assert (H1' : (Qq * P * B <= M * B)%Q) by (apply Qmult_le_compat_r; lra).
    assert (H2' : (M * B < (Qq + 1) * P * B)%Q) by (apply Qmult_lt_compat_r; lra).
    assert (E1 : (Qq * P * B == Qq)%Q) by (rewrite <- Qmult_assoc, Hone; ring).
    assert (E2 : ((Qq + 1) * P * B == Qq + 1)%Q) by (rewrite <- Qmult_assoc, Hone; ring).
    rewrite E1 in H1'. rewrite E2 in H2'. split; lra.
Qed.

(** Truncating a non-negative float. *)
Lemma int_of_float_nonneg (f : Py.float) :
  nonneg_float f ->
  exists z, Py.int_of_float f = ok z /\ 0 <= z /\
            (inject_Z z <= fval f /\ fval f < inject_Z z + 1)%Q.
Proof.
  destruct f as [[|]|[|]| |[|] m e]; cbn [nonneg_float]; try contradiction; intros H.
  - exists 0. cbn [Py.int_of_float fval]. split; [reflexivity|]. split; [lia|].
    change (inject_Z 0) with 0%Q. split; lra.
  - destruct (int_of_float_magnitude m e) as (a & Ha & Ha0 & Hav).
    exists a. split; [exact (Ha false)|]. split; [exact Ha0 | exact Hav].
Qed.

(** [int(y * (c / x))] for positive ints: the result is non-negative
    and, unless it is tiny, at most a thousandth above [c * y / x]. *)
Lemma scaled_bound (c x y z : Z) :
  0 < c -> 0 < x -> 0 < y ->
  (let! ratio := Py.int_truediv c x in
   let! scaled := Py.int_mul_float y ratio in
   Py.int_of_float scaled) = ok z ->
  0 <= z /\ (z <= 4 \/ 1000 * (z * x) <= 1001 * (c * y)).
Proof.
  intros Hc Hx Hy H.
  destruct (Py.int_truediv c x) as [?|ratio] eqn:Hdiv; [discriminate|].
  cbn [rbind] in H. unfold Py.int_mul_float in H.
  destruct (Py.float_of_int y) as [?|yf] eqn:Hyf; [discriminate|].
  cbn [rbind ok] in H.
  destruct (int_truediv_pos c x ratio Hc Hx Hdiv) as [Hnr Hr].
  destruct (float_of_int_pos y yf Hy Hyf) as [Hny Hyb].
  pose proof (float_mul_nonneg yf ratio Hny Hnr) as Hmul.
  destruct (nonneg_float_range _ Hnr) as [Hr0 _].
  destruct (nonneg_float_range _ Hny) as [Hy0 Hy1].
  set (s := Py.float_mul yf ratio) in *.
  assert (Hs : nonneg_float s /\
               (fval s <= fval yf * fval ratio * (1 + bpow (-52)) \/ fval s <= bpow (-1022))%Q).
  { destruct s as [ | | | ]; try exact Hmul. discriminate H. }
  clear Hmul. destruct Hs as [Hns Hsb]. clearbody s.
  destruct (int_of_float_nonneg s Hns) as (z' & Hz' & Hz0 & Hzl & _).
  rewrite Hz' in H. inversion H; subst z'. clear H Hz'.
  split; [exact Hz0|].
  (* the constants *)
  assert (Hu0 : (0 < bpow (-52))%Q) by apply bpow_pos.
  assert (Hu : (bpow (-52) <= 1 # 4096)%Q).
  { eapply Qle_trans; [apply (bpow_le (-52) (-12)); lia|]. apply Qle_lteq; right; reflexivity. }
  assert (Htiny : (bpow (-1022) <= 1 # 2)%Q).
  { eapply Qle_trans; [apply (bpow_le (-1022) (-1)); lia|]. apply Qle_lteq; right; reflexivity. }
  assert (Hfour : (bpow 1024 * bpow (-1022) == 4)%Q).
  { rewrite <- bpow_add. reflexivity. }
  assert (Hqx : (0 < inject_Z x)%Q) by (change 0%Q with (inject_Z 0); rewrite <- Zlt_Qlt; lia).
  assert (Hqy : (0 < inject_Z y)%Q) by (change 0%Q with (inject_Z 0); rewrite <- Zlt_Qlt; lia).
  assert (Hqc : (0 < inject_Z c)%Q) by (change 0%Q with (inject_Z 0); rewrite <- Zlt_Qlt; lia).
  assert (Hqz : (0 <= inject_Z z)%Q) by (change 0%Q with (inject_Z 0); rewrite <- Zle_Qle; lia).
  assert (Hsmall : forall k : Z, (fval s < inject_Z k)%Q -> z <= k - 1).
  { intros k Hk. assert (inject_Z z < inject_Z k)%Q by lra. rewrite <- Zlt_Qlt in H. lia. }
  set (U := bpow (-52)) in *. set (T := bpow (-1022)) in *. set (B := bpow 1024) in *.
  set (S := fval s) in *. set (A := fval ratio) in *. set (Y := fval yf) in *.
  set (qx := inject_Z x) in *. set (qy := inject_Z y) in *.
  set (qc := inject_Z c) in *. set (qz := inject_Z z) in *.
  destruct Hsb as [Hsb|Hsb].
  2:{ left. apply (Hsmall 5). change (inject_Z 5) with 5%Q. lra. }
  destruct Hr as [Hr|Hr].
  2:{ left. apply (Hsmall 5). change (inject_Z 5) with 5%Q.
      assert (Y * A <= B * T)%Q.
      { eapply Qle_trans; [apply Qmult_le_compat_r; [exact Hy1 | exact Hr0]|].
        rewrite (Qmult_comm B A), (Qmult_comm B T).
        apply Qmult_le_compat_r; [exact Hr|]. unfold B. apply Qlt_le_weak, bpow_pos. }
      rewrite Hfour in H. clearbody U T B S A Y qx qy qc qz. nra. }
  right.
  assert (H1 : (Y * A <= qy * (1 + U) * A)%Q) by (apply Qmult_le_compat_r; assumption).
  assert (H2 : (S <= qy * (1 + U) * A * (1 + U))%Q).
  { eapply Qle_trans; [exact Hsb|]. apply Qmult_le_compat_r; [exact H1 | lra]. }
  assert (H3 : (qz * qx <= qy * (1 + U) * A * (1 + U) * qx)%Q).
  { apply Qmult_le_compat_r; lra. }
  assert (H4 : (qy * (1 + U) * A * (1 + U) * qx == qy * ((1 + U) * (1 + U)) * (A * qx))%Q) by ring.
  assert (H5 : (qy * ((1 + U) * (1 + U)) * (A * qx) <= qy * ((1 + U) * (1 + U)) * (qc * (1 + U)))%Q).
  { rewrite !(Qmult_comm (qy * ((1 + U) * (1 + U)))).
    apply Qmult_le_compat_r; [exact Hr|].
    apply Qmult_le_0_compat; [lra|]. apply Qmult_le_0_compat; lra. }
  assert (H6 : ((1 + U) * (1 + U) * (1 + U) <= 1001 # 1000)%Q).
  { clearbody U. clear - Hu0 Hu. nra. }
  assert (H7 : (qz * qx <= (qc * qy) * ((1 + U) * (1 + U) * (1 + U)))%Q).
  { rewrite H4 in H3. eapply Qle_trans; [exact H3|]. eapply Qle_trans; [exact H5|].
    apply Qle_lteq; right; ring. }
  assert (H8 : (qz * qx <= (qc * qy) * (1001 # 1000))%Q).
  { eapply Qle_trans; [exact H7|]. rewrite !(Qmult_comm (qc * qy)).
    apply Qmult_le_compat_r; [exact H6|]. apply Qmult_le_0_compat; lra. }
  assert (H9 : (inject_Z (1000 * (z * x)) <= inject_Z (1001 * (c * y)))%Q).
  { rewrite !inject_Z_mult. fold qx qy qz qc.
    change (inject_Z 1000) with 1000%Q. change (inject_Z 1001) with 1001%Q.
    clearbody qx qy qz qc. clear - H8. lra. }
  rewrite <- Zle_Qle in H9. exact H9.
Qed.


(* ---- when the operations return ---- *)

Lemma inject_Z_lt_bpow (w k : Z) : 0 <= k -> w < 2 ^ k -> (inject_Z w < bpow k)%Q.
Proof. intros Hk Hw. rewrite bpow_inject by assumption. now rewrite <- Zlt_Qlt. Qed.

Lemma float_of_int_total (w : Z) :
  0 < w < 2 ^ 1023 -> exists f, Py.float_of_int w = ok f.
Proof.
  intros [Hw Hbig]. unfold Py.float_of_int.
  destruct w as [|p|p]; try lia. cbn [binary_normalize]. unfold binary_round.
  pose proof (shl_align_value p 0 (fexp64 (Zpos (digits2_pos p) + 0))) as Hv.
  pose proof (shl_align_aligned p 0) as Hal.
  destruct (shl_align p 0 (fexp64 (Zpos (digits2_pos p) + 0))) as [mz ez].
  cbn [fst snd] in Hv, Hal.
  destruct (binary_round_aux Py.prec Py.emax false (Zpos mz) ez loc_Exact) as [sz|sz| |sz m e] eqn:Hr;
    eauto.
  exfalso.
  pose proof (binary_round_aux_overflow _ _ _ _ _ (Pos2Z.is_nonneg mz) Hal Hr) as Hov.
  rewrite Hv in Hov. unfold F2Q in Hov. change (bpow 0) with 1%Q in Hov.
  pose proof (inject_Z_lt_bpow (Zpos p) 1023 ltac:(lia) Hbig).
  set (W := inject_Z (Zpos p)) in *. clearbody W. lra.
Qed.

Lemma int_truediv_total (a b : Z) :
  0 < a < 2 ^ 1023 -> 0 < b -> exists f, Py.int_truediv a b = ok f.
Proof.
  intros [Ha Hbig] Hb. unfold Py.int_truediv.
  destruct (Z.eqb_spec b 0) as [|_]; [lia|].
  destruct a as [|pa|pa]; try lia. destruct b as [|pb|pb]; try lia.
  cbn [Py.raw_of_int SFdiv xorb].
  pose proof (SFdiv_core_binary_int pa pb) as Hc.
  destruct (SFdiv_core_binary Py.prec Py.emax (Zpos pa) 0 (Zpos pb) 0) as [[q e'] l].
  destruct Hc as (Hq & Hfe & Hv).
  destruct (binary_round_aux Py.prec Py.emax false q e' l) as [sz|sz| |sz m e] eqn:Hr; eauto.
  exfalso.
  pose proof (binary_round_aux_overflow _ _ _ _ _ Hq Hfe Hr) as Hov.
  pose proof (inject_Z_lt_bpow (Zpos pa) 1023 ltac:(lia) Hbig) as Hlt.
  assert (Hone : (1 <= inject_Z (Zpos pb))%Q)
    by (change 1%Q with (inject_Z 1); rewrite <- Zle_Qle; lia).
  pose proof (F2Q_nonneg q e' Hq) as Hnn.
  set (A := inject_Z (Zpos pa)) in *. set (B := inject_Z (Zpos pb)) in *.
  set (X := F2Q q e') in *. set (T := bpow 1023) in *. clearbody A B X T.
  assert (X * 1 <= X * B)%Q by (rewrite !(Qmult_comm X); apply Qmult_le_compat_r; lra).
  lra.
Qed.

(** A product of non-negative floats below [2^1023] does not overflow. *)
Lemma float_mul_finite (x y : Py.float) :
  nonneg_float x -> nonneg_float y ->
  (fval x * fval y < bpow 1023)%Q ->
  nonneg_float (Py.float_mul x y).
Proof.
  intros Hx Hy Hlt. pose proof (float_mul_nonneg x y Hx Hy) as H.
  destruct (Py.float_mul x y) as [sz|sz| |sz m e] eqn:Hm;
    [exact (proj1 H) | exfalso | exact (proj1 H) | exact (proj1 H)].
  destruct x as [[|]|[|]| |[|] mx ex]; cbn [nonneg_float] in Hx; try contradiction;
  destruct y as [[|]|[|]| |[|] my ey]; cbn [nonneg_float] in Hy; try contradiction;
  cbn [Py.float_mul SFmul xorb] in Hm; try discriminate.
  pose proof (binary_round_aux_overflow _ _ _ _ _ (Pos2Z.is_nonneg _)
                (mul_aligned mx ex my ey Hx Hy) Hm) as Hov.
  rewrite Pos2Z.inj_mul, F2Q_mul in Hov. cbn [fval] in Hlt. lra.
Qed.

(** [int(y * (c / x))] returns for positive ints of any realistic
    size. *)
Lemma scaled_total (c x y : Z) :
  0 < c < 2 ^ 20 -> 0 < x -> 0 < y < 2 ^ 1000 ->
  exists z,
    (let! ratio := Py.int_truediv c x in
     let! scaled := Py.int_mul_float y ratio in
     Py.int_of_float scaled) = ok z.
Proof.
  intros [Hc Hcb] Hx [Hy Hyb].
  destruct (int_truediv_total c x) as [ratio Hdiv].
  { split; [lia|]. eapply Z.lt_trans; [exact Hcb|]. apply Z.pow_lt_mono_r; lia. }
  { exact Hx. }
  destruct (float_of_int_total y) as [yf Hyf].
  { split; [lia|]. eapply Z.lt_trans; [exact Hyb|]. apply Z.pow_lt_mono_r; lia. }
  rewrite Hdiv. cbn [rbind ok]. unfold Py.int_mul_float. rewrite Hyf. cbn [rbind ok].
  destruct (int_truediv_pos c x ratio Hc Hx Hdiv) as [Hnr Hr].
  destruct (float_of_int_pos y yf Hy Hyf) as [Hny Hyv].
  destruct (nonneg_float_range _ Hnr) as [Hr0 _].
  destruct (nonneg_float_range _ Hny) as [Hy0 _].
  assert (Hprod : (fval yf * fval ratio < bpow 1023)%Q).
  { assert (Hu0 : (0 < bpow (-52))%Q) by apply bpow_pos.
    assert (Hu : (bpow (-52) <= 1)%Q) by (apply (bpow_le (-52) 0); lia).
    assert (Htiny : (bpow (-1022) <= 1)%Q) by (apply (bpow_le (-1022) 0); lia).
    pose proof (inject_Z_lt_bpow c 20 ltac:(lia) Hcb) as Hqc.
    pose proof (inject_Z_lt_bpow y 1000 ltac:(lia) Hyb) as Hqy.
    assert (Hqx : (1 <= inject_Z x)%Q)
      by (change 1%Q with (inject_Z 1); rewrite <- Zle_Qle; lia).
    assert (Hqc0 : (0 < inject_Z c)%Q)
      by (change 0%Q with (inject_Z 0); rewrite <- Zlt_Qlt; lia).
    assert (Hqy0 : (0 < inject_Z y)%Q)
      by (change 0%Q with (inject_Z 0); rewrite <- Zlt_Qlt; lia).
    assert (Hsplit : (bpow 1001 * bpow 21 <= bpow 1023)%Q).
    { rewrite <- bpow_add. apply bpow_le. lia. }
    assert (H1001 : (bpow 1000 * 2 == bpow 1001)%Q).
    { change 2%Q with (bpow 1). rewrite <- bpow_add. reflexivity. }
    assert (H21 : (bpow 20 * 2 == bpow 21)%Q).
    { change 2%Q with (bpow 1). rewrite <- bpow_add. reflexivity. }
    assert (Hp1000 : (1 <= bpow 1000)%Q) by (apply (bpow_le 0 1000); lia).
    assert (Hp20 : (1 <= bpow 20)%Q) by (apply (bpow_le 0 20); lia).
    (* the ratio is below [2^21], the converted [y] below [2^1001] *)
    assert (Hra : (fval ratio < bpow 21)%Q).
    { destruct Hr as [Hr|Hr].
      - set (A := fval ratio) in *. set (X := inject_Z x) in *. set (C := inject_Z c) in *.
        set (U := bpow (-52)) in *. clearbody A X C U.
        assert (A * 1 <= A * X)%Q by (rewrite !(Qmult_comm A); apply Qmult_le_compat_r; lra).
        assert (C * (1 + U) <= C * 2)%Q by (rewrite !(Qmult_comm C); apply Qmult_le_compat_r; lra).
        lra.
      - lra. }
    assert (Hya : (fval yf < bpow 1001)%Q).
    { set (Y := inject_Z y) in *. set (U := bpow (-52)) in *. clearbody Y U.
      assert (0 <= Y)%Q by lra.
      assert (Y * (1 + U) <= Y * 2)%Q by (rewrite !(Qmult_comm Y); apply Qmult_le_compat_r; lra).
      lra. }
    eapply Qlt_le_trans; [|exact Hsplit].
    set (A := fval ratio) in *. set (Yf := fval yf) in *.
    set (P1 := bpow 1001) in *. set (P2 := bpow 21) in *. clearbody A Yf P1 P2.
    assert (Yf * A <= P1 * A)%Q by (apply Qmult_le_compat_r; lra).
    assert (P1 * A < P1 * P2)%Q.
    { rewrite !(Qmult_comm P1). apply Qmult_lt_compat_r; lra. }
    lra. }
  pose proof (float_mul_finite yf ratio Hny Hnr Hprod) as Hfin.
  destruct (int_of_float_nonneg _ Hfin) as (z & Hz & _). now exists z.
Qed.

Lemma fit_horizontal_total (w h : Z) :
  0 < w -> 0 < h < 2 ^ 1000 -> exists z, fit_horizontal w h = ok z.
Proof. intros Hw Hh. apply (scaled_total 854 w h); [split; reflexivity | lia | exact Hh]. Qed.

Lemma fit_vertical_total (w h : Z) :
  0 < w < 2 ^ 1000 -> 0 < h -> exists z, fit_vertical w h = ok z.
Proof. intros Hw Hh. apply (scaled_total 480 h w); [split; reflexivity | lia | exact Hw]. Qed.

(** ** The bounds of [calculate_new_resolution] *)
Lemma fit_horizontal_bound (w h z : Z) :
  0 < w -> 0 < h -> fit_horizontal w h = ok z ->
  0 <= z /\ (z <= 4 \/ 1000 * (z * w) <= 1001 * (854 * h)).
Proof. intros Hw Hh H. apply (scaled_bound 854 w h z); [lia|lia|lia|exact H]. Qed.

Lemma fit_vertical_bound (w h z : Z) :
  0 < w -> 0 < h -> fit_vertical w h = ok z ->
  0 <= z /\ (z <= 4 \/ 1000 * (z * h) <= 1001 * (480 * w)).
Proof. intros Hw Hh H. apply (scaled_bound 480 h w z); [lia|lia|lia|exact H]. Qed.


(* ---- the keyframe interval in exact arithmetic ---- *)

Lemma Qfloor_unique (q : Q) (a : Z) :
  (inject_Z a <= q)%Q -> (q < inject_Z a + 1)%Q -> Qfloor q = a.
Proof.
  intros Hlo Hhi. pose proof (Qfloor_le q) as H1. pose proof (Qlt_floor q) as H2.
  rewrite inject_Z_plus in H2. change (inject_Z 1) with 1%Q in H2.
  assert (Ha : (inject_Z (Qfloor q) < inject_Z (a + 1))%Q).
  { rewrite inject_Z_plus. change (inject_Z 1) with 1%Q. lra. }
  assert (Hb : (inject_Z a < inject_Z (Qfloor q + 1))%Q).
  { rewrite inject_Z_plus. change (inject_Z 1) with 1%Q. lra. }
  rewrite <- Zlt_Qlt in Ha, Hb. lia.
Qed.

Lemma Qtrunc_nonneg (q : Q) (a : Z) :
  (0 <= q)%Q -> (inject_Z a <= q)%Q -> (q < inject_Z a + 1)%Q -> Qtrunc q = a.
Proof.
  intros H0 Hlo Hhi. unfold Qtrunc.
  destruct (Qle_bool 0 q) eqn:Hb; [now apply Qfloor_unique|].
  apply Qle_bool_iff in H0. congruence.
Qed.

Lemma Qtrunc_neg (q : Q) (a : Z) :
  (0 < q)%Q -> (inject_Z a <= q)%Q -> (q < inject_Z a + 1)%Q -> Qtrunc (- q) = - a.
Proof.
  intros H0 Hlo Hhi. unfold Qtrunc.
  destruct (Qle_bool 0 (- q)) eqn:Hb.
  - apply Qle_bool_iff in Hb. lra.
  - unfold Qceiling. rewrite Qopp_involutive. f_equal. now apply Qfloor_unique.
Qed.

Lemma Qtrunc_comp (p q : Q) : (p == q)%Q -> Qtrunc p = Qtrunc q.
Proof.
  intros Hpq. unfold Qtrunc.
  rewrite (Qleb_comp 0%Q 0%Q (Qeq_refl 0%Q) p q Hpq).
  now rewrite (Qfloor_comp p q Hpq), (Qceiling_comp p q Hpq).
Qed.

Lemma F2Q_pos (m : positive) (e : Z) : (0 < F2Q (Zpos m) e)%Q.
Proof.
  unfold F2Q. pose proof (bpow_pos e).
  assert (0 < inject_Z (Zpos m))%Q by (change 0%Q with (inject_Z 0); rewrite <- Zlt_Qlt; lia).
  set (M := inject_Z (Zpos m)) in *. clearbody M. nra.
Qed.

(** [int(x)] is the value of [x] truncated toward zero. *)
Lemma int_of_float_exact (f : Py.float) :
  match f with S754_zero _ | S754_finite _ _ _ => True | _ => False end ->
  Py.int_of_float f = ok (Qtrunc (fval f)).
Proof.
  destruct f as [s|s| |s m e]; try contradiction; intros _.
  - reflexivity.
  - destruct (int_of_float_magnitude m e) as (a & Ha & Ha0 & Hlo & Hhi).
    rewrite Ha. f_equal. cbn [fval]. pose proof (F2Q_pos m e) as Hpos. destruct s.
    + symmetry. now apply Qtrunc_neg.
    + symmetry. apply Qtrunc_nonneg; [lra|assumption|assumption].
Qed.

Lemma F2Q_half (m e : Z) : (F2Q m (e - 1) == F2Q m e * (1 # 2))%Q.
Proof.
  unfold F2Q. replace (e - 1) with (e + -1) by lia. rewrite bpow_add.
  change (bpow (-1)) with (1 # 2)%Q. ring.
Qed.

(** Halving a float of the format above the least exponent is exact. *)
Lemma float_mul_half_exact (s : bool) (m : positive) (e : Z) :
  bounded Py.prec Py.emax m e = true -> -1074 < e ->
  Py.float_mul (S754_finite s m e) GOP_SIZE_FACTOR = S754_finite s m (e - 1).
Proof.
  intros Hb He. apply bounded_spec in Hb. destruct Hb as [Hcan Hmax].
  assert (Hd : Zdigits2 (Zpos m) = 53) by lia.
  unfold Py.float_mul, GOP_SIZE_FACTOR. cbn [SFmul].
  replace (xorb s false) with s by (now destruct s).
  set (mx := Zpos (m * 4503599627370496)).
  assert (Hmx : mx = Zpos m * 2 ^ 52) by reflexivity.
  assert (Hdx : Zdigits2 mx = 105).
  { rewrite Hmx, Zdigits2_mul_pow2 by lia. lia. }
  destruct (binary_round_aux_anatomy s mx (e + -53) loc_Exact ltac:(lia)) as (m2 & Hb & Hex & Heq).
  cbv zeta in Heq, Hb, Hex. rewrite Heq. clear Heq.
  rewrite Hdx, !fexp64_eq in *.
  replace (Z.max 0 (Z.max (105 + (e + -53) - 53) (-1074) - (e + -53))) with 52 in * by lia.
  assert (Hm1 : mx / 2 ^ 52 = Zpos m) by (rewrite Hmx; apply Z.div_mul; lia).
  rewrite Hm1 in *.
  assert (Hm2 : m2 = Zpos m).
  { apply Hex; [reflexivity|]. rewrite Hmx. apply Z.mod_mul. lia. }
  rewrite Hm2, Hd.
  replace (Z.max 0 (Z.max (53 + (e + -53 + 52) - 53) (-1074) - (e + -53 + 52))) with 0 by lia.
  rewrite Z.pow_0_r, Z.div_1_r.
  replace (e + -53 + 52 + 0) with (e - 1) by lia.
  destruct (Z.leb_spec (e - 1) (Py.emax - Py.prec)) as [_|Hbad]; [reflexivity|].
  unfold Py.emax, Py.prec in Hbad. lia.
Qed.

(** At the least exponent the half is below 1. *)
Lemma float_mul_half_tiny (s : bool) (m : positive) :
  bounded Py.prec Py.emax m (-1074) = true ->
  Py.int_of_float (Py.float_mul (S754_finite s m (-1074)) GOP_SIZE_FACTOR) = ok 0.
Proof.
  intros Hb. apply bounded_spec in Hb. destruct Hb as [Hcan _].
  assert (Hm : Zpos m < 2 ^ 53).
  { destruct (Zdigits2_bounds (Zpos m) ltac:(lia)) as [_ Hhi].
    eapply Z.lt_le_trans; [exact Hhi|]. apply Z.pow_le_mono_r; lia. }
  unfold Py.float_mul, GOP_SIZE_FACTOR. cbn [SFmul].
  set (mx := Zpos (m * 4503599627370496)).
  assert (Hmx : mx = Zpos m * 2 ^ 52) by reflexivity.
  assert (Hmx0 : 0 <= mx) by lia.
  assert (Hval : (F2Q mx (-1074 + -53) < 1 # 2)%Q).
  { rewrite Hmx, F2Q_shift by lia.
    eapply Qle_lt_trans; [apply (F2Q_le _ (2 ^ 53)); lia|].
    unfold F2Q. rewrite <- (bpow_inject 53), <- bpow_add by lia.
    eapply Qle_lt_trans; [apply (bpow_le _ (-2)); lia|]. reflexivity. }
  pose proof (binary_round_aux_sign (xorb s false) mx (-1074 + -53) loc_Exact Hmx0) as Hsg.
  destruct (binary_round_aux Py.prec Py.emax (xorb s false) mx (-1074 + -53) loc_Exact)
    as [sz|sz| |sz m' e'] eqn:Hr; try contradiction.
  - reflexivity.
  - exfalso.
    assert (Hal : -1074 + -53 <= fexp64 (Zdigits2 mx + (-1074 + -53))) by (rewrite fexp64_eq; lia).
    pose proof (binary_round_aux_overflow _ _ _ _ _ Hmx0 Hal Hr) as Hov.
    assert (1 <= bpow 1023)%Q by (apply (bpow_le 0 1023); lia). lra.
  - assert (Hsmall : (F2Q (Zpos m') e' < 1)%Q).
    { assert (Hu : (bpow (-52) <= 1)%Q) by (apply (bpow_le (-52) 0); lia).
      assert (Ht : (bpow (-1022) <= 1 # 2)%Q) by (apply (bpow_le (-1022) (-1)); lia).
      pose proof (F2Q_nonneg mx (-1074 + -53) Hmx0) as Hnn.
      destruct (binary_round_aux_upper _ _ _ _ _ _ _ Hmx0 (or_introl eq_refl) Hr) as [Hup|Hup].
      - set (X := F2Q mx (-1074 + -53)) in *. set (U := bpow (-52)) in *. clearbody X U.
        assert (X * (1 + U) <= X * 2)%Q by (rewrite !(Qmult_comm X); apply Qmult_le_compat_r; lra).
        lra.
      - lra. }
    destruct (int_of_float_magnitude m' e') as (a & Ha & Ha0 & Hlo & _).
    rewrite Ha.
    assert (Hlt : (inject_Z a < inject_Z 1)%Q) by (change (inject_Z 1) with 1%Q; lra).
    rewrite <- Zlt_Qlt in Hlt. assert (a = 0) by lia. subst a. now destruct sz.
Qed.

(** The keyframe interval of a finite frame rate is half the frame
    rate, truncated toward zero: the multiplication by [0.5] loses
    nothing that the truncation keeps. *)
Lemma gop_size_exact (framerate : Py.float) :
  finite_float framerate ->
  gop_size framerate = ok (Qtrunc (fval framerate * (1 # 2))).
Proof.
  destruct framerate as [s|s| |s m e]; cbn [finite_float]; try contradiction; intros Hb.
  - reflexivity.
  - unfold gop_size. destruct (Z_lt_le_dec (-1074) e) as [He|He].
    + rewrite (float_mul_half_exact s m e Hb He).
      rewrite int_of_float_exact by exact I. f_equal. apply Qtrunc_comp.
      cbn [fval]. destruct s; rewrite F2Q_half; ring.
    + assert (e = -1074) by (apply bounded_spec in Hb; lia). subst e.
      rewrite (float_mul_half_tiny s m Hb). f_equal. symmetry.
      pose proof (F2Q_pos m (-1074)) as Hpos.
      assert (Hlt : (F2Q (Zpos m) (-1074) < 1)%Q).
      { apply bounded_spec in Hb. destruct Hb as [Hcan _].
        destruct (Zdigits2_bounds (Zpos m) ltac:(lia)) as [_ Hhi].
        assert (Zpos m <= 2 ^ 53).
        { apply Z.lt_le_incl. eapply Z.lt_le_trans; [exact Hhi|]. apply Z.pow_le_mono_r; lia. }
        eapply Qle_lt_trans; [apply (F2Q_le _ (2 ^ 53)); lia|].
        unfold F2Q. rewrite <- (bpow_inject 53), <- bpow_add by lia.
        eapply Qle_lt_trans; [apply (bpow_le _ (-1)); lia|]. reflexivity. }
      cbn [fval]. destruct s.
      * assert (E : (- F2Q (Zpos m) (-1074) * (1 # 2) == - (F2Q (Zpos m) (-1074) * (1 # 2)))%Q) by ring.
        rewrite (Qtrunc_comp _ _ E). change 0 with (- 0). apply Qtrunc_neg; change (inject_Z 0) with 0%Q; lra.
      * apply Qtrunc_nonneg; change (inject_Z 0) with 0%Q; lra.
Qed.

Lemma gop_size_total (framerate : Py.float) :
  finite_float framerate -> exists gop, gop_size framerate = ok gop.
Proof. intros H. eexists. now apply gop_size_exact. Qed.

(* ---- the bitrate and its comparison with the threshold ---- *)

(** The quotient of two ints, when it is returned, is a float of the
    format. *)
Lemma int_truediv_finite (a b : Z) (f : Py.float) :
  Py.int_truediv a b = ok f -> finite_float f.
Proof.
  unfold Py.int_truediv. destruct (Z.eqb_spec b 0) as [|Hb]; [discriminate|].
  assert (Hgen : forall sa sb pa pb,
            match SFdiv Py.prec Py.emax (S754_finite sa pa 0) (S754_finite sb pb 0) with
            | S754_infinity _ => True
            | r => finite_float r
            end).
  { intros sa sb pa pb. cbn [SFdiv].
    pose proof (SFdiv_core_binary_int pa pb) as Hc.
    destruct (SFdiv_core_binary Py.prec Py.emax (Zpos pa) 0 (Zpos pb) 0) as [[q e'] l].
    destruct Hc as (Hq & Hfe & _).
    destruct (binary_round_aux_canonical (xorb sa sb) q e' l Hq Hfe) as [Hcan|[s' Hinf]].
    - destruct (binary_round_aux _ _ _ _ _ _); try exact I; exact Hcan.
    - now rewrite Hinf. }
  destruct a as [|pa|pa]; destruct b as [|pb|pb]; try lia; cbn [Py.raw_of_int].
  1-2: cbn [SFdiv]; intros H; inversion H; exact I.
  all: match goal with
       | |- context [SFdiv _ _ (S754_finite ?sa ?pa 0) (S754_finite ?sb ?pb 0)] =>
           specialize (Hgen sa sb pa pb);
           destruct (SFdiv Py.prec Py.emax (S754_finite sa pa 0) (S754_finite sb pb 0));
           intros H; inversion H; subst; exact Hgen
       end.
Qed.

(** What [get_video_info] returns as the bitrate is a float of the
    format. *)
Lemma read_track_bitrate_finite (o : mediainfo_outcome) framerate bitrate width height :
  read_track o = ok (framerate, bitrate, width, height) -> finite_float bitrate.
Proof.
  unfold read_track. destruct o as [e|track]; [discriminate|]. unfold ok.
  destruct (match FrameRate track with Some r => r | None => Py.float_of_int 0 end);
    cbn [rbind]; [discriminate|].
  destruct (match BitRate track with Some r => r | None => inr 0 end) as [|n];
    cbn [rbind]; [discriminate|].
  destruct (Py.int_truediv n 1000) as [|br] eqn:Hdiv; cbn [rbind]; [discriminate|].
  destruct (match Width track with Some r => r | None => inr 0 end);
    cbn [rbind]; [discriminate|].
  destruct (match Height track with Some r => r | None => inr 0 end);
    cbn [rbind]; [discriminate|].
  intros H. inversion H; subst. now apply (int_truediv_finite n 1000).
Qed.

(** The threshold as a float: [1000 = 8796093022208000 * 2^-43]. *)
Lemma threshold_float :
  binary_normalize Py.prec Py.emax VIDEO_BITRATE 0 false
  = S754_finite false 8796093022208000 (-43).
Proof. vm_compute. reflexivity. Qed.

Lemma threshold_value : (inject_Z VIDEO_BITRATE == F2Q 8796093022208000 (-43))%Q.
Proof. vm_compute. reflexivity. Qed.

(** On floats of the format, [bitrate < VIDEO_BITRATE] compares the
    values. *)
Lemma float_lt_threshold (x : Py.float) :
  finite_float x ->
  Py.float_lt_int x VIDEO_BITRATE = true <-> (fval x < inject_Z VIDEO_BITRATE)%Q.
Proof.
  intros Hx. unfold Py.float_lt_int. rewrite threshold_float, threshold_value.
  generalize (eq_refl : Zpos 8796093022208000 = 8796093022208000).
  generalize 8796093022208000%positive at 1 3 4. intros c Hc.
  assert (Hc52 : (F2Q (2 ^ 52) (-43) < F2Q (Zpos c) (-43))%Q).
  { unfold F2Q. pose proof (bpow_pos (-43)).
    assert (inject_Z (2 ^ 52) < inject_Z (Zpos c))%Q by (rewrite <- Zlt_Qlt; lia).
    set (A := inject_Z (2 ^ 52)) in *. set (B := inject_Z (Zpos c)) in *.
    clearbody A B. nra. }
  assert (Hc53 : (F2Q (Zpos c) (-43) < F2Q (2 ^ 53) (-43))%Q).
  { unfold F2Q. pose proof (bpow_pos (-43)).
    assert (inject_Z (Zpos c) < inject_Z (2 ^ 53))%Q by (rewrite <- Zlt_Qlt; lia).
    set (A := inject_Z (2 ^ 53)) in *. set (B := inject_Z (Zpos c)) in *.
    clearbody A B. nra. }
  pose proof (F2Q_pos c (-43)) as Hpos'.
  destruct x as [s|s| |s m e]; cbn [finite_float] in Hx; try contradiction.
  - cbn [fval]. split; [intros _; exact Hpos' | reflexivity].
  - apply bounded_spec in Hx. destruct Hx as [Hcan _].
    pose proof (F2Q_pos m e) as Hpos.
    destruct s; cbn [fval].
    { split; [intros _; lra | reflexivity]. }
    destruct (Zdigits2_bounds (Zpos m) ltac:(lia)) as [Hlo Hhi].
    pose proof (Zdigits2_pos (Zpos m) ltac:(lia)) as Hd.
    unfold SFltb, SFcompare.
    destruct (Z.compare_spec e (-43)) as [He|He|He].
    + (* same exponent: the significands decide *)
      subst e. fold (Pos.compare m c).
      destruct (Pos.compare_spec m c) as [Hm|Hm|Hm].
      * subst m. split; [discriminate | intros H; lra].
      * split; [intros _|reflexivity]. unfold F2Q. pose proof (bpow_pos (-43)).
        assert (inject_Z (Zpos m) < inject_Z (Zpos c))%Q by (rewrite <- Zlt_Qlt; lia).
        set (A := inject_Z (Zpos m)) in *. set (B := inject_Z (Zpos c)) in *.
        clearbody A B. nra.
      * split; [discriminate|]. intros H. exfalso. apply (Qlt_irrefl (F2Q (Zpos m) (-43))).
        eapply Qlt_le_trans; [exact H|]. apply F2Q_le. lia.
    + (* smaller exponent: below [2^(53+e) <= 2^52 * 2^-43] *)
      split; [intros _|reflexivity].
      assert (Hm : Zpos m <= 2 ^ 53).
      { apply Z.lt_le_incl. eapply Z.lt_le_trans; [exact Hhi|]. apply Z.pow_le_mono_r; lia. }
      eapply Qle_lt_trans; [apply (F2Q_le _ (2 ^ 53)); exact Hm|].
      eapply Qle_lt_trans; [|exact Hc52].
      unfold F2Q. rewrite <- !bpow_inject, <- !bpow_add by lia. apply bpow_le. lia.
    + (* larger exponent: at least [2^(52+e) >= 2^53 * 2^-43] *)
      split; [discriminate|]. intros H. exfalso.
      assert (Hm : 2 ^ 52 <= Zpos m).
      { eapply Z.le_trans; [|exact Hlo]. apply Z.pow_le_mono_r; lia. }
      assert (Hge : (F2Q (2 ^ 53) (-43) <= F2Q (Zpos m) e)%Q).
      { eapply Qle_trans; [|apply (F2Q_le (2 ^ 52)); exact Hm].
        unfold F2Q. rewrite <- !bpow_inject, <- !bpow_add by lia. apply bpow_le. lia. }
      lra.
Qed.

(** A [BitRate] below 1,000,000 bit/s is a bitrate below 1000 kbps
    after the division by 1000. *)
Lemma bitrate_below_threshold (n : Z) (bitrate : Py.float) :
  Py.int_truediv n 1000 = ok bitrate -> n < 1000000 ->
  (fval bitrate < inject_Z VIDEO_BITRATE)%Q.
Proof.
  intros Hdiv Hn. unfold VIDEO_BITRATE. change (inject_Z 1000) with 1000%Q.
  destruct (Z_lt_le_dec 0 n) as [Hpos|Hneg].
  - destruct (int_truediv_pos n 1000 bitrate Hpos ltac:(lia) Hdiv) as [_ [H|H]].
    + assert (Hu0 : (0 < bpow (-52))%Q) by apply bpow_pos.
      assert (Hu : (bpow (-52) <= 1 # 1000000)%Q).
      { eapply Qle_trans; [apply (bpow_le (-52) (-20)); lia|]. vm_compute. discriminate. }
      assert (Hq : (inject_Z n <= 999999)%Q).
      { change 999999%Q with (inject_Z 999999). rewrite <- Zle_Qle. lia. }
      assert (Hq0 : (0 < inject_Z n)%Q).
      { change 0%Q with (inject_Z 0). rewrite <- Zlt_Qlt. lia. }
      change (inject_Z 1000) with 1000%Q in H.
      set (N := inject_Z n) in *. set (U := bpow (-52)) in *. set (B := fval bitrate) in *.
      clearbody N U B.
      assert (N * U <= 999999 * (1 # 1000000))%Q.
      { eapply Qle_trans; [apply Qmult_le_compat_r; [exact Hq | lra]|].
        rewrite !(Qmult_comm 999999). apply Qmult_le_compat_r; lra. }
      lra.
    + assert (bpow (-1022) <= 1)%Q by (apply (bpow_le (-1022) 0); lia). lra.
  - (* a zero or negative quotient *)
    enough (fval bitrate <= 0)%Q by lra.
    unfold Py.int_truediv in Hdiv. cbn [Z.eqb] in Hdiv.
    destruct n as [|p|p]; try lia; cbn [Py.raw_of_int SFdiv xorb] in Hdiv.
    + inversion Hdiv. cbn [fval]. lra.
    + pose proof (SFdiv_core_binary_int p 1000) as Hc.
      destruct (SFdiv_core_binary Py.prec Py.emax (Zpos p) 0 1000 0) as [[q e'] l].
      destruct Hc as (Hq & _).
      pose proof (binary_round_aux_sign true q e' l Hq) as Hsg.
      destruct (binary_round_aux Py.prec Py.emax true q e' l) as [sz|sz| |sz m e].
      * inversion Hdiv. cbn [fval]. lra.
      * discriminate Hdiv.
      * contradiction.
      * inversion Hdiv. subst sz. cbn [fval].
        pose proof (F2Q_pos m e). lra.
Qed.

(* ================================================================= *)
(** * Strings: suffixes, substrings, joined paths *)

Lemma string_app_nil_l (s : string) : ("" ++ s = s)%string.
Proof. reflexivity. Qed.

Lemma string_app_cons (a : ascii) (s t : string) :
  (String a s ++ t = String a (s ++ t))%string.
Proof. reflexivity. Qed.

Lemma string_app_assoc (a b c : string) : ((a ++ b) ++ c = a ++ (b ++ c))%string.
Proof.
  induction a as [|x a IH]; [reflexivity|].
  rewrite !string_app_cons. now f_equal.
Qed.

Lemma string_app_nil_r (a : string) : (a ++ "" = a)%string.
Proof.
  induction a as [|x a IH]; [reflexivity|]. rewrite string_app_cons. now f_equal.
Qed.

Lemma prefix_spec (p s : string) :
  String.prefix p s = true <-> exists r, s = (p ++ r)%string.
Proof.
  revert s. induction p as [|a p IH]; intros s.
  - split; [intros _; now exists s | intros _; now destruct s].
  - destruct s as [|b s]; cbn [String.prefix];
      [split; [discriminate | intros [r Hr]; discriminate]|].
    destruct (ascii_dec a b) as [->|Hne].
    + rewrite IH. split; intros [r Hr]; exists r.
      * rewrite string_app_cons. now rewrite Hr.
      * rewrite string_app_cons in Hr. now inversion Hr.
    + split; [discriminate | intros [r Hr]; rewrite string_app_cons in Hr; congruence].
Qed.

Lemma endswith_spec (s suffix : string) :
  endswith s suffix = true <-> exists p, s = (p ++ suffix)%string.
Proof.
  induction s as [|a s IH]; cbn [endswith].
  - destruct (String.eqb_spec "" suffix) as [<-|Hne].
    + split; [intros _; now exists ""%string | reflexivity].
    + split; [discriminate|]. intros [[|b p] Hp]; [now rewrite string_app_nil_l in Hp | discriminate].
  - destruct (String.eqb_spec (String a s) suffix) as [<-|Hne].
    + split; [intros _; now exists ""%string | reflexivity].
    + rewrite IH. split.
      * intros [p ->]. now exists (String a p).
      * intros [[|b p] Hp]; [now rewrite string_app_nil_l in Hp|].
        rewrite string_app_cons in Hp. inversion Hp. now exists p.
Qed.

Lemma str_in_spec (needle hay : string) :
  str_in needle hay = true <-> exists a b, hay = (a ++ needle ++ b)%string.
Proof.
  induction hay as [|c hay IH]; cbn [str_in].
  - destruct (String.prefix needle "") eqn:Hp.
    + apply prefix_spec in Hp. destruct Hp as [r Hr].
      split; [intros _; now exists ""%string, r | reflexivity].
    + split; [discriminate|]. intros ([|x a] & b & Hab); [|discriminate].
      rewrite string_app_nil_l in Hab.
      assert (String.prefix needle "" = true) by (apply prefix_spec; now exists b). congruence.
  - destruct (String.prefix needle (String c hay)) eqn:Hp.
    + apply prefix_spec in Hp. destruct Hp as [r Hr].
      split; [intros _; now exists ""%string, r | reflexivity].
    + rewrite IH. split.
      * intros (a & b & ->). now exists (String c a), b.
      * intros ([|x a] & b & Hab).
        -- rewrite string_app_nil_l in Hab.
           assert (String.prefix needle (String c hay) = true) by (apply prefix_spec; now exists b).
           congruence.
        -- rewrite string_app_cons in Hab. inversion Hab. now exists a, b.
Qed.

Lemma str_in_app_l (needle a b : string) :
  str_in needle a = true -> str_in needle (a ++ b) = true.
Proof.
  rewrite !str_in_spec. intros (x & y & ->). exists x, (y ++ b)%string.
  now rewrite !string_app_assoc.
Qed.

Lemma str_in_app_r (needle a b : string) :
  str_in needle b = true -> str_in needle (a ++ b) = true.
Proof.
  rewrite !str_in_spec. intros (x & y & ->). exists (a ++ x)%string, y.
  now rewrite !string_app_assoc.
Qed.

(** Joining never loses what the left part contains, unless the right
    part is absolute. *)
Lemma str_in_join_l (needle a b : string) :
  startswith b "/" = false ->
  str_in needle a = true -> str_in needle (os_path_join a b) = true.
Proof.
  intros Hb Ha. unfold os_path_join. rewrite Hb.
  destruct (_ || _); now apply str_in_app_l.
Qed.

Lemma str_in_join_r (needle a : string) :
  str_in needle (os_path_join a needle) = true.
Proof.
  assert (Hself : str_in needle needle = true).
  { apply str_in_spec. exists ""%string, ""%string.
    now rewrite string_app_nil_l, string_app_nil_r. }
  unfold os_path_join. destruct (startswith needle "/"); [exact Hself|].
  destruct (_ || _); [now apply str_in_app_r|].
  apply str_in_app_r. now apply (str_in_app_r needle "/").
Qed.

(** Two suffixes of one string: one is a suffix of the other. *)
Lemma endswith_nested (s x y : string) :
  endswith s x = true -> endswith s y = true ->
  endswith x y = true \/ endswith y x = true.
Proof.
  induction s as [|a s IH]; cbn [endswith].
  - destruct (String.eqb_spec "" x) as [<-|]; [|discriminate].
    destruct (String.eqb_spec "" y) as [<-|]; [|discriminate]. now left.
  - intros Hx Hy.
    destruct (String.eqb_spec (String a s) x) as [<-|_].
    { left. cbn [endswith]. destruct (String.eqb_spec (String a s) y); [reflexivity | exact Hy]. }
    destruct (String.eqb_spec (String a s) y) as [<-|_].
    { right. cbn [endswith]. destruct (String.eqb_spec (String a s) x); [reflexivity | exact Hx]. }
    now apply IH.
Qed.

Lemma endswith_app (p suffix : string) : endswith (p ++ suffix) suffix = true.
Proof. apply endswith_spec. now exists p. Qed.

(* ================================================================= *)
(** * Runs: what every computation of the script preserves *)

Lemma bind_raises {A B} (m : IO A) (k : A -> IO B) fs e :
  res (m fs) = inl e ->
  bind m k fs = Outcome (inl e) (final (m fs)) (events (m fs)).
Proof. intros H. unfold bind. now rewrite H. Qed.

Lemma bind_returns {A B} (m : IO A) (k : A -> IO B) fs a :
  res (m fs) = inr a ->
  bind m k fs = Outcome (res (k a (final (m fs)))) (final (k a (final (m fs))))
                        (events (m fs) ++ events (k a (final (m fs))))%list.
Proof. intros H. unfold bind. now rewrite H. Qed.

Lemma bind_assoc {A B C} (m : IO A) (k : A -> IO B) (h : B -> IO C) fs :
  bind (bind m k) h fs = bind m (fun a => bind (k a) h) fs.
Proof.
  unfold bind. destruct (res (m fs)) as [e|a]; cbn [res final events]; [reflexivity|].
  destruct (res (k a (final (m fs)))); cbn [res final events]; [reflexivity|].
  now rewrite app_assoc.
Qed.

Lemma bind_ext {A B} (m : IO A) (k k' : A -> IO B) fs :
  (forall a fs', k a fs' = k' a fs') -> bind m k fs = bind m k' fs.
Proof. intros H. unfold bind. destruct (res (m fs)); [reflexivity|]. now rewrite H. Qed.

Lemma ret_bind {A B} (a : A) (k : A -> IO B) fs : bind (ret a) k fs = k a fs.
Proof. unfold bind, ret. cbn. now destruct (k a fs). Qed.

Lemma for_each_app {A} (l1 l2 : list A) (body : A -> IO unit) fs :
  for_each (l1 ++ l2)%list body fs = (for_each l1 body ;; for_each l2 body) fs.
Proof.
  revert fs. induction l1 as [|x l1 IH]; intros fs; cbn [for_each app].
  - now rewrite ret_bind.
  - rewrite bind_assoc. apply bind_ext. intros _ fs'. apply IH.
Qed.

(** ** One file, step by step

    The outcome of the body of the inner loop, by cases in the order
    the script takes its decisions. *)
Lemma process_file_unfold (t : tools) (cvp root file : string) (fs : filesystem) :
  process_file t cvp root file fs =
  let input_file := os_path_join root file in
  let output_file := os_path_join cvp file in
  if is_video_file file then
    match fs !! output_file with
    | Some _ => Outcome (ok tt) fs []
    | None =>
        match read_track (mediainfo t input_file) with
        | inl e =>
            Outcome (ok tt) fs
              [Run_mediainfo input_file; Print_probe_error input_file e;
               Print_skipping input_file]
        | inr (framerate, bitrate, width, height) =>
            if Py.float_lt_int bitrate VIDEO_BITRATE then
              Outcome (ok tt) fs [Run_mediainfo input_file; Print_skipping input_file]
            else
              match gop_size framerate with
              | inl e => Outcome (inl e) fs [Run_mediainfo input_file]
              | inr gop =>
                  match calculate_new_resolution width height with
                  | inl e => Outcome (inl e) fs [Run_mediainfo input_file]
                  | inr (new_width, new_height) =>
                      let command :=
                        ffmpeg_command input_file file gop new_width new_height output_file in
                      match ffmpeg t command with
                      | Ffmpeg_not_run e =>
                          Outcome (inl e) fs [Run_mediainfo input_file; Run_ffmpeg command]
                      | Ffmpeg_exit returncode written =>
                          Outcome
                            (if returncode =? 0 then ok tt
                             else raise (CalledProcessError returncode))
                            (match written with
                             | Some data => <[output_file := File data]> fs
                             | None => fs
                             end)
                            [Run_mediainfo input_file; Run_ffmpeg command]
                      end
                  end
              end
        end
    end
  else Outcome (ok tt) fs [].
Proof.
  cbv zeta. unfold process_file.
  destruct (is_video_file file); [|reflexivity].
  unfold get_video_info.
  cbn [bind emit ret lift throw ok raise res final events app os_path_exists].
  destruct (fs !! os_path_join cvp file); [reflexivity|].
  cbn [bind emit ret lift throw ok raise res final events app].
  destruct (read_track (mediainfo t (os_path_join root file))) as [e|[[[fr br] w] h]];
    [reflexivity|].
  cbn [bind emit ret lift throw ok raise res final events app].
  destruct (Py.float_lt_int br VIDEO_BITRATE); [reflexivity|].
  destruct (gop_size fr) as [e|gop]; [reflexivity|].
  cbn [bind emit ret lift throw ok raise res final events app].
  destruct (calculate_new_resolution w h) as [e|[nw nh]]; [reflexivity|].
  cbn [bind emit ret lift throw ok raise res final events app]. unfold run_ffmpeg.
  destruct (ffmpeg t _) as [e|rc written]; reflexivity.
Qed.

(** Split a [Forall] over an explicit list of events. *)
Ltac forall_events :=
  cbn [events];
  repeat match goal with
         | |- Forall _ (_ :: _) => apply List.Forall_cons
         | |- Forall _ [] => apply List.Forall_nil
         end.

Section WellBehaved.
Context (t : tools) (cvp : string).

Lemma accounted_weaken fs0 fs1 (C C' : string -> string -> Prop) e :
  fs0 ⊆ fs1 -> (forall r f, C r f -> C' r f) ->
  accounted t cvp fs1 C e -> accounted t cvp fs0 C' e.
Proof.
  intros Hsub HC H. destruct H; econstructor; eauto using lookup_weaken_None.
Qed.

Lemma well_behaved_weaken {A} (C C' : string -> string -> Prop) (m : IO A) :
  (forall r f, C r f -> C' r f) -> well_behaved t cvp C m -> well_behaved t cvp C' m.
Proof.
  intros HC Hm fs0 fs Hsub. destruct (Hm fs0 fs Hsub) as [H1 H2]. split; [exact H1|].
  eapply Forall_impl; [exact H2|]. intros e He. cbn beta.
  eapply accounted_weaken; [reflexivity | exact HC | exact He].
Qed.

Lemma well_behaved_pure {A} C (m : IO A) :
  (forall fs, final (m fs) = fs /\ events (m fs) = []) -> well_behaved t cvp C m.
Proof.
  intros H fs0 fs Hsub. destruct (H fs) as [-> ->]. split; [exact Hsub | constructor].
Qed.

Lemma well_behaved_bind {A B} C (m : IO A) (k : A -> IO B) :
  well_behaved t cvp C m -> (forall a, well_behaved t cvp C (k a)) ->
  well_behaved t cvp C (bind m k).
Proof.
  intros Hm Hk fs0 fs Hsub. destruct (Hm fs0 fs Hsub) as [H1 H2].
  unfold bind. destruct (res (m fs)) as [e|a]; cbn [final events]; [now split|].
  destruct (Hk a fs0 (final (m fs)) H1) as [H3 H4].
  split; [exact H3|]. apply Forall_app. now split.
Qed.

Lemma well_behaved_for_each {A} C (l : list A) (body : A -> IO unit) :
  (forall x, In x l -> well_behaved t cvp C (body x)) ->
  well_behaved t cvp C (for_each l body).
Proof.
  induction l as [|x l IH]; intros H; cbn [for_each].
  - apply well_behaved_pure. now intros fs.
  - apply well_behaved_bind; [apply H; now left|]. intros _. apply IH.
    intros y Hy. apply H. now right.
Qed.

Lemma mkdir_if_absent_subseteq (fs : filesystem) p : fs ⊆ mkdir_if_absent fs p.
Proof.
  unfold mkdir_if_absent. destruct (fs !! p) eqn:Hp; [reflexivity|].
  now apply insert_subseteq.
Qed.

Lemma os_makedirs_subseteq (fs : filesystem) p : fs ⊆ final (os_makedirs p fs).
Proof.
  unfold os_makedirs. cbn [final]. generalize (prefixes_at_slash "" p ++ [p]).
  intros l. revert fs. induction l as [|d l IH]; intros fs; cbn [foldl]; [reflexivity|].
  etransitivity; [apply (mkdir_if_absent_subseteq fs d) | apply IH].
Qed.

Lemma well_behaved_makedirs C p : well_behaved t cvp C (os_makedirs p).
Proof.
  intros fs0 fs Hsub. split; [|constructor].
  etransitivity; [exact Hsub | apply os_makedirs_subseteq].
Qed.

Lemma well_behaved_ensure_exists C p :
  well_behaved t cvp C
    (let* present := os_path_exists p in
     if negb present then os_makedirs p else ret tt).
Proof.
  apply well_behaved_bind; [apply well_behaved_pure; now intros fs|].
  intros [|]; cbn [negb]; [apply well_behaved_pure; now intros fs|].
  apply well_behaved_makedirs.
Qed.

(** The body of the inner loop. *)
Lemma well_behaved_process_file root file :
  well_behaved t cvp (fun r f => r = root /\ f = file) (process_file t cvp root file).
Proof.
  intros fs0 fs Hsub. rewrite process_file_unfold. cbv zeta.
  destruct (is_video_file file) eqn:Hvid; [|split; [exact Hsub | constructor]].
  destruct (fs !! os_path_join cvp file) as [n|] eqn:Hout;
    [split; [exact Hsub | constructor]|].
  assert (Hout0 : fs0 !! os_path_join cvp file = None) by (eapply lookup_weaken_None; eauto).
  set (input := os_path_join root file).
  assert (Hprobe : accounted t cvp fs0 (fun r f => r = root /\ f = file) (Run_mediainfo input)).
  { now constructor. }
  assert (Hskip : skipped_by_probe t input ->
                  accounted t cvp fs0 (fun r f => r = root /\ f = file) (Print_skipping input)).
  { intros H. now apply acc_skipping. }
  destruct (read_track (mediainfo t input)) as [e|[[[fr br] w] h]] eqn:Hread.
  - (* the probe failed *)
    split; [exact Hsub|]. cbn [events]. forall_events; [exact Hprobe | | ].
    + now apply acc_probe_error.
    + apply Hskip. unfold skipped_by_probe. now rewrite Hread.
  - destruct (Py.float_lt_int br VIDEO_BITRATE) eqn:Hlow.
    + split; [exact Hsub|]. cbn [events]. forall_events; [exact Hprobe|].
      apply Hskip. unfold skipped_by_probe. now rewrite Hread.
    + destruct (gop_size fr) as [e|gop] eqn:Hgop;
        [split; [exact Hsub | forall_events; exact Hprobe]|].
      destruct (calculate_new_resolution w h) as [e|[nw nh]] eqn:Hres;
        [split; [exact Hsub | forall_events; exact Hprobe]|].
      assert (Hff : accounted t cvp fs0 (fun r f => r = root /\ f = file)
                      (Run_ffmpeg (ffmpeg_command input file gop nw nh (os_path_join cvp file)))).
      { eapply acc_ffmpeg; eauto. }
      destruct (ffmpeg t _) as [e|rc [data|]]; cbn [res final events].
      * split; [exact Hsub | forall_events; assumption].
      * split; [|forall_events; assumption].
        etransitivity; [exact Hsub|]. now apply insert_subseteq.
      * split; [exact Hsub | forall_events; assumption].
Qed.

Lemma well_behaved_process_directory entry :
  well_behaved t cvp
    (fun r f => str_in "Custom Versions" r = false /\
                exists dirs files, entry = (r, dirs, files) /\ In f files)
    (process_directory t cvp entry).
Proof.
  destruct entry as [[root dirs] files]. unfold process_directory.
  destruct (str_in "Custom Versions" root) eqn:Hcv;
    [apply well_behaved_pure; now intros fs|].
  apply well_behaved_for_each. intros file Hfile.
  eapply well_behaved_weaken; [|apply well_behaved_process_file].
  intros r f [-> ->]. split; [exact Hcv|]. now exists dirs, files.
Qed.
End WellBehaved.

Lemma well_behaved_process_videos (t : tools) (movie_folder_path : string) :
  well_behaved t (output_directory movie_folder_path)
    (walk_candidates t movie_folder_path) (process_videos t movie_folder_path).
Proof.
  unfold process_videos. fold (output_directory movie_folder_path).
  apply well_behaved_bind; [apply well_behaved_ensure_exists|]. intros _.
  apply well_behaved_for_each. intros entry Hentry.
  eapply well_behaved_weaken; [|apply well_behaved_process_directory].
  intros r f (Hcv & dirs & files & -> & Hf). split; [exact Hcv|]. now exists dirs, files.
Qed.

(** ** A failed encode ends the run *)

Section Stops.
Context (t : tools).

Lemma all_encodes_succeed_app evs1 evs2 :
  all_encodes_succeed t evs1 -> all_encodes_succeed t evs2 ->
  all_encodes_succeed t (evs1 ++ evs2).
Proof. intros H1 H2. apply Forall_app. now split. Qed.

Lemma stops_pure {A} (o : outcome A) :
  events o = [] -> stops_at_failed_encode t o.
Proof.
  intros H. unfold stops_at_failed_encode. rewrite H.
  destruct (res o); [left|]; constructor.
Qed.

Lemma stops_bind {A B} (m : IO A) (k : A -> IO B) fs :
  stops_at_failed_encode t (m fs) ->
  (forall a fs', stops_at_failed_encode t (k a fs')) ->
  stops_at_failed_encode t (bind m k fs).
Proof.
  intros Hm Hk. unfold bind. unfold stops_at_failed_encode in Hm.
  destruct (res (m fs)) as [e|a] eqn:Hres.
  - unfold stops_at_failed_encode. cbn [res events]. exact Hm.
  - specialize (Hk a (final (m fs))). unfold stops_at_failed_encode in *.
    cbn [res events]. destruct (res (k a (final (m fs)))) as [e|b].
    + destruct Hk as [Hk|(pre & command & Hev & Hpre & Herr)].
      * left. now apply all_encodes_succeed_app.
      * right. exists (events (m fs) ++ pre), command.
        rewrite Hev, app_assoc. split; [reflexivity|]. split; [|exact Herr].
        now apply all_encodes_succeed_app.
    + now apply all_encodes_succeed_app.
Qed.

Lemma stops_for_each {A} (l : list A) (body : A -> IO unit) fs :
  (forall x fs', stops_at_failed_encode t (body x fs')) ->
  stops_at_failed_encode t (for_each l body fs).
Proof.
  intros H. revert fs. induction l as [|x l IH]; intros fs; cbn [for_each].
  - now apply stops_pure.
  - apply stops_bind; [apply H|]. intros _ fs'. apply IH.
Qed.

Lemma stops_process_file cvp root file fs :
  stops_at_failed_encode t (process_file t cvp root file fs).
Proof.
  rewrite process_file_unfold. cbv zeta.
  assert (Hprobe : forall p command, Run_mediainfo p = Run_ffmpeg command ->
                                     ffmpeg_error t command = None) by discriminate.
  assert (Herr : forall p e command, Print_probe_error p e = Run_ffmpeg command ->
                                     ffmpeg_error t command = None) by discriminate.
  assert (Hskip : forall p command, Print_skipping p = Run_ffmpeg command ->
                                    ffmpeg_error t command = None) by discriminate.
  destruct (is_video_file file); [|now apply stops_pure].
  destruct (fs !! os_path_join cvp file); [now apply stops_pure|].
  destruct (read_track _) as [e|[[[fr br] w] h]];
    [unfold stops_at_failed_encode, all_encodes_succeed; cbn [res events ok];
     forall_events; eauto|].
  destruct (Py.float_lt_int br VIDEO_BITRATE);
    [unfold stops_at_failed_encode, all_encodes_succeed; cbn [res events ok];
     forall_events; eauto|].
  destruct (gop_size fr) as [e|gop];
    [unfold stops_at_failed_encode, all_encodes_succeed; cbn [res events];
     left; forall_events; eauto|].
  destruct (calculate_new_resolution w h) as [e|[nw nh]];
    [unfold stops_at_failed_encode, all_encodes_succeed; cbn [res events];
     left; forall_events; eauto|].
  set (command := ffmpeg_command _ _ _ _ _ _).
  assert (Hpre : all_encodes_succeed t [Run_mediainfo (os_path_join root file)]).
  { unfold all_encodes_succeed. forall_events. eauto. }
  destruct (ffmpeg t command) as [e|rc written] eqn:Hff;
    unfold stops_at_failed_encode; cbn [res events].
  - right. exists [Run_mediainfo (os_path_join root file)], command.
    split; [reflexivity|]. split; [exact Hpre|]. unfold ffmpeg_error. now rewrite Hff.
  - destruct (Z.eqb_spec rc 0) as [Hz|Hnz]; cbn [ok raise].
    + unfold all_encodes_succeed. forall_events; [eauto|].
      intros c Hc. inversion Hc; subst c. unfold ffmpeg_error. rewrite Hff.
      now destruct (Z.eqb_spec rc 0).
    + right. exists [Run_mediainfo (os_path_join root file)], command.
      split; [reflexivity|]. split; [exact Hpre|]. unfold ffmpeg_error. rewrite Hff.
      now destruct (Z.eqb_spec rc 0).
Qed.

Lemma stops_process_videos movie_folder_path fs :
  stops_at_failed_encode t (process_videos t movie_folder_path fs).
Proof.
  unfold process_videos. apply stops_bind.
  - apply stops_bind; [now apply stops_pure|].
    intros [|] fs'; cbn [negb]; now apply stops_pure.
  - intros _ fs'. apply stops_for_each. intros [[root dirs] files] fs''.
    unfold process_directory. destruct (str_in _ root); [now apply stops_pure|].
    apply stops_for_each. intros file fs3. apply stops_process_file.
Qed.

Lemma stops_main arg fs : stops_at_failed_encode t (main t arg fs).
Proof.
  unfold main. apply stops_bind; [now apply stops_pure|].
  intros [|] fs'; cbn [negb].
  - apply stops_bind.
    + apply stops_for_each. intros movie_folder fs''.
      apply stops_bind; [now apply stops_pure|].
      intros [|] fs3; cbn [negb]; [|now apply stops_pure].
      apply stops_bind; [|intros _ fs4; apply stops_process_videos].
      unfold ensure_custom_versions_folder.
      apply stops_bind.
      * apply stops_bind; [now apply stops_pure|].
        intros [|] fs4; cbn [negb]; now apply stops_pure.
      * intros _ fs4. apply stops_bind; [now apply stops_pure|].
        intros [|] fs5; cbn [negb]; now apply stops_pure.
    + intros _ fs''. unfold stops_at_failed_encode, all_encodes_succeed.
      cbn [emit res events ok]. forall_events. discriminate.
  - unfold stops_at_failed_encode, all_encodes_succeed.
    cbn [emit res events ok]. forall_events. discriminate.
Qed.

(** What the discipline gives for a failed encode found among the
    events. *)
Lemma failed_encode_is_last {A} (o : outcome A) command x :
  stops_at_failed_encode t o ->
  In (Run_ffmpeg command) (events o) ->
  ffmpeg_error t command = Some x ->
  res o = inl x /\ exists pre, events o = pre ++ [Run_ffmpeg command].
Proof.
  intros Hs Hin Herr. unfold stops_at_failed_encode, all_encodes_succeed in Hs.
  assert (Hno : forall evs, Forall (fun e => forall c, e = Run_ffmpeg c -> ffmpeg_error t c = None) evs ->
                            In (Run_ffmpeg command) evs -> False).
  { intros evs Hall Hi. rewrite List.Forall_forall in Hall.
    specialize (Hall _ Hi command eq_refl). congruence. }
  destruct (res o) as [e|a].
  - destruct Hs as [Hs|(pre & c & Hev & Hpre & Hc)]; [now destruct (Hno _ Hs Hin)|].
    rewrite Hev in Hin. apply in_app_or in Hin. destruct Hin as [Hin|Hin].
    + now destruct (Hno _ Hpre Hin).
    + destruct Hin as [Heq|[]]. inversion Heq; subst c.
      split; [congruence | now exists pre].
  - now destruct (Hno _ Hs Hin).
Qed.
End Stops.


(* ================================================================= *)
(** * Where the probes and encodes of a run come from *)

Lemma process_videos_accounted (t : tools) (movie_folder_path : string) (fs : filesystem) :
  fs ⊆ final (process_videos t movie_folder_path fs) /\
  Forall (accounted t (output_directory movie_folder_path) fs
            (walk_candidates t movie_folder_path))
         (events (process_videos t movie_folder_path fs)).
Proof. now apply well_behaved_process_videos. Qed.

Lemma command_input_ffmpeg_command input file gop nw nh out :
  command_input (ffmpeg_command input file gop nw nh out) = input.
Proof. reflexivity. Qed.

Lemma command_output_ffmpeg_command input file gop nw nh out :
  command_output (ffmpeg_command input file gop nw nh out) = out.
Proof. reflexivity. Qed.

(** Every probe of a run is for a video file of a directory that
    passed the test on [root], whose output did not exist. *)
Lemma probe_has_reason (t : tools) (mfp : string) (fs : filesystem) (p : string) :
  In (Run_mediainfo p) (events (process_videos t mfp fs)) ->
  exists root file,
    p = os_path_join root file /\
    walk_candidates t mfp root file /\
    is_video_file file = true /\
    fs !! os_path_join (output_directory mfp) file = None.
Proof.
  intros Hin. destruct (process_videos_accounted t mfp fs) as [_ Hall].
  rewrite List.Forall_forall in Hall. specialize (Hall _ Hin).
  inversion Hall; subst. now exists root, file.
Qed.

(** Every encode of a run is for a video file whose probe succeeded
    with a bitrate not below the threshold, and whose output did not
    exist. *)
Lemma encode_has_reason (t : tools) (mfp : string) (fs : filesystem) (command : list string) :
  In (Run_ffmpeg command) (events (process_videos t mfp fs)) ->
  exists root file framerate bitrate width height gop new_width new_height,
    command = ffmpeg_command (os_path_join root file) file gop new_width new_height
                             (os_path_join (output_directory mfp) file) /\
    walk_candidates t mfp root file /\
    is_video_file file = true /\
    fs !! os_path_join (output_directory mfp) file = None /\
    read_track (mediainfo t (os_path_join root file)) = ok (framerate, bitrate, width, height) /\
    Py.float_lt_int bitrate VIDEO_BITRATE = false /\
    gop_size framerate = ok gop /\
    calculate_new_resolution width height = ok (new_width, new_height).
Proof.
  intros Hin. destruct (process_videos_accounted t mfp fs) as [_ Hall].
  rewrite List.Forall_forall in Hall. specialize (Hall _ Hin).
  inversion Hall; subst.
  exists root, file, framerate, bitrate, width, height, gop, new_width, new_height.
  repeat (split; [first [reflexivity | assumption]|]). assumption.
Qed.

(** A directory under [Custom Versions] has those words in its path. *)
Lemma lies_under_custom_versions (movie_folder_path root : string) :
  lies_under (os_path_join movie_folder_path "Custom Versions") root ->
  str_in "Custom Versions" root = true.
Proof.
  induction 1 as [|dir name _ IH Hname].
  - apply str_in_join_r.
  - now apply str_in_join_l.
Qed.

(** An exception raised by the body ends the loop there. *)
Lemma for_each_raises {A} (before after : list A) (x : A) (body : A -> IO unit)
      (fs0 fs fs' : filesystem) (evs evs' : list event) (e : exn) :
  for_each before body fs0 = Outcome (ok tt) fs evs ->
  body x fs = Outcome (inl e) fs' evs' ->
  for_each (before ++ x :: after) body fs0 = Outcome (inl e) fs' (evs ++ evs').
Proof.
  intros Hbefore Hx. rewrite for_each_app. unfold bind at 1. rewrite Hbefore.
  cbn [res final events ok for_each]. unfold bind. rewrite Hx. reflexivity.
Qed.

(** The default of an absent [Width] field. *)
Lemma absent_width_reads_as_zero (track : video_track) framerate bitrate width height :
  Width track = None ->
  read_track (Probe_track track) = ok (framerate, bitrate, width, height) ->
  width = 0.
Proof.
  intros Hw H. unfold read_track in H. rewrite Hw in H. unfold ok, raise in H.
  destruct (match FrameRate track with Some r => r | None => Py.float_of_int 0 end);
    cbn [rbind] in H; [discriminate|].
  destruct (match BitRate track with Some r => r | None => inr 0 end);
    cbn [rbind] in H; [discriminate|].
  destruct (Py.int_truediv _ 1000); cbn [rbind] in H; [discriminate|].
  destruct (match Height track with Some r => r | None => inr 0 end);
    cbn [rbind] in H; [discriminate|].
  now inversion H.
Qed.

(* ================================================================= *)
(** * The properties of the specification *)

(** ** Resolution scaling *)

(** C1. A 1920x1080 source scaled to the target width 854 gets the
    height [int(1080 * (854 / 1920)) = 480] (the product is 480.375 in
    binary64): the height does not exceed the cap 480, the branch that
    refits to the vertical cap is not taken, and the result is
    (854, 480). *)
Theorem full_hd_scales_to_854_by_480 :
  fit_horizontal 1920 1080 = ok 480 /\
  (480 >? TARGET_VERTICAL_RES) = false /\
  calculate_new_resolution 1920 1080 = ok (854, 480).
Proof. vm_compute. repeat split; reflexivity. Qed.

(** C2, as stated, fails: a 1920x1 source is scaled to height
    [int(1 * (854 / 1920)) = 0], which is not positive. *)
Lemma resolution_height_can_be_zero :
  0 < 1920 /\ 0 < 1 /\
  calculate_new_resolution 1920 1 = ok (854, 0) /\ ~ 0 < snd (854, 0).
Proof. vm_compute. repeat split; try reflexivity. discriminate. Qed.

(** C2, amended.  For every positive width and height, whenever
    [calculate_new_resolution] returns, the returned width is between 0
    and 854 and the returned height between 0 and 480; and it does
    return when both dimensions are below [2^1000] (beyond, the
    conversions to float can raise [OverflowError]). *)
Theorem calculate_new_resolution_bounds (width height : Z) :
  0 < width -> 0 < height ->
  (forall new_width new_height,
     calculate_new_resolution width height = ok (new_width, new_height) ->
     0 <= new_width <= 854 /\ 0 <= new_height <= 480) /\
  (width < 2 ^ 1000 -> height < 2 ^ 1000 ->
   exists new_width new_height,
     calculate_new_resolution width height = ok (new_width, new_height)).
Proof.
  intros Hw Hh. split.
  - intros new_width new_height H. unfold calculate_new_resolution in H.
    destruct (fit_horizontal width height) as [?|z1] eqn:H1; [discriminate|].
    cbn [rbind] in H.
    destruct (fit_horizontal_bound width height z1 Hw Hh H1) as [Hz1 Hb1].
    unfold TARGET_VERTICAL_RES, TARGET_HORIZONTAL_RES in H.
    destruct (Z.gtb_spec z1 480) as [Hgt|Hle].
    + destruct (fit_vertical width height) as [?|z2] eqn:H2; [discriminate|].
      cbn [rbind] in H. inversion H; subst new_width new_height. clear H.
      destruct (fit_vertical_bound width height z2 Hw Hh H2) as [Hz2 Hb2].
      split; [|lia]. split; [exact Hz2|].
      destruct Hb1 as [Hb1|Hb1]; [lia|].
      destruct Hb2 as [Hb2|Hb2]; [lia|].
      (* 481 w <= z1 w <= 854.854 h   and   z2 h <= 480.48 w *)
      destruct (Z_le_gt_dec z2 854) as [|Hbig]; [assumption|exfalso].
      assert (1000 * (855 * height) <= 1001 * (480 * width)) by nia.
      assert (1000 * (481 * width) <= 1001 * (854 * height)) by nia.
      lia.
    + inversion H; subst new_width new_height. lia.
  - intros Hwb Hhb. unfold calculate_new_resolution.
    destruct (fit_horizontal_total width height Hw (conj Hh Hhb)) as [z1 ->].
    cbv beta iota zeta delta [rbind ok].
    destruct (z1 >? TARGET_VERTICAL_RES); [|eexists _, _; reflexivity].
    destruct (fit_vertical_total width height (conj Hw Hwb) Hh) as [z2 ->].
    cbv beta iota delta [ok]. eexists _, _; reflexivity.
Qed.

Lemma calculate_new_resolution_bounds_witness :
  (forall new_width new_height,
     calculate_new_resolution 1080 1920 = ok (new_width, new_height) ->
     0 <= new_width <= 854 /\ 0 <= new_height <= 480) /\
  (1080 < 2 ^ 1000 -> 1920 < 2 ^ 1000 ->
   exists new_width new_height,
     calculate_new_resolution 1080 1920 = ok (new_width, new_height)).
Proof. apply (calculate_new_resolution_bounds 1080 1920); lia. Defined.

(** ** Keyframe interval *)

(** C6. The keyframe interval is [int(framerate * 0.5)]: for every
    finite frame rate it is the exact half of the frame rate, truncated
    toward zero; it is 12 for the frame rate 24 and 14 for the frame
    rate 29.97. *)
Theorem gop_size_is_half_the_frame_rate_truncated :
  (forall framerate,
     finite_float framerate ->
     gop_size framerate = ok (Qtrunc (fval framerate * (1 # 2)))) /\
  gop_size (Py.float_of_decimal 24 0) = ok 12 /\
  gop_size (Py.float_of_decimal 2997 2) = ok 14.
Proof.
  split; [exact gop_size_exact|]. vm_compute. split; reflexivity.
Qed.

(** ** Which files are processed *)



(** C4. A candidate whose output file already exists is skipped before
    it is probed.  If the output exists when [process_videos] starts,
    then at every later moment handling the candidate does nothing at
    all (no probe, no encode, no write); the run leaves the existing
    output as it is; and every probe and every encode of the run is
    for a video file that the walk of the title folder lists, outside
    [Custom Versions], under another name, and no encode writes to the
    existing output. *)
Theorem existing_output_is_skipped (t : tools) (movie_folder_path file : string)
        (existing : node) (fs0 : filesystem) :
  fs0 !! os_path_join (output_directory movie_folder_path) file = Some existing ->
  (forall root fs,
     fs0 ⊆ fs ->
     process_file t (output_directory movie_folder_path) root file fs = Outcome (ok tt) fs []) /\
  (let o := process_videos t movie_folder_path fs0 in
   final o !! os_path_join (output_directory movie_folder_path) file = Some existing /\
   (forall p, In (Run_mediainfo p) (events o) ->
      exists root file',
        p = os_path_join root file' /\
        walk_candidates t movie_folder_path root file' /\
        is_video_file file' = true /\ file' <> file) /\
   (forall command, In (Run_ffmpeg command) (events o) ->
      command_output command <> os_path_join (output_directory movie_folder_path) file /\
      exists root file',
        command_input command = os_path_join root file' /\
        command_output command = os_path_join (output_directory movie_folder_path) file' /\
        walk_candidates t movie_folder_path root file' /\
        is_video_file file' = true /\ file' <> file)).
Proof.
  intros Hex. split.
  - intros root fs Hsub. rewrite process_file_unfold. cbv zeta.
    destruct (is_video_file file); [|reflexivity].
    now rewrite (lookup_weaken _ _ _ _ Hex Hsub).
  - cbv zeta. destruct (process_videos_accounted t movie_folder_path fs0) as [Hsub _].
    split; [exact (lookup_weaken _ _ _ _ Hex Hsub)|]. split.
    + intros p Hin.
      destruct (probe_has_reason t movie_folder_path fs0 p Hin) as (r & f & -> & Hc & Hv & Hnone).
      exists r, f. repeat split; try assumption; try apply Hc. intros ->. congruence.
    + intros command Hin.
      destruct (encode_has_reason t movie_folder_path fs0 command Hin)
        as (r & f & fr & br & w & h & gop & nw & nh & -> & Hc & Hv & Hnone & _).
      rewrite command_output_ffmpeg_command, command_input_ffmpeg_command. split.
      * intros Heq. rewrite Heq in Hnone. congruence.
      * exists r, f. repeat split; try assumption; try apply Hc. intros ->. congruence.
Qed.

Lemma existing_output_is_skipped_witness :
  process_file example_tools (output_directory "lib/Film") "lib/Film" "old.mp4" example_fs
  = Outcome (ok tt) example_fs [].
Proof.
  assert (H1 : example_fs !! os_path_join (output_directory "lib/Film") "old.mp4"
               = Some (File "converted"))
    by (vm_compute; reflexivity).
  exact (proj1 (existing_output_is_skipped example_tools "lib/Film" "old.mp4" _ example_fs H1)
               "lib/Film"%string example_fs (reflexivity _)).
Defined.

(** C5. No file of a directory under a title's [Custom Versions]
    folder is a candidate: the path of such a directory contains the
    words "Custom Versions", the body of the outer loop does nothing on
    it, and every probe and every encode of a run is for a file of a
    directory that does not lie under [Custom Versions]. *)
Theorem output_subfolder_is_never_processed (t : tools) (movie_folder_path : string) :
  let custom_versions := os_path_join movie_folder_path "Custom Versions" in
  (forall root, lies_under custom_versions root -> str_in "Custom Versions" root = true) /\
  (forall root dirs files custom_versions_path fs,
     lies_under custom_versions root ->
     process_directory t custom_versions_path (root, dirs, files) fs = Outcome (ok tt) fs []) /\
  (forall fs p,
     In (Run_mediainfo p) (events (process_videos t movie_folder_path fs)) ->
     exists root file,
       p = os_path_join root file /\ walk_candidates t movie_folder_path root file /\
       ~ lies_under custom_versions root) /\
  (forall fs command,
     In (Run_ffmpeg command) (events (process_videos t movie_folder_path fs)) ->
     exists root file,
       command_input command = os_path_join root file /\
       walk_candidates t movie_folder_path root file /\
       ~ lies_under custom_versions root).
Proof.
  cbv zeta. split; [|split; [|split]].
  - intros root. apply lies_under_custom_versions.
  - intros root dirs files cvp fs Hunder. unfold process_directory.
    now rewrite (lies_under_custom_versions _ _ Hunder).
  - intros fs p Hin.
    destruct (probe_has_reason t movie_folder_path fs p Hin) as (r & f & -> & Hc & _).
    exists r, f. split; [reflexivity|]. split; [exact Hc|].
    intros Hunder. apply lies_under_custom_versions in Hunder.
    destruct Hc as [Hcv _]. congruence.
  - intros fs command Hin.
    destruct (encode_has_reason t movie_folder_path fs command Hin)
      as (r & f & fr & br & w & h & gop & nw & nh & -> & Hc & _).
    exists r, f. split; [reflexivity|]. split; [exact Hc|].
    intros Hunder. apply lies_under_custom_versions in Hunder.
    destruct Hc as [Hcv _]. congruence.
Qed.

(** C9. [is_video_file] accepts exactly the names that end in one of
    the four extensions, compared character by character; a name
    ending in [.MP4] is not accepted, handling it does nothing, and
    every probe and every encode of a run is for an accepted name. *)
Theorem is_video_file_is_case_sensitive :
  (forall filename,
     is_video_file filename = true <->
     exists stem ext,
       In ext [".mp4"; ".mkv"; ".webm"; ".avi"]%string /\ filename = (stem ++ ext)%string) /\
  (forall stem, is_video_file (stem ++ ".MP4") = false) /\
  (forall t custom_versions_path root file fs,
     is_video_file file = false ->
     process_file t custom_versions_path root file fs = Outcome (ok tt) fs []) /\
  (forall t movie_folder_path fs p,
     In (Run_mediainfo p) (events (process_videos t movie_folder_path fs)) ->
     exists root file, p = os_path_join root file /\ is_video_file file = true) /\
  (forall t movie_folder_path fs command,
     In (Run_ffmpeg command) (events (process_videos t movie_folder_path fs)) ->
     exists root file,
       command_input command = os_path_join root file /\ is_video_file file = true).
Proof.
  assert (Hiff : forall filename,
     is_video_file filename = true <->
     exists stem ext,
       In ext [".mp4"; ".mkv"; ".webm"; ".avi"]%string /\ filename = (stem ++ ext)%string).
  { intros filename. unfold is_video_file. rewrite existsb_exists. split.
    - intros (ext & Hext & Hend). apply endswith_spec in Hend. destruct Hend as [stem ->].
      now exists stem, ext.
    - intros (stem & ext & Hext & ->). exists ext. split; [exact Hext | apply endswith_app]. }
  split; [exact Hiff|]. split; [|split; [|split]].
  - intros stem. destruct (is_video_file (stem ++ ".MP4")) eqn:Hv; [exfalso|reflexivity].
    apply Hiff in Hv. destruct Hv as (stem' & ext & Hext & Heq).
    assert (H1 : endswith (stem ++ ".MP4") ".MP4" = true) by apply endswith_app.
    assert (H2 : endswith (stem ++ ".MP4") ext = true) by (rewrite Heq; apply endswith_app).
    destruct (endswith_nested _ _ _ H1 H2) as [H|H];
      cbn [In] in Hext; destruct Hext as [<-|[<-|[<-|[<-|[]]]]]; vm_compute in H; discriminate.
  - intros t cvp root file fs Hv. rewrite process_file_unfold. cbv zeta. now rewrite Hv.
  - intros t mfp fs p Hin.
    destruct (probe_has_reason t mfp fs p Hin) as (r & f & -> & _ & Hv & _). now exists r, f.
  - intros t mfp fs command Hin.
    destruct (encode_has_reason t mfp fs command Hin)
      as (r & f & fr & br & w & h & gop & nw & nh & -> & _ & Hv & _). now exists r, f.
Qed.

(** ** Errors *)

(** C8. A non-zero exit of [ffmpeg] is caught nowhere.  If a run of
    [process_videos] or of [main] runs a command on which [ffmpeg]
    exits with a non-zero status, then the run ends with
    [CalledProcessError] for that status, and that command is the last
    thing the run did: no file is processed after it. *)
Theorem failed_encode_aborts_the_run (t : tools) (command : list string)
        (returncode : Z) (written : option string) :
  ffmpeg t command = Ffmpeg_exit returncode written ->
  returncode <> 0 ->
  (forall movie_folder_path fs,
     let o := process_videos t movie_folder_path fs in
     In (Run_ffmpeg command) (events o) ->
     res o = raise (CalledProcessError returncode) /\
     exists before, events o = before ++ [Run_ffmpeg command]) /\
  (forall arg_plex_library_path fs,
     let o := main t arg_plex_library_path fs in
     In (Run_ffmpeg command) (events o) ->
     res o = raise (CalledProcessError returncode) /\
     exists before, events o = before ++ [Run_ffmpeg command]).
Proof.
  intros Hff Hrc.
  assert (Herr : ffmpeg_error t command = Some (CalledProcessError returncode)).
  { unfold ffmpeg_error. rewrite Hff. now destruct (Z.eqb_spec returncode 0). }
  split.
  - intros mfp fs o Hin.
    exact (failed_encode_is_last t o command _ (stops_process_videos t mfp fs) Hin Herr).
  - intros arg fs o Hin.
    exact (failed_encode_is_last t o command _ (stops_main t arg fs) Hin Herr).
Qed.

Lemma failed_encode_aborts_the_run_witness :
  let command :=
    ffmpeg_command "lib/Film/a.mp4" "a.mp4" 11 854 480 "lib/Film/Custom Versions/1Mbps/a.mp4" in
  let o := main failing_tools "lib" example_fs in
  res o = raise (CalledProcessError 1) /\
  exists before, events o = before ++ [Run_ffmpeg command].
Proof.
  intros command o.
  refine (proj2 (failed_encode_aborts_the_run failing_tools command 1 None _ _)
                "lib"%string example_fs _).
  - reflexivity.
  - discriminate.
  - vm_compute. right. left. reflexivity.
Defined.


(* ================================================================= *)
(** * Blocks of events *)

Lemma blocks_app (t : tools) (evs1 evs2 : list event) :
  blocks t evs1 -> blocks t evs2 -> blocks t (evs1 ++ evs2).
Proof.
  induction 1 as [|b evs Hb _ IH]; intros H2; [exact H2|].
  rewrite <- app_assoc. constructor; [exact Hb | now apply IH].
Qed.

Lemma blocks_one (t : tools) (b : list event) : file_block t b -> blocks t b.
Proof.
  intros H. rewrite <- (app_nil_r b). constructor; [exact H | constructor].
Qed.

(* ================================================================= *)
(** * The script on a console that can refuse a message *)

Section Console.
Context (c : console) (t : tools).

(** One file, step by step, in the order the script takes its
    decisions. *)
Lemma printing_process_file_unfold (cvp root file : string) (fs : filesystem) :
  Printing.process_file c t cvp root file fs =
  let input_file := os_path_join root file in
  let output_file := os_path_join cvp file in
  if is_video_file file then
    match fs !! output_file with
    | Some _ => Outcome (ok tt) fs []
    | None =>
        match read_track (mediainfo t input_file) with
        | inl e =>
            match refuses c (Print_probe_error input_file e) with
            | Some x => Outcome (raise x) fs [Run_mediainfo input_file]
            | None =>
                match refuses c (Print_skipping input_file) with
                | Some x =>
                    Outcome (raise x) fs
                      [Run_mediainfo input_file; Print_probe_error input_file e]
                | None =>
                    Outcome (ok tt) fs
                      [Run_mediainfo input_file; Print_probe_error input_file e;
                       Print_skipping input_file]
                end
            end
        | inr (framerate, bitrate, width, height) =>
            if Py.float_lt_int bitrate VIDEO_BITRATE then
              match refuses c (Print_skipping input_file) with
              | Some x => Outcome (raise x) fs [Run_mediainfo input_file]
              | None => Outcome (ok tt) fs [Run_mediainfo input_file; Print_skipping input_file]
              end
            else
              match gop_size framerate with
              | inl e => Outcome (inl e) fs [Run_mediainfo input_file]
              | inr gop =>
                  match calculate_new_resolution width height with
                  | inl e => Outcome (inl e) fs [Run_mediainfo input_file]
                  | inr (new_width, new_height) =>
                      let command :=
                        ffmpeg_command input_file file gop new_width new_height output_file in
                      match ffmpeg t command with
                      | Ffmpeg_not_run e =>
                          Outcome (inl e) fs [Run_mediainfo input_file; Run_ffmpeg command]
                      | Ffmpeg_exit returncode written =>
                          Outcome
                            (if returncode =? 0 then ok tt
                             else raise (CalledProcessError returncode))
                            (match written with
                             | Some data => <[output_file := File data]> fs
                             | None => fs
                             end)
                            [Run_mediainfo input_file; Run_ffmpeg command]
                      end
                  end
              end
        end
    end
  else Outcome (ok tt) fs [].
Proof.
  cbv zeta. unfold Printing.process_file.
  destruct (is_video_file file); [|reflexivity].
  unfold Printing.get_video_info, Printing.print.
  cbn [bind emit ret lift throw ok raise res final events app os_path_exists].
  destruct (fs !! os_path_join cvp file); [reflexivity|].
  cbn [bind emit ret lift throw ok raise res final events app].
  destruct (read_track (mediainfo t (os_path_join root file))) as [e|[[[fr br] w] h]].
  - cbn [bind emit ret lift throw ok raise res final events app].
    destruct (refuses c (Print_probe_error (os_path_join root file) e));
      cbn [bind emit ret lift throw ok raise res final events app]; [reflexivity|].
    destruct (refuses c (Print_skipping (os_path_join root file))); reflexivity.
  - cbn [bind emit ret lift throw ok raise res final events app].
    destruct (Py.float_lt_int br VIDEO_BITRATE).
    { destruct (refuses c (Print_skipping (os_path_join root file))); reflexivity. }
    destruct (gop_size fr) as [e|gop]; [reflexivity|].
    cbn [bind emit ret lift throw ok raise res final events app].
    destruct (calculate_new_resolution w h) as [e|[nw nh]]; [reflexivity|].
    cbn [bind emit ret lift throw ok raise res final events app]. unfold run_ffmpeg.
    destruct (ffmpeg t _) as [e|rc written]; reflexivity.
Qed.

Lemma shape_pure {A} (o : outcome A) (a : A) :
  res o = ok a -> events o = [] -> run_shape c t o.
Proof.
  intros Hr He. unfold run_shape. rewrite Hr, He. constructor.
Qed.

Lemma shape_bind {A B} (m : IO A) (k : A -> IO B) fs :
  run_shape c t (m fs) ->
  (forall a fs', run_shape c t (k a fs')) ->
  run_shape c t (bind m k fs).
Proof.
  intros Hm Hk. unfold bind. unfold run_shape in Hm.
  destruct (res (m fs)) as [e|a] eqn:Hres.
  - unfold run_shape. cbn [res events]. exact Hm.
  - specialize (Hk a (final (m fs))). unfold run_shape in *.
    cbn [res events]. destruct (res (k a (final (m fs)))) as [e|b].
    + destruct Hk as (pre & tail & Hev & Hpre & Htail).
      exists (events (m fs) ++ pre), tail. rewrite Hev, app_assoc.
      split; [reflexivity|]. split; [now apply blocks_app | exact Htail].
    + now apply blocks_app.
Qed.

Lemma shape_for_each {A} (l : list A) (body : A -> IO unit) fs :
  (forall x fs', run_shape c t (body x fs')) ->
  run_shape c t (for_each l body fs).
Proof.
  intros H. revert fs. induction l as [|x l IH]; intros fs; cbn [for_each].
  - now apply (shape_pure _ tt).
  - apply shape_bind; [apply H|]. intros _ fs'. apply IH.
Qed.

Lemma shape_ensure_exists p fs :
  run_shape c t ((let* present := os_path_exists p in
                  if negb present then os_makedirs p else ret tt) fs).
Proof.
  apply shape_bind; [now eapply shape_pure|].
  intros [|] fs'; cbn [negb]; now apply (shape_pure _ tt).
Qed.

Lemma shape_process_file cvp root file fs :
  run_shape c t (Printing.process_file c t cvp root file fs).
Proof.
  rewrite printing_process_file_unfold. cbv zeta.
  destruct (is_video_file file); [|now apply (shape_pure _ tt)].
  destruct (fs !! os_path_join cvp file); [now apply (shape_pure _ tt)|].
  set (input := os_path_join root file).
  destruct (read_track (mediainfo t input)) as [e|[[[fr br] w] h]] eqn:Hread.
  { destruct (refuses c (Print_probe_error input e)) as [x|] eqn:Hp1.
    { unfold run_shape. cbn [res events raise]. exists [], [Run_mediainfo input].
      split; [reflexivity|]. split; [constructor|].
      eapply tail_error_message_refused; eassumption. }
    destruct (refuses c (Print_skipping input)) as [x|] eqn:Hp2.
    { unfold run_shape. cbn [res events raise].
      exists [], [Run_mediainfo input; Print_probe_error input e].
      split; [reflexivity|]. split; [constructor|].
      now apply tail_skip_message_refused_after_error. }
    unfold run_shape. cbn [res events ok]. apply blocks_one. now constructor. }
  destruct (Py.float_lt_int br VIDEO_BITRATE) eqn:Hlow.
  { destruct (refuses c (Print_skipping input)) as [x|] eqn:Hp2.
    { unfold run_shape. cbn [res events raise]. exists [], [Run_mediainfo input].
      split; [reflexivity|]. split; [constructor|].
      eapply tail_skip_message_refused; eassumption. }
    unfold run_shape. cbn [res events ok]. apply blocks_one.
    eapply block_skipped; eassumption. }
  destruct (gop_size fr) as [e|gop] eqn:Hgop.
  { unfold run_shape. cbn [res events]. exists [], [Run_mediainfo input].
    split; [reflexivity|]. split; [constructor|].
    eapply tail_computing; [exact Hread | exact Hlow | now left]. }
  destruct (calculate_new_resolution w h) as [e|[nw nh]] eqn:Hres.
  { unfold run_shape. cbn [res events]. exists [], [Run_mediainfo input].
    split; [reflexivity|]. split; [constructor|].
    eapply tail_computing; [exact Hread | exact Hlow | right].
    split; [now exists gop | exact Hres]. }
  set (command := ffmpeg_command _ _ _ _ _ _).
  assert (Hin : command_input command = input) by reflexivity.
  destruct (ffmpeg t command) as [e|rc written] eqn:Hff; unfold run_shape; cbn [res events].
  - exists [], [Run_mediainfo input; Run_ffmpeg command].
    split; [reflexivity|]. split; [constructor|].
    eapply tail_encoding; try eassumption. unfold ffmpeg_error. now rewrite Hff.
  - destruct (Z.eqb_spec rc 0) as [Hz|Hnz]; cbn [ok raise].
    + apply blocks_one. eapply block_encoded; try eassumption.
      unfold ffmpeg_error. rewrite Hff. now destruct (Z.eqb_spec rc 0).
    + exists [], [Run_mediainfo input; Run_ffmpeg command].
      split; [reflexivity|]. split; [constructor|].
      eapply tail_encoding; try eassumption. unfold ffmpeg_error. rewrite Hff.
      now destruct (Z.eqb_spec rc 0).
Qed.

Lemma shape_process_videos movie_folder_path fs :
  run_shape c t (Printing.process_videos c t movie_folder_path fs).
Proof.
  unfold Printing.process_videos. apply shape_bind; [apply shape_ensure_exists|].
  intros _ fs'. apply shape_for_each. intros [[root dirs] files] fs''.
  unfold Printing.process_directory. destruct (str_in _ root); [now apply (shape_pure _ tt)|].
  apply shape_for_each. intros file fs3. apply shape_process_file.
Qed.

Lemma shape_ensure_custom_versions_folder movie_folder_path fs :
  run_shape c t (ensure_custom_versions_folder movie_folder_path fs).
Proof.
  unfold ensure_custom_versions_folder.
  apply shape_bind; [apply shape_ensure_exists|].
  intros _ fs'. apply shape_ensure_exists.
Qed.

(** The loop of [main] over the entries of the library. *)
Lemma shape_main_loop plex_library_path fs :
  run_shape c t
    (for_each (os_listdir t plex_library_path) (fun movie_folder =>
       let movie_folder_path := os_path_join plex_library_path movie_folder in
       let* is_dir := os_path_isdir movie_folder_path in
       if negb is_dir then ret tt
       else
         ensure_custom_versions_folder movie_folder_path ;;
         Printing.process_videos c t movie_folder_path) fs).
Proof.
  apply shape_for_each. intros movie_folder fs'. cbv zeta.
  apply shape_bind; [now eapply shape_pure|].
  intros [|] fs''; cbn [negb]; [|now apply (shape_pure _ tt)].
  apply shape_bind; [apply shape_ensure_custom_versions_folder|].
  intros _ fs3. apply shape_process_videos.
Qed.

(** [main], by cases: the library is missing; the loop raises; the
    loop returns and the last message is refused or printed. *)
Lemma printing_main_unfold (arg_plex_library_path : string) (fs : filesystem) :
  Printing.main c t arg_plex_library_path fs =
  let plex_library_path := os_path_expanduser t arg_plex_library_path in
  match fs !! plex_library_path with
  | None =>
      match refuses c Print_path_missing with
      | Some x => Outcome (raise x) fs []
      | None => Outcome (ok tt) fs [Print_path_missing]
      end
  | Some _ =>
      let o := for_each (os_listdir t plex_library_path) (fun movie_folder =>
                 let movie_folder_path := os_path_join plex_library_path movie_folder in
                 let* is_dir := os_path_isdir movie_folder_path in
                 if negb is_dir then ret tt
                 else
                   ensure_custom_versions_folder movie_folder_path ;;
                   Printing.process_videos c t movie_folder_path) fs in
      match res o with
      | inl e => Outcome (inl e) (final o) (events o)
      | inr _ =>
          match refuses c Print_complete with
          | Some x => Outcome (raise x) (final o) (events o)
          | None => Outcome (ok tt) (final o) (events o ++ [Print_complete])
          end
      end
  end.
Proof.
  cbv zeta. unfold Printing.main. cbv zeta.
  set (path := os_path_expanduser t arg_plex_library_path).
  set (loop := for_each (os_listdir t path) _).
  destruct (fs !! path) as [n|] eqn:Hp.
  - assert (Hex : os_path_exists path fs = Outcome (ok true) fs [])
      by (unfold os_path_exists; now rewrite Hp).
    rewrite (bind_returns _ _ fs true) by now rewrite Hex.
    rewrite Hex. cbn [res final events negb app].
    unfold bind. destruct (res (loop fs)) as [e|[]]; cbn [res final events]; [reflexivity|].
    unfold Printing.print. destruct (refuses c Print_complete);
      cbn [res final events]; [now rewrite app_nil_r | reflexivity].
  - assert (Hex : os_path_exists path fs = Outcome (ok false) fs [])
      by (unfold os_path_exists; now rewrite Hp).
    rewrite (bind_returns _ _ fs false) by now rewrite Hex.
    rewrite Hex. cbn [res final events negb app].
    unfold Printing.print. destruct (refuses c Print_path_missing); reflexivity.
Qed.
End Console.

(* ================================================================= *)
(** * The console that takes every message *)

Lemma for_each_ext {A} (l : list A) (body body' : A -> IO unit) (fs : filesystem) :
  (forall x fs', body x fs' = body' x fs') ->
  for_each l body fs = for_each l body' fs.
Proof.
  intros H. revert fs. induction l as [|x l IH]; intros fs; cbn [for_each]; [reflexivity|].
  unfold bind. rewrite H. destruct (res (body' x fs)); [reflexivity|]. now rewrite IH.
Qed.

Lemma bind_cong {A B} (m m' : IO A) (k k' : A -> IO B) (fs : filesystem) :
  m fs = m' fs -> (forall a fs', k a fs' = k' a fs') -> bind m k fs = bind m' k' fs.
Proof.
  intros Hm Hk. unfold bind. rewrite Hm. destruct (res (m' fs)); [reflexivity|].
  now rewrite Hk.
Qed.

Section Quiet.
Context (c : console) (t : tools) (Hquiet : forall message, refuses c message = None).

Lemma printing_process_file_quiet cvp root file fs :
  Printing.process_file c t cvp root file fs = process_file t cvp root file fs.
Proof.
  rewrite printing_process_file_unfold, process_file_unfold. cbv zeta.
  rewrite !Hquiet.
  destruct (is_video_file file); [|reflexivity].
  destruct (fs !! os_path_join cvp file); [reflexivity|].
  destruct (read_track _) as [e|[[[fr br] w] h]]; [now rewrite Hquiet | reflexivity].
Qed.

Lemma printing_process_videos_quiet movie_folder_path fs :
  Printing.process_videos c t movie_folder_path fs = process_videos t movie_folder_path fs.
Proof.
  unfold Printing.process_videos, process_videos. apply bind_ext. intros _ fs'.
  apply for_each_ext. intros [[root dirs] files] fs''.
  unfold Printing.process_directory, process_directory.
  destruct (str_in _ root); [reflexivity|].
  apply for_each_ext. intros file fs3. apply printing_process_file_quiet.
Qed.

Lemma printing_main_quiet arg_plex_library_path fs :
  Printing.main c t arg_plex_library_path fs = main t arg_plex_library_path fs.
Proof.
  unfold Printing.main, main. cbv zeta. apply bind_ext. intros [|] fs'; cbn [negb].
  - apply bind_cong.
    + apply for_each_ext. intros movie_folder fs''. apply bind_ext.
      intros [|] fs3; cbn [negb]; [|reflexivity].
      apply bind_ext. intros _ fs4. apply printing_process_videos_quiet.
    + intros _ fs''. unfold Printing.print, emit. now rewrite Hquiet.
  - unfold Printing.print, emit. now rewrite Hquiet.
Qed.
End Quiet.

(* ================================================================= *)
(** * Where the probe of a file stands among the events *)

(** A probe among blocks followed by a tail heads a block, or stands in
    the tail. *)
Lemma probe_in_trace (t : tools) (evs tail : list event) (input : string) :
  blocks t evs ->
  forall pre post,
    evs ++ tail = pre ++ Run_mediainfo input :: post ->
    (exists b rest, file_block t (Run_mediainfo input :: b) /\ post = b ++ rest) \/
    (exists pre', tail = pre' ++ Run_mediainfo input :: post).
Proof.
  induction 1 as [|b evs Hb _ IH]; intros pre post Heq.
  - right. now exists pre.
  - rewrite <- app_assoc in Heq.
    assert (Hnext : forall pre1, evs ++ tail = pre1 ++ Run_mediainfo input :: post ->
              (exists b rest, file_block t (Run_mediainfo input :: b) /\ post = b ++ rest) \/
              (exists pre', tail = pre' ++ Run_mediainfo input :: post))
      by (intros pre1; apply IH).
    pose proof Hb as Hb'.
    destruct Hb as [i e Hr | i fr br w h Hr Hl | i fr br w h gop nw nh cmd Hr Hl Hg Hc Hi Hf];
      cbn [app] in Heq.
    + destruct pre as [|p1 pre]; cbn [app] in Heq; inversion Heq; subst.
      { left. eexists _, _. split; [exact Hb' | reflexivity]. }
      destruct pre as [|p2 pre]; cbn [app] in *; [discriminate|].
      match goal with H : _ :: _ = _ :: _ |- _ => inversion H; subst; clear H end.
      destruct pre as [|p3 pre]; cbn [app] in *; [discriminate|].
      match goal with H : _ :: _ = _ :: _ |- _ => inversion H; subst; clear H end.
      eapply Hnext; eassumption.
    + destruct pre as [|p1 pre]; cbn [app] in Heq; inversion Heq; subst.
      { left. eexists _, _. split; [exact Hb' | reflexivity]. }
      destruct pre as [|p2 pre]; cbn [app] in *; [discriminate|].
      match goal with H : _ :: _ = _ :: _ |- _ => inversion H; subst; clear H end.
      eapply Hnext; eassumption.
    + destruct pre as [|p1 pre]; cbn [app] in Heq; inversion Heq; subst.
      { left. eexists _, _. split; [exact Hb' | reflexivity]. }
      destruct pre as [|p2 pre]; cbn [app] in *; [discriminate|].
      match goal with H : _ :: _ = _ :: _ |- _ => inversion H; subst; clear H end.
      eapply Hnext; eassumption.
Qed.

(** An encode among blocks is of a file whose probe succeeded. *)
Lemma encode_in_blocks (t : tools) (evs : list event) (command : list string) :
  blocks t evs -> In (Run_ffmpeg command) evs ->
  exists framerate bitrate width height new_width new_height,
    read_track (mediainfo t (command_input command)) = ok (framerate, bitrate, width, height) /\
    calculate_new_resolution width height = ok (new_width, new_height).
Proof.
  induction 1 as [|b evs Hb _ IH]; intros Hin; [destruct Hin|].
  apply in_app_or in Hin. destruct Hin as [Hin|Hin]; [|now apply IH].
  destruct Hb as [i e Hr | i fr br w h Hr Hl | i fr br w h gop nw nh cmd Hr Hl Hg Hc Hi Hf].
  - destruct Hin as [H|[H|[H|[]]]]; discriminate.
  - destruct Hin as [H|[H|[]]]; discriminate.
  - destruct Hin as [H|[H|[]]]; [discriminate|]. inversion H; subst.
    now exists fr, br, w, h, nw, nh.
Qed.

Lemma encode_in_tail (c : console) (t : tools) (e : exn) (tail : list event)
      (command : list string) :
  abort_tail c t e tail -> In (Run_ffmpeg command) tail ->
  exists framerate bitrate width height new_width new_height,
    read_track (mediainfo t (command_input command)) = ok (framerate, bitrate, width, height) /\
    calculate_new_resolution width height = ok (new_width, new_height).
Proof.
  intros Ht Hin.
  destruct Ht as [i fr br w h Hr Hl Hw | i fr br w h gop nw nh cmd Hr Hl Hg Hc Hi Hf
                 | i e0 Hr Hp | i e0 Hr Hp1 Hp2 | i fr br w h Hr Hl Hp].
  - destruct Hin as [H|[]]; discriminate.
  - destruct Hin as [H|[H|[]]]; [discriminate|]. inversion H; subst.
    now exists fr, br, w, h, nw, nh.
  - destruct Hin as [H|[]]; discriminate.
  - destruct Hin as [H|[H|[]]]; discriminate.
  - destruct Hin as [H|[]]; discriminate.
Qed.

(** A skip message among blocks is about a file whose probe failed
    or reported a bitrate below the threshold. *)
Lemma skip_in_blocks (t : tools) (evs : list event) (input : string) :
  blocks t evs -> In (Print_skipping input) evs -> skipped_by_probe t input.
Proof.
  induction 1 as [|b evs Hb _ IH]; intros Hin; [destruct Hin|].
  apply in_app_or in Hin. destruct Hin as [Hin|Hin]; [|now apply IH].
  unfold skipped_by_probe.
  destruct Hb as [i e Hr | i fr br w h Hr Hl | i fr br w h gop nw nh cmd Hr Hl Hg Hc Hi Hf].
  - destruct Hin as [H|[H|[H|[]]]]; try discriminate. inversion H; subst.
    unfold raise in Hr. now rewrite Hr.
  - destruct Hin as [H|[H|[]]]; try discriminate. inversion H; subst.
    unfold ok in Hr. now rewrite Hr.
  - destruct Hin as [H|[H|[]]]; discriminate.
Qed.

(* ================================================================= *)
(** * A failed probe, and a probe that reports no width, in a run *)

Lemma failed_probe_is_followed (c : console) (t : tools) (input : string) (e : exn)
      (evs tail pre post : list event) :
  read_track (mediainfo t input) = raise e ->
  refuses c (Print_probe_error input e) = None ->
  refuses c (Print_skipping input) = None ->
  blocks t evs -> run_end c t tail ->
  evs ++ tail = pre ++ Run_mediainfo input :: post ->
  exists post', post = Print_probe_error input e :: Print_skipping input :: post'.
Proof.
  intros Hread Hp1 Hp2 Hb Hend Heq. unfold raise in Hread.
  destruct (probe_in_trace t evs tail input Hb pre post Heq) as [(b & rest & Hblock & ->)|(pre' & Ht)].
  - inversion Hblock; subst.
    + match goal with H : read_track _ = raise _ |- _ => unfold raise in H; rewrite Hread in H;
        inversion H; subst end.
      now eexists.
    + match goal with H : read_track _ = ok _ |- _ => unfold ok in H; rewrite Hread in H;
        discriminate H end.
    + match goal with H : read_track _ = ok _ |- _ => unfold ok in H; rewrite Hread in H;
        discriminate H end.
  - exfalso. destruct Hend as [->|[->|[x Hx]]].
    + now destruct pre'.
    + destruct pre' as [|? [|? ?]]; discriminate Ht.
    + destruct Hx as [i fr br w h Hr Hl Hw | i fr br w h gop nw nh cmd Hr Hl Hg Hc Hi Hf
                     | i e0 Hr Hq | i e0 Hr Hq1 Hq2 | i fr br w h Hr Hl Hq];
        unfold ok, raise in Hr;
        (destruct pre' as [|? [|? [|? ?]]]; cbn [app] in Ht; inversion Ht; subst);
        rewrite Hread in Hr; try discriminate Hr; inversion Hr; subst; congruence.
Qed.

Lemma no_encode_of_failed_probe (c : console) (t : tools) (input : string) (e : exn)
      (evs tail : list event) (command : list string) :
  read_track (mediainfo t input) = raise e ->
  blocks t evs -> run_end c t tail ->
  In (Run_ffmpeg command) (evs ++ tail) ->
  command_input command <> input.
Proof.
  intros Hread Hb Hend Hin Heq. unfold raise in Hread.
  apply in_app_or in Hin. destruct Hin as [Hin|Hin].
  - destruct (encode_in_blocks t evs command Hb Hin) as (fr & br & w & h & nw & nh & Hr & _).
    rewrite Heq in Hr. unfold ok in Hr. congruence.
  - destruct Hend as [->|[->|[x Hx]]].
    + destruct Hin.
    + destruct Hin as [H|[]]; discriminate.
    + destruct (encode_in_tail c t x tail command Hx Hin) as (fr & br & w & h & nw & nh & Hr & _).
      rewrite Heq in Hr. unfold ok in Hr. congruence.
Qed.

(** What the events of the runs are made of. *)
Lemma process_videos_trace (c : console) (t : tools) (movie_folder_path : string)
      (fs : filesystem) :
  exists evs tail,
    events (Printing.process_videos c t movie_folder_path fs) = evs ++ tail /\
    blocks t evs /\ run_end c t tail /\
    match res (Printing.process_videos c t movie_folder_path fs) with
    | inr _ => tail = []
    | inl e => abort_tail c t e tail
    end.
Proof.
  pose proof (shape_process_videos c t movie_folder_path fs) as H. unfold run_shape in H.
  destruct (res _) as [e|a].
  - destruct H as (pre & tail & Hev & Hpre & Htail).
    exists pre, tail. repeat split; try assumption. right. right. now exists e.
  - exists (events (Printing.process_videos c t movie_folder_path fs)), [].
    rewrite app_nil_r. repeat split; try assumption. now left.
Qed.

Lemma main_trace_parts (c : console) (t : tools) (arg_plex_library_path : string)
      (fs : filesystem) :
  (events (Printing.main c t arg_plex_library_path fs) = [Print_path_missing] \/
   events (Printing.main c t arg_plex_library_path fs) = []) \/
  exists evs tail,
    events (Printing.main c t arg_plex_library_path fs) = evs ++ tail /\
    blocks t evs /\ run_end c t tail /\
    match res (Printing.main c t arg_plex_library_path fs) with
    | inr _ => tail = [Print_complete]
    | inl e => abort_tail c t e tail \/ tail = []
    end.
Proof.
  rewrite printing_main_unfold. cbv zeta.
  set (path := os_path_expanduser t arg_plex_library_path).
  pose proof (shape_main_loop c t path fs) as Hloop. cbv zeta in Hloop.
  set (loop := for_each (os_listdir t path) _) in *.
  destruct (fs !! path) as [n|].
  2:{ left. destruct (refuses c Print_path_missing); cbn [events]; [now right | now left]. }
  right. unfold run_shape in Hloop.
  destruct (res (loop fs)) as [e|[]]; cbn [res final events].
  - destruct Hloop as (pre & tail & Hev & Hpre & Htail).
    exists pre, tail. repeat split; try assumption; [|now left]. right. right. now exists e.
  - destruct (refuses c Print_complete) as [x|]; cbn [res final events raise ok].
    + exists (events (loop fs)), []. rewrite app_nil_r.
      repeat split; try assumption; [now left | now right].
    + exists (events (loop fs)), [Print_complete].
      repeat split; try assumption. right. now left.
Qed.

(** A computation that returned, followed by another. *)
Lemma bind_step {A B} (m : IO A) (k : A -> IO B) (fs fs1 : filesystem) (a : A)
      (evs1 : list event) :
  m fs = Outcome (ok a) fs1 evs1 ->
  bind m k fs = Outcome (res (k a fs1)) (final (k a fs1)) (evs1 ++ events (k a fs1)).
Proof. intros H. unfold bind. now rewrite H. Qed.

(* ================================================================= *)
(** * Which exceptions the computations raise *)

(** A float that is neither NaN nor an infinity. *)
Lemma finite_float_number (f : Py.float) :
  finite_float f -> match f with S754_zero _ | S754_finite _ _ _ => True | _ => False end.
Proof. now destruct f. Qed.

Lemma int_of_float_raises (x : Py.float) (e : exn) :
  Py.int_of_float x = raise e ->
  (e = ValueError /\ x = S754_nan) \/
  (e = OverflowError /\ exists s, x = S754_infinity s).
Proof.
  destruct x as [s|s| |s m ex]; cbn [Py.int_of_float]; unfold ok, raise; intros H;
    inversion H; [right | left]; eauto.
Qed.

(** [float(n)] is a number when it returns. *)
Lemma float_of_int_number (n : Z) (f : Py.float) :
  Py.float_of_int n = ok f ->
  match f with S754_zero _ | S754_finite _ _ _ => True | _ => False end.
Proof.
  unfold Py.float_of_int. destruct n as [|p|p]; cbn [binary_normalize].
  - intros H. now inversion H.
  - unfold binary_round. destruct (shl_align p 0 (fexp64 (Zpos (digits2_pos p) + 0))) as [mz ez].
    pose proof (binary_round_aux_sign false (Zpos mz) ez loc_Exact (Pos2Z.is_nonneg mz)) as Hs.
    destruct (binary_round_aux Py.prec Py.emax false (Zpos mz) ez loc_Exact);
      unfold ok, raise; intros H; inversion H; subst; try exact I; contradiction.
  - unfold binary_round. destruct (shl_align p 0 (fexp64 (Zpos (digits2_pos p) + 0))) as [mz ez].
    pose proof (binary_round_aux_sign true (Zpos mz) ez loc_Exact (Pos2Z.is_nonneg mz)) as Hs.
    destruct (binary_round_aux Py.prec Py.emax true (Zpos mz) ez loc_Exact);
      unfold ok, raise; intros H; inversion H; subst; try exact I; contradiction.
Qed.

Lemma float_of_int_raises (n : Z) (e : exn) :
  Py.float_of_int n = raise e -> e = OverflowError.
Proof.
  unfold Py.float_of_int.
  destruct (binary_normalize Py.prec Py.emax n 0 false); unfold ok, raise; intros H;
    now inversion H.
Qed.

Lemma int_truediv_raises (a b : Z) (e : exn) :
  Py.int_truediv a b = raise e ->
  (e = ZeroDivisionError /\ b = 0) \/ e = OverflowError.
Proof.
  unfold Py.int_truediv. destruct (Z.eqb_spec b 0) as [Hb|Hb].
  - unfold raise. intros H. inversion H. now left.
  - destruct (SFdiv Py.prec Py.emax (Py.raw_of_int a) (Py.raw_of_int b));
      unfold ok, raise; intros H; inversion H. now right.
Qed.

(** The product of two numbers is not NaN. *)
Lemma float_mul_not_nan (x y : Py.float) :
  match x with S754_zero _ | S754_finite _ _ _ => True | _ => False end ->
  match y with S754_zero _ | S754_finite _ _ _ => True | _ => False end ->
  Py.float_mul x y <> S754_nan.
Proof.
  destruct x as [sx|sx| |sx mx ex]; try contradiction;
    destruct y as [sy|sy| |sy my ey]; try contradiction; intros _ _;
    cbn [Py.float_mul SFmul]; try discriminate.
  pose proof (binary_round_aux_sign (xorb sx sy) (Zpos (mx * my)) (ex + ey) loc_Exact
                (Pos2Z.is_nonneg _)) as Hs.
  destruct (binary_round_aux Py.prec Py.emax (xorb sx sy) (Zpos (mx * my)) (ex + ey) loc_Exact);
    try discriminate. contradiction.
Qed.

(** [int(y * (c / x))] raises [ZeroDivisionError] for [x = 0] only, and
    nothing else but [OverflowError]. *)
Lemma scaled_raises (c x y : Z) (e : exn) :
  (let! ratio := Py.int_truediv c x in
   let! scaled := Py.int_mul_float y ratio in
   Py.int_of_float scaled) = raise e ->
  (e = ZeroDivisionError /\ x = 0) \/ e = OverflowError.
Proof.
  destruct (Py.int_truediv c x) as [e1|ratio] eqn:Hdiv; cbn [rbind].
  { intros H. inversion H; subst e1. now apply (int_truediv_raises c x). }
  unfold Py.int_mul_float.
  destruct (Py.float_of_int y) as [e1|yf] eqn:Hy; cbn [rbind].
  { intros H. inversion H; subst e1. right. now apply (float_of_int_raises y). }
  unfold ok at 1. intros H. apply int_of_float_raises in H.
  destruct H as [[_ Hnan]|[-> _]]; [exfalso|now right].
  revert Hnan. apply float_mul_not_nan.
  - now apply (float_of_int_number y).
  - apply finite_float_number. now apply (int_truediv_finite c x).
Qed.

(** With a zero multiplier the result is 0. *)
Lemma scaled_zero (c x z : Z) :
  (let! ratio := Py.int_truediv c x in
   let! scaled := Py.int_mul_float 0 ratio in
   Py.int_of_float scaled) = ok z -> z = 0.
Proof.
  destruct (Py.int_truediv c x) as [e1|ratio] eqn:Hdiv; cbn [rbind]; [discriminate|].
  pose proof (finite_float_number _ (int_truediv_finite c x ratio Hdiv)) as Hr.
  unfold Py.int_mul_float.
  change (Py.float_of_int 0) with (ok (S754_zero false)). cbn [rbind ok].
  destruct ratio as [s|s| |s m ex]; try contradiction;
    cbn [Py.float_mul SFmul Py.int_of_float]; unfold ok; intros H; now inversion H.
Qed.

(** A quotient of ints whose dividend is below [2^1023] does not
    overflow. *)
Lemma int_truediv_returns (a b : Z) :
  0 < a < 2 ^ 1023 -> b <> 0 -> exists f, Py.int_truediv a b = ok f.
Proof.
  intros [Ha Hbig] Hb. unfold Py.int_truediv.
  destruct (Z.eqb_spec b 0) as [|_]; [contradiction|].
  destruct a as [|pa|pa]; try lia.
  assert (Hgen : forall sb pb,
            exists f, match SFdiv Py.prec Py.emax (S754_finite false pa 0) (S754_finite sb pb 0) with
                      | S754_infinity _ => raise OverflowError
                      | f => ok f
                      end = ok f).
  { intros sb pb. cbn [SFdiv].
    pose proof (SFdiv_core_binary_int pa pb) as Hc.
    destruct (SFdiv_core_binary Py.prec Py.emax (Zpos pa) 0 (Zpos pb) 0) as [[q e'] l].
    destruct Hc as (Hq & Hfe & Hv).
    destruct (binary_round_aux Py.prec Py.emax (xorb false sb) q e' l) as [sz|sz| |sz m e] eqn:Hr;
      eauto.
    exfalso.
    pose proof (binary_round_aux_overflow _ _ _ _ _ Hq Hfe Hr) as Hov.
    pose proof (inject_Z_lt_bpow (Zpos pa) 1023 ltac:(lia) Hbig) as Hlt.
    assert (Hone : (1 <= inject_Z (Zpos pb))%Q)
      by (change 1%Q with (inject_Z 1); rewrite <- Zle_Qle; lia).
    pose proof (F2Q_nonneg q e' Hq) as Hnn.
    set (A := inject_Z (Zpos pa)) in *. set (B := inject_Z (Zpos pb)) in *.
    set (X := F2Q q e') in *. set (T := bpow 1023) in *. clearbody A B X T.
    assert (X * 1 <= X * B)%Q by (rewrite !(Qmult_comm X); apply Qmult_le_compat_r; lra).
    lra. }
  destruct b as [|pb|pb]; try contradiction; cbn [Py.raw_of_int]; apply Hgen.
Qed.


Lemma calculate_new_resolution_raises (width height : Z) (e : exn) :
  calculate_new_resolution width height = raise e ->
  (e = ZeroDivisionError /\ width = 0) \/ e = OverflowError.
Proof.
  unfold calculate_new_resolution. cbv zeta.
  destruct (fit_horizontal width height) as [e1|z1] eqn:H1; cbn [rbind].
  { intros H. inversion H; subst e1. now apply (scaled_raises _ _ _ _ H1). }
  destruct (z1 >? TARGET_VERTICAL_RES) eqn:Hgt; [|discriminate].
  destruct (fit_vertical width height) as [e2|z2] eqn:H2; cbn [rbind]; [|discriminate].
  intros H. inversion H; subst e2.
  destruct (scaled_raises _ _ _ _ H2) as [[_ Hz]|Ho]; [exfalso|now right].
  subst height. apply scaled_zero in H1. subst z1. discriminate.
Qed.

(* ================================================================= *)
(** * Errors, in a whole run *)

Lemma for_each_split {A} (l1 l2 : list A) (x : A) (body : A -> IO unit) (fs : filesystem) :
  for_each (l1 ++ x :: l2) body fs
  = (for_each l1 body ;; body x ;; for_each l2 body) fs.
Proof. rewrite for_each_app. apply bind_ext. intros _ fs'. reflexivity. Qed.

Lemma bind_for_each_split {A B} (l1 l2 : list A) (x : A) (body : A -> IO unit)
      (k : unit -> IO B) (fs : filesystem) :
  bind (for_each (l1 ++ x :: l2) body) k fs
  = bind (for_each l1 body) (fun _ => bind (body x) (fun _ => bind (for_each l2 body) k)) fs.
Proof.
  transitivity (bind (bind (for_each l1 body) (fun _ => for_each (x :: l2) body)) k fs).
  { apply bind_cong; [apply for_each_app | reflexivity]. }
  rewrite bind_assoc. apply bind_ext. intros _ fs'. cbn [for_each]. now rewrite bind_assoc.
Qed.

(** The probe of a file without width, with a frame rate and a bitrate
    that let it through, is the last event of a run. *)
Lemma zero_width_probe_is_last (c : console) (t : tools) (input : string)
      (framerate bitrate : Py.float) (height : Z) (evs tail : list event) :
  read_track (mediainfo t input) = ok (framerate, bitrate, 0, height) ->
  Py.float_lt_int bitrate VIDEO_BITRATE = false ->
  (exists gop, gop_size framerate = ok gop) ->
  blocks t evs -> run_end c t tail ->
  In (Run_mediainfo input) (evs ++ tail) ->
  tail = [Run_mediainfo input] /\ forall x, abort_tail c t x tail -> x = ZeroDivisionError.
Proof.
  intros Hread Hlow [gop Hgop] Hb Hend Hin. unfold ok in Hread.
  assert (Hzero : forall x, calculate_new_resolution 0 height <> ok x) by (intros x; discriminate).
  assert (Hsame : forall v, read_track (mediainfo t input) = v ->
                            inr (framerate, bitrate, 0, height) = v)
    by (intros v <-; symmetry; exact Hread).
  assert (Htail : tail = [Run_mediainfo input]).
  { apply in_split in Hin. destruct Hin as (pre & post & Heq).
    destruct (probe_in_trace t evs tail input Hb pre post Heq)
      as [(b & rest & Hblock & ->)|(pre' & Ht)].
    - exfalso. clear Hread. inversion Hblock; subst;
        match goal with H : read_track _ = _ |- _ => apply Hsame in H; inversion H; subst end;
        try congruence; try (eapply Hzero; eassumption).
    - destruct Hend as [->|[->|[x Hx]]].
      + now destruct pre'.
      + destruct pre' as [|? [|? ?]]; discriminate Ht.
      + destruct Hx as [i fr br w h Hr Hl Hw | i fr br w h g nw nh cmd Hr Hl Hg Hc Hi Hf
                       | i e0 Hr Hq | i e0 Hr Hq1 Hq2 | i fr br w h Hr Hl Hq];
          unfold ok, raise in Hr;
          (destruct pre' as [|? [|? [|? ?]]]; cbn [app] in Ht; inversion Ht; subst);
          rewrite Hread in Hr; inversion Hr; subst; try congruence; try reflexivity;
          try (exfalso; eapply Hzero; eassumption). }
  assert (Hdiv : forall h, calculate_new_resolution 0 h = raise ZeroDivisionError)
    by reflexivity.
  split; [exact Htail|]. subst tail. intros x Hx. clear Hread.
  inversion Hx; subst;
    match goal with H : read_track _ = _ |- _ => apply Hsame in H; inversion H; subst end;
    try congruence.
  match goal with H : _ \/ _ |- _ => destruct H as [Hg|[_ Hc]] end.
  - rewrite Hgop in Hg. discriminate Hg.
  - rewrite Hdiv in Hc. now inversion Hc.
Qed.

Lemma no_encode_of_zero_width (c : console) (t : tools) (input : string)
      (framerate bitrate : Py.float) (height : Z) (evs tail : list event)
      (command : list string) :
  read_track (mediainfo t input) = ok (framerate, bitrate, 0, height) ->
  blocks t evs -> run_end c t tail ->
  In (Run_ffmpeg command) (evs ++ tail) ->
  command_input command <> input.
Proof.
  intros Hread Hb Hend Hin Heq. unfold ok in Hread.
  assert (Hcase : exists fr br w h nw nh,
             read_track (mediainfo t (command_input command)) = ok (fr, br, w, h) /\
             calculate_new_resolution w h = ok (nw, nh)).
  { apply in_app_or in Hin. destruct Hin as [Hin|Hin].
    - exact (encode_in_blocks t evs command Hb Hin).
    - destruct Hend as [->|[->|[x Hx]]].
      + destruct Hin.
      + destruct Hin as [H|[]]; discriminate.
      + exact (encode_in_tail c t x tail command Hx Hin). }
  destruct Hcase as (fr & br & w & h & nw & nh & Hr & Hc).
  rewrite Heq in Hr. unfold ok in Hr. rewrite Hread in Hr. inversion Hr; subst.
  discriminate Hc.
Qed.

(** C7, as stated, fails: the message about a failed probe is printed
    inside the exception handler of [get_video_info], and what that
    [print] raises is caught nowhere.  On a console that cannot take
    the message, the failed probe of the first file ends the run with
    [UnicodeEncodeError], and the video that follows is never probed;
    on a console that takes every message the same run goes on to that
    video and encodes it. *)
Lemma refused_message_aborts_after_failed_probe :
  read_track (mediainfo bad_first_tools "lib/Film/bad.avi")
  = raise (OtherException "CalledProcessError") /\
  (let o := Printing.main narrow_console bad_first_tools "lib" example_fs in
   res o = raise (OtherException "UnicodeEncodeError") /\
   events o = [Run_mediainfo "lib/Film/bad.avi"]) /\
  (let o := Printing.main quiet_console bad_first_tools "lib" example_fs in
   res o = ok tt /\
   events o =
   [Run_mediainfo "lib/Film/bad.avi";
    Print_probe_error "lib/Film/bad.avi" (OtherException "CalledProcessError");
    Print_skipping "lib/Film/bad.avi";
    Run_mediainfo "lib/Film/a.mp4";
    Run_ffmpeg (ffmpeg_command "lib/Film/a.mp4" "a.mp4" 11 854 480
                               "lib/Film/Custom Versions/1Mbps/a.mp4");
    Print_complete]).
Proof.
  cbv zeta. split; [|split; split]; vm_compute; reflexivity.
Qed.

(** C7, amended.  When the probe of a candidate fails and the console
    takes the two messages about it, [get_video_info] catches the
    exception, reports it and returns no values; the file is skipped
    without an encode and nothing is raised, so that the loop goes on
    with the files that follow.  In every run of [process_videos] and
    of [main], each probe of that file is followed by the two messages
    and by whatever the rest of the run does, and no encode takes the
    file as its input; and a run of [process_videos] that reaches the
    file goes on, after the two messages, with the files and the
    directories that follow it in the walk. *)
Theorem probe_failure_skips_the_file (c : console) (t : tools) (input_file : string)
        (e : exn) :
  read_track (mediainfo t input_file) = raise e ->
  refuses c (Print_probe_error input_file e) = None ->
  refuses c (Print_skipping input_file) = None ->
  (forall fs,
     Printing.get_video_info c t input_file fs
     = Outcome (ok (None, None, None, None)) fs
         [Run_mediainfo input_file; Print_probe_error input_file e]) /\
  (forall custom_versions_path root file fs,
     input_file = os_path_join root file ->
     is_video_file file = true ->
     fs !! os_path_join custom_versions_path file = None ->
     Printing.process_file c t custom_versions_path root file fs
     = Outcome (ok tt) fs
         [Run_mediainfo input_file; Print_probe_error input_file e;
          Print_skipping input_file] /\
     forall rest,
       let o := for_each rest (Printing.process_file c t custom_versions_path root) fs in
       for_each (file :: rest) (Printing.process_file c t custom_versions_path root) fs
       = Outcome (res o) (final o)
           ([Run_mediainfo input_file; Print_probe_error input_file e;
             Print_skipping input_file] ++ events o)) /\
  (forall movie_folder_path fs,
     let o := Printing.process_videos c t movie_folder_path fs in
     (forall pre post,
        events o = pre ++ Run_mediainfo input_file :: post ->
        exists post',
          post = Print_probe_error input_file e :: Print_skipping input_file :: post') /\
     (forall command, In (Run_ffmpeg command) (events o) ->
                      command_input command <> input_file)) /\
  (forall arg_plex_library_path fs,
     let o := Printing.main c t arg_plex_library_path fs in
     (forall pre post,
        events o = pre ++ Run_mediainfo input_file :: post ->
        exists post',
          post = Print_probe_error input_file e :: Print_skipping input_file :: post') /\
     (forall command, In (Run_ffmpeg command) (events o) ->
                      command_input command <> input_file)) /\
  (forall movie_folder_path entries1 root dirs files1 file files2 entries2 fs fs1 evs1,
     let custom_versions_path := output_directory movie_folder_path in
     os_walk t movie_folder_path
     = entries1 ++ (root, dirs, files1 ++ file :: files2) :: entries2 ->
     input_file = os_path_join root file ->
     is_video_file file = true ->
     str_in "Custom Versions" root = false ->
     ((let* present := os_path_exists custom_versions_path in
       if negb present then os_makedirs custom_versions_path else ret tt) ;;
      (for_each entries1 (Printing.process_directory c t custom_versions_path) ;;
       for_each files1 (Printing.process_file c t custom_versions_path root))) fs
     = Outcome (ok tt) fs1 evs1 ->
     fs1 !! os_path_join custom_versions_path file = None ->
     let o := (for_each files2 (Printing.process_file c t custom_versions_path root) ;;
               for_each entries2 (Printing.process_directory c t custom_versions_path)) fs1 in
     Printing.process_videos c t movie_folder_path fs
     = Outcome (res o) (final o)
         (evs1 ++ [Run_mediainfo input_file; Print_probe_error input_file e;
                   Print_skipping input_file] ++ events o)).
Proof.
  intros Hread Hp1 Hp2.
  assert (Hstep : forall cvp root file fs,
            input_file = os_path_join root file ->
            is_video_file file = true ->
            fs !! os_path_join cvp file = None ->
            Printing.process_file c t cvp root file fs
            = Outcome (ok tt) fs
                [Run_mediainfo input_file; Print_probe_error input_file e;
                 Print_skipping input_file]).
  { intros cvp root file fs Hin Hv Hnone. rewrite printing_process_file_unfold. cbv zeta.
    rewrite <- Hin, Hv, Hnone. unfold raise in Hread. rewrite Hread, Hp1, Hp2. reflexivity. }
  split; [|split; [|split; [|split]]].
  - intros fs. unfold Printing.get_video_info. unfold raise in Hread. rewrite Hread.
    unfold bind, emit, Printing.print, ret. rewrite Hp1. reflexivity.
  - intros cvp root file fs Hin Hv Hnone. split; [now apply Hstep|].
    intros rest o. cbn [for_each]. unfold bind. rewrite (Hstep _ _ _ _ Hin Hv Hnone).
    reflexivity.
  - intros mfp fs o.
    destruct (process_videos_trace c t mfp fs) as (evs & tail & Hev & Hb & Hend & _).
    fold o in Hev. split.
    + intros pre post Heq. rewrite Hev in Heq.
      exact (failed_probe_is_followed c t input_file e evs tail pre post
               Hread Hp1 Hp2 Hb Hend Heq).
    + intros command Hin. rewrite Hev in Hin.
      exact (no_encode_of_failed_probe c t input_file e evs tail command Hread Hb Hend Hin).
  - intros arg fs o.
    destruct (main_trace_parts c t arg fs) as [[Hev|Hev]|(evs & tail & Hev & Hb & Hend & _)];
      fold o in Hev.
    + rewrite Hev. split.
      * intros pre post Heq. destruct pre as [|? [|? ?]]; discriminate Heq.
      * intros command [H|[]]. discriminate H.
    + rewrite Hev. split.
      * intros pre post Heq. destruct pre; discriminate Heq.
      * intros command [].
    + split.
      * intros pre post Heq. rewrite Hev in Heq.
        exact (failed_probe_is_followed c t input_file e evs tail pre post
                 Hread Hp1 Hp2 Hb Hend Heq).
      * intros command Hin. rewrite Hev in Hin.
        exact (no_encode_of_failed_probe c t input_file e evs tail command Hread Hb Hend Hin).
  - intros mfp entries1 root dirs files1 file files2 entries2 fs fs1 evs1 cvp
           Hwalk Hin Hv Hcv Hbefore Hnone o.
    pose proof (Hstep cvp root file fs1 Hin Hv Hnone) as Hfile.
    unfold Printing.process_videos. cbv zeta. fold (output_directory mfp). fold cvp.
    rewrite Hwalk.
    set (ensure := let* present := os_path_exists cvp in
                   if negb present then os_makedirs cvp else ret tt) in *.
    transitivity
      (bind (bind ensure
               (fun _ => bind (for_each entries1 (Printing.process_directory c t cvp))
                              (fun _ => for_each files1 (Printing.process_file c t cvp root))))
            (fun _ => bind (Printing.process_file c t cvp root file)
                        (fun _ => bind (for_each files2 (Printing.process_file c t cvp root))
                                    (fun _ => for_each entries2
                                                (Printing.process_directory c t cvp)))) fs).
    + rewrite bind_assoc. apply bind_ext. intros _ fs'.
      rewrite bind_assoc. rewrite for_each_split. apply bind_ext. intros _ fs''.
      unfold Printing.process_directory at 1. rewrite Hcv.
      apply bind_for_each_split.
    + rewrite (bind_step _ _ fs fs1 tt evs1 Hbefore).
      rewrite (bind_step _ _ fs1 fs1 tt _ Hfile). cbn [res final events]. reflexivity.
Qed.

Lemma probe_failure_skips_the_file_witness :
  Printing.process_file quiet_console example_tools (output_directory "lib/Film")
                        "lib/Film" "bad.avi" example_fs
  = Outcome (ok tt) example_fs
      [Run_mediainfo "lib/Film/bad.avi";
       Print_probe_error "lib/Film/bad.avi" (OtherException "CalledProcessError");
       Print_skipping "lib/Film/bad.avi"].
Proof.
  assert (H1 : read_track (mediainfo example_tools "lib/Film/bad.avi")
               = raise (OtherException "CalledProcessError")) by (vm_compute; reflexivity).
  assert (H2 : example_fs !! os_path_join (output_directory "lib/Film") "bad.avi" = None)
    by (vm_compute; reflexivity).
  exact (proj1 (proj1 (proj2 (probe_failure_skips_the_file
                                quiet_console example_tools "lib/Film/bad.avi"
                                (OtherException "CalledProcessError")
                                H1 (eq_refl _) (eq_refl _)))
                      (output_directory "lib/Film") "lib/Film"%string "bad.avi"%string
                      example_fs (eq_refl _) (eq_refl _) H2)).
Defined.

(** C10, as stated, fails: with no [Width] field, a bitrate above the
    threshold and a frame rate that is not a number, the run aborts
    with [ValueError] where the keyframe interval is computed, before
    [calculate_new_resolution] is called. *)
Lemma nan_frame_rate_aborts_before_scaling :
  let t := no_width_tools S754_nan in
  (exists bitrate,
     read_track (mediainfo t "lib/Film/a.mp4") = ok (S754_nan, bitrate, 0, 1080) /\
     (inject_Z VIDEO_BITRATE <= fval bitrate)%Q) /\
  gop_size S754_nan = raise ValueError /\
  process_file t (output_directory "lib/Film") "lib/Film" "a.mp4" example_fs
  = Outcome (raise ValueError) example_fs [Run_mediainfo "lib/Film/a.mp4"].
Proof.
  cbv zeta. split; [|split].
  - eexists. split; [vm_compute; reflexivity | vm_compute; discriminate].
  - reflexivity.
  - vm_compute. reflexivity.
Qed.

(** C10, amended.  When the probe of a candidate succeeds with a
    finite frame rate, width 0 and a bitrate not below the threshold,
    the file is not skipped: [calculate_new_resolution] divides by the
    width and raises [ZeroDivisionError], which nothing catches; the
    loop over the files ends there.  A run of [process_videos] or of
    [main] that probes the file ends with [ZeroDivisionError], and that
    probe is the last thing the run did: no message that the file is
    skipped, no encode, no file after it; and no encode of any run
    takes the file as its input. *)
Theorem zero_width_aborts_the_run (t : tools) (input_file : string)
        (framerate bitrate : Py.float) (height : Z) :
  read_track (mediainfo t input_file) = ok (framerate, bitrate, 0, height) ->
  finite_float framerate ->
  (inject_Z VIDEO_BITRATE <= fval bitrate)%Q ->
  calculate_new_resolution 0 height = raise ZeroDivisionError /\
  (forall custom_versions_path root file fs,
     input_file = os_path_join root file ->
     is_video_file file = true ->
     fs !! os_path_join custom_versions_path file = None ->
     process_file t custom_versions_path root file fs
     = Outcome (raise ZeroDivisionError) fs [Run_mediainfo input_file] /\
     forall before after fs0 evs,
       for_each before (process_file t custom_versions_path root) fs0 = Outcome (ok tt) fs evs ->
       for_each (before ++ file :: after) (process_file t custom_versions_path root) fs0
       = Outcome (raise ZeroDivisionError) fs (evs ++ [Run_mediainfo input_file])) /\
  (forall movie_folder_path fs,
     let o := process_videos t movie_folder_path fs in
     (In (Run_mediainfo input_file) (events o) ->
      res o = raise ZeroDivisionError /\
      exists before, events o = before ++ [Run_mediainfo input_file]) /\
     ~ In (Print_skipping input_file) (events o) /\
     (forall command, In (Run_ffmpeg command) (events o) ->
                      command_input command <> input_file)) /\
  (forall arg_plex_library_path fs,
     let o := main t arg_plex_library_path fs in
     (In (Run_mediainfo input_file) (events o) ->
      res o = raise ZeroDivisionError /\
      exists before, events o = before ++ [Run_mediainfo input_file]) /\
     ~ In (Print_skipping input_file) (events o) /\
     (forall command, In (Run_ffmpeg command) (events o) ->
                      command_input command <> input_file)).
Proof.
  intros Hread Hfin Hval.
  assert (Hlow : Py.float_lt_int bitrate VIDEO_BITRATE = false).
  { destruct (Py.float_lt_int bitrate VIDEO_BITRATE) eqn:Hlt; [exfalso|reflexivity].
    apply float_lt_threshold in Hlt; [lra|]. eapply read_track_bitrate_finite, Hread. }
  pose proof (gop_size_total framerate Hfin) as Hgop.
  assert (Hzero : calculate_new_resolution 0 height = raise ZeroDivisionError) by reflexivity.
  assert (Hquiet : forall message, refuses quiet_console message = None) by reflexivity.
  assert (Hnoskip : forall evs tail,
            blocks t evs -> run_end quiet_console t tail ->
            ~ In (Print_skipping input_file) (evs ++ tail)).
  { intros evs tail Hb Hend Hin. apply in_app_or in Hin. destruct Hin as [Hin|Hin].
    - pose proof (skip_in_blocks t evs input_file Hb Hin) as Hs. unfold skipped_by_probe in Hs.
      unfold ok in Hread. rewrite Hread in Hs. congruence.
    - destruct Hend as [->|[->|[x Hx]]].
      + destruct Hin.
      + destruct Hin as [H|[]]; discriminate H.
      + inversion Hx; subst; cbn [In] in Hin;
          repeat match goal with H : _ \/ _ |- _ => destruct H end;
          try discriminate; try contradiction. }
  split; [exact Hzero|]. split; [|split].
  - intros cvp root file fs Hin Hv Hnone.
    assert (Hstep : process_file t cvp root file fs
                    = Outcome (raise ZeroDivisionError) fs [Run_mediainfo input_file]).
    { rewrite process_file_unfold. cbv zeta. rewrite <- Hin.
      rewrite Hv, Hnone, Hread. cbv beta iota delta [ok]. rewrite Hlow.
      destruct Hgop as [gop Hgop]. unfold ok in Hgop. rewrite Hgop. rewrite Hzero.
      reflexivity. }
    split; [exact Hstep|].
    intros before after fs0 evs Hbefore.
    eapply for_each_raises; [exact Hbefore | exact Hstep].
  - intros mfp fs o.
    assert (Ho : o = Printing.process_videos quiet_console t mfp fs)
      by (symmetry; apply printing_process_videos_quiet; exact Hquiet).
    destruct (process_videos_trace quiet_console t mfp fs)
      as (evs & tail & Hev & Hb & Hend & Hres).
    rewrite <- Ho in Hev, Hres. split; [|split].
    + intros Hin. rewrite Hev in Hin.
      destruct (zero_width_probe_is_last quiet_console t input_file framerate bitrate height
                  evs tail Hread Hlow Hgop Hb Hend Hin) as [Htail Hx].
      destruct (res o) as [x|[]].
      * split; [f_equal; now apply Hx|]. exists evs. now rewrite Hev, Htail.
      * rewrite Hres in Htail. discriminate Htail.
    + rewrite Hev. now apply Hnoskip.
    + intros command Hin. rewrite Hev in Hin.
      exact (no_encode_of_zero_width quiet_console t input_file framerate bitrate height
               evs tail command Hread Hb Hend Hin).
  - intros arg fs o.
    assert (Ho : o = Printing.main quiet_console t arg fs)
      by (symmetry; apply printing_main_quiet; exact Hquiet).
    destruct (main_trace_parts quiet_console t arg fs)
      as [[Hev|Hev]|(evs & tail & Hev & Hb & Hend & Hres)];
      rewrite <- Ho in Hev; try rewrite <- Ho in Hres.
    + rewrite Hev. split; [|split].
      * intros [H|[]]. discriminate H.
      * intros [H|[]]. discriminate H.
      * intros command [H|[]]. discriminate H.
    + rewrite Hev. split; [|split].
      * intros [].
      * intros [].
      * intros command [].
    + split; [|split].
      * intros Hin. rewrite Hev in Hin.
        destruct (zero_width_probe_is_last quiet_console t input_file framerate bitrate height
                    evs tail Hread Hlow Hgop Hb Hend Hin) as [Htail Hx].
        destruct (res o) as [x|[]].
        -- destruct Hres as [Hres|Hres]; [|rewrite Hres in Htail; discriminate Htail].
           split; [f_equal; now apply Hx|]. exists evs. now rewrite Hev, Htail.
        -- rewrite Hres in Htail. discriminate Htail.
      * rewrite Hev. now apply Hnoskip.
      * intros command Hin. rewrite Hev in Hin.
        exact (no_encode_of_zero_width quiet_console t input_file framerate bitrate height
                 evs tail command Hread Hb Hend Hin).
Qed.

Lemma zero_width_aborts_the_run_witness :
  let o := main (no_width_tools (Py.float_of_decimal 25 0)) "lib" example_fs in
  res o = raise ZeroDivisionError /\
  exists before, events o = before ++ [Run_mediainfo "lib/Film/a.mp4"].
Proof.
  intros o.
  assert (H1 : read_track (mediainfo (no_width_tools (Py.float_of_decimal 25 0))
                                     "lib/Film/a.mp4")
               = ok (Py.float_of_decimal 25 0,
                     S754_finite false 5497558138880000 (-40), 0, 1080))
    by (vm_compute; reflexivity).
  assert (H2 : finite_float (Py.float_of_decimal 25 0)) by (vm_compute; reflexivity).
  assert (H3 : (inject_Z VIDEO_BITRATE <= fval (S754_finite false 5497558138880000 (-40)))%Q)
    by (vm_compute; discriminate).
  assert (H4 : In (Run_mediainfo "lib/Film/a.mp4") (events o))
    by (vm_compute; left; reflexivity).
  exact (proj1 (proj2 (proj2 (proj2 (zero_width_aborts_the_run
                                       (no_width_tools (Py.float_of_decimal 25 0))
                                       "lib/Film/a.mp4" _ _ _ H1 H2 H3)))
                      "lib"%string example_fs) H4).
Defined.

(* ================================================================= *)
(** * What a run keeps and what it creates *)

Lemma foldl_mkdir_lookup (l : list string) : forall (fs : filesystem) p n,
  foldl mkdir_if_absent fs l !! p = Some n ->
  fs !! p = Some n \/ (n = Directory /\ In p l).
Proof.
  induction l as [|d l IH]; intros fs p n H; cbn [foldl] in H; [now left|].
  apply IH in H. destruct H as [H|[-> H]]; [|right; split; [reflexivity | now right]].
  unfold mkdir_if_absent in H. destruct (fs !! d) eqn:Hd; [now left|].
  destruct (decide (d = p)) as [->|Hne].
  - rewrite lookup_insert_eq in H. inversion H. right. split; [reflexivity | now left].
  - rewrite lookup_insert_ne in H by exact Hne. now left.
Qed.

Lemma foldl_mkdir_subseteq (l : list string) (fs : filesystem) :
  fs ⊆ foldl mkdir_if_absent fs l.
Proof.
  revert fs. induction l as [|d l IH]; intros fs; cbn [foldl]; [reflexivity|].
  etransitivity; [apply (mkdir_if_absent_subseteq fs d) | apply IH].
Qed.

Lemma foldl_mkdir_present (l : list string) (fs : filesystem) p :
  In p l -> is_Some (foldl mkdir_if_absent fs l !! p).
Proof.
  revert fs. induction l as [|d l IH]; intros fs Hin; [destruct Hin|].
  destruct Hin as [Hd|Hin]; cbn [foldl].
  - subst d.
    assert (H : is_Some (mkdir_if_absent fs p !! p)).
    { unfold mkdir_if_absent. destruct (fs !! p) eqn:Hp; [now rewrite Hp|].
      rewrite lookup_insert_eq. now eexists. }
    destruct H as [n Hn]. exists n.
    eapply lookup_weaken; [exact Hn | apply foldl_mkdir_subseteq].
  - now apply IH.
Qed.

(** The test and creation that the script performs three times:
    [if not os.path.exists(p): os.makedirs(p)]. *)
Lemma ensure_exists_spec (p : string) (fs : filesystem) :
  let o := (let* present := os_path_exists p in
            if negb present then os_makedirs p else ret tt) fs in
  res o = ok tt /\ events o = [] /\ fs ⊆ final o /\ is_Some (final o !! p) /\
  (is_Some (fs !! p) -> final o = fs) /\
  (forall q n, final o !! q = Some n -> fs !! q = Some n \/ n = Directory).
Proof.
  cbv zeta. unfold bind, os_path_exists. cbn [res final events ok].
  destruct (fs !! p) as [n|] eqn:Hp; cbn [negb ret os_makedirs res final events app].
  - repeat split; try reflexivity.
    + rewrite Hp. now eexists.
    + intros q m Hq. now left.
  - repeat split.
    + apply foldl_mkdir_subseteq.
    + apply foldl_mkdir_present. apply in_or_app. right. now left.
    + intros [m Hm]. discriminate.
    + intros q m Hq. apply foldl_mkdir_lookup in Hq. destruct Hq as [Hq|[-> _]]; eauto.
Qed.

Lemma ensure_custom_versions_folder_spec (movie_folder_path : string) (fs : filesystem) :
  let o := ensure_custom_versions_folder movie_folder_path fs in
  res o = ok tt /\ events o = [] /\ fs ⊆ final o /\
  is_Some (final o !! os_path_join movie_folder_path "Custom Versions") /\
  is_Some (final o !! output_directory movie_folder_path) /\
  (forall q n, final o !! q = Some n -> fs !! q = Some n \/ n = Directory).
Proof.
  cbv zeta. unfold ensure_custom_versions_folder, output_directory.
  set (cv := os_path_join movie_folder_path "Custom Versions").
  set (q := os_path_join cv QUALITY_PROFILE).
  destruct (ensure_exists_spec cv fs) as (Hr1 & He1 & Hs1 & Hp1 & _ & Hn1).
  cbv zeta in Hr1, He1, Hs1, Hp1, Hn1.
  set (m1 := let* present := os_path_exists cv in
             if negb present then os_makedirs cv else ret tt) in *.
  destruct (ensure_exists_spec q (final (m1 fs))) as (Hr2 & He2 & Hs2 & Hp2 & _ & Hn2).
  cbv zeta in Hr2, He2, Hs2, Hp2, Hn2.
  set (m2 := let* present := os_path_exists q in
             if negb present then os_makedirs q else ret tt) in *.
  change ((m1 ;; m2) fs) with (bind m1 (fun _ => m2) fs).
  unfold bind at 1 2 3 4 5 6. rewrite Hr1. cbv beta iota delta [ok].
  cbn [res final events]. rewrite He1, He2.
  split; [exact Hr2|]. split; [reflexivity|].
  split; [transitivity (final (m1 fs)); assumption|].
  split; [|split; [exact Hp2|]].
  - destruct Hp1 as [n Hn]. exists n. eapply lookup_weaken; eauto.
  - intros p n Hp. apply Hn2 in Hp. destruct Hp as [Hp|Hp]; [|now right].
    now apply Hn1.
Qed.

Section Creates.
Context (t : tools).

Lemma creates_only_pure {A} (fs : filesystem) (o : outcome A) :
  final o = fs -> creates_only t fs o.
Proof. intros H p n Hp. rewrite H in Hp. now left. Qed.

Lemma creates_only_directories {A} (fs : filesystem) (o : outcome A) :
  (forall q n, final o !! q = Some n -> fs !! q = Some n \/ n = Directory) ->
  creates_only t fs o.
Proof. intros H p n Hp. destruct (H p n Hp) as [|]; eauto. Qed.

Lemma creates_only_bind {A B} (m : IO A) (k : A -> IO B) fs :
  creates_only t fs (m fs) ->
  (forall a fs', creates_only t fs' (k a fs')) ->
  creates_only t fs (bind m k fs).
Proof.
  intros Hm Hk. unfold bind. destruct (res (m fs)) as [e|a].
  - intros p n Hp. cbn [final events] in *. exact (Hm p n Hp).
  - intros p n Hp. cbn [final events] in *.
    destruct (Hk a (final (m fs)) p n Hp) as [H|[H|(c & rc & d & Hin & Hrest)]].
    + destruct (Hm p n H) as [H'|[H'|(c & rc & d & Hin & Hrest)]]; eauto.
      right. right. exists c, rc, d. split; [|exact Hrest]. apply in_or_app. now left.
    + eauto.
    + right. right. exists c, rc, d. split; [|exact Hrest]. apply in_or_app. now right.
Qed.

Lemma creates_only_for_each {A} (l : list A) (body : A -> IO unit) fs :
  (forall x fs', creates_only t fs' (body x fs')) ->
  creates_only t fs (for_each l body fs).
Proof.
  intros H. revert fs. induction l as [|x l IH]; intros fs; cbn [for_each].
  - now apply creates_only_pure.
  - apply creates_only_bind; [apply H|]. intros _ fs'. apply IH.
Qed.

Lemma creates_only_ensure_exists p fs :
  creates_only t fs ((let* present := os_path_exists p in
                      if negb present then os_makedirs p else ret tt) fs).
Proof.
  apply creates_only_directories.
  exact (proj2 (proj2 (proj2 (proj2 (proj2 (ensure_exists_spec p fs)))))).
Qed.

Lemma creates_only_process_file cvp root file fs :
  creates_only t fs (process_file t cvp root file fs).
Proof.
  rewrite process_file_unfold. cbv zeta.
  destruct (is_video_file file); [|now apply creates_only_pure].
  destruct (fs !! os_path_join cvp file); [now apply creates_only_pure|].
  destruct (read_track _) as [e|[[[fr br] w] h]]; [now apply creates_only_pure|].
  destruct (Py.float_lt_int br VIDEO_BITRATE); [now apply creates_only_pure|].
  destruct (gop_size fr) as [e|gop]; [now apply creates_only_pure|].
  destruct (calculate_new_resolution w h) as [e|[nw nh]]; [now apply creates_only_pure|].
  set (command := ffmpeg_command _ _ _ _ _ _).
  destruct (ffmpeg t command) as [e|rc [data|]] eqn:Hff; try now apply creates_only_pure.
  intros p n Hp. cbn [final events] in *.
  destruct (decide (os_path_join cvp file = p)) as [Heq|Hne].
  - rewrite Heq, lookup_insert_eq in Hp. inversion Hp. right. right.
    exists command, rc, data. split; [right; now left|]. now repeat split.
  - rewrite lookup_insert_ne in Hp by exact Hne. now left.
Qed.

Lemma creates_only_process_videos movie_folder_path fs :
  creates_only t fs (process_videos t movie_folder_path fs).
Proof.
  unfold process_videos. apply creates_only_bind; [apply creates_only_ensure_exists|].
  intros _ fs'. apply creates_only_for_each. intros [[root dirs] files] fs''.
  unfold process_directory. destruct (str_in _ root); [now apply creates_only_pure|].
  apply creates_only_for_each. intros file fs3. apply creates_only_process_file.
Qed.

Lemma creates_only_main arg fs : creates_only t fs (main t arg fs).
Proof.
  unfold main. apply creates_only_bind; [now apply creates_only_pure|].
  intros [|] fs'; cbn [negb]; [|now apply creates_only_pure].
  apply creates_only_bind; [|intros _ fs''; now apply creates_only_pure].
  apply creates_only_for_each. intros movie_folder fs''. cbv zeta.
  apply creates_only_bind; [now apply creates_only_pure|].
  intros [|] fs3; cbn [negb]; [|now apply creates_only_pure].
  apply creates_only_bind; [|intros _ fs4; apply creates_only_process_videos].
  apply creates_only_directories.
  exact (proj2 (proj2 (proj2 (proj2 (proj2 (ensure_custom_versions_folder_spec _ fs3)))))).
Qed.

(** Nothing that exists is removed or changed. *)
Lemma keeps_bind {A B} (m : IO A) (k : A -> IO B) fs :
  fs ⊆ final (m fs) -> (forall a fs', fs' ⊆ final (k a fs')) -> fs ⊆ final (bind m k fs).
Proof.
  intros Hm Hk. unfold bind. destruct (res (m fs)) as [e|a]; cbn [final]; [exact Hm|].
  etransitivity; [exact Hm | apply Hk].
Qed.

Lemma keeps_for_each {A} (l : list A) (body : A -> IO unit) fs :
  (forall x fs', fs' ⊆ final (body x fs')) -> fs ⊆ final (for_each l body fs).
Proof.
  intros H. revert fs. induction l as [|x l IH]; intros fs; cbn [for_each]; [reflexivity|].
  apply keeps_bind; [apply H|]. intros _ fs'. apply IH.
Qed.

Lemma keeps_process_file cvp root file fs :
  fs ⊆ final (process_file t cvp root file fs).
Proof. now apply (well_behaved_process_file t cvp root file fs fs). Qed.

Lemma keeps_process_directory cvp entry fs :
  fs ⊆ final (process_directory t cvp entry fs).
Proof. now apply (well_behaved_process_directory t cvp entry fs fs). Qed.

Lemma keeps_process_videos movie_folder_path fs :
  fs ⊆ final (process_videos t movie_folder_path fs).
Proof. apply process_videos_accounted. Qed.

Lemma keeps_main arg fs : fs ⊆ final (main t arg fs).
Proof.
  unfold main. apply keeps_bind; [reflexivity|].
  intros [|] fs'; cbn [negb]; [|reflexivity].
  apply keeps_bind; [|reflexivity].
  apply keeps_for_each. intros movie_folder fs''. cbv zeta.
  apply keeps_bind; [reflexivity|].
  intros [|] fs3; cbn [negb]; [|reflexivity].
  apply keeps_bind; [|intros _ fs4; apply keeps_process_videos].
  exact (proj1 (proj2 (proj2 (ensure_custom_versions_folder_spec _ fs3)))).
Qed.
End Creates.

(* ================================================================= *)
(** * What a run that returns has done *)

(** Every element of a loop that returned was handled, in a file
    system between the first and the last. *)
Lemma for_each_ok_step {A} (l : list A) (body : A -> IO unit) (x : A) :
  (forall y fs', fs' ⊆ final (body y fs')) ->
  forall fs,
    res (for_each l body fs) = ok tt -> In x l ->
    exists fs1, fs ⊆ fs1 /\ res (body x fs1) = ok tt /\
                final (body x fs1) ⊆ final (for_each l body fs).
Proof.
  intros Hkeep. induction l as [|y l IH]; intros fs Hres Hin; [destruct Hin|].
  cbn [for_each] in *. unfold bind in *.
  destruct (res (body y fs)) as [e|[]] eqn:Hy; cbn [res final] in *; [discriminate|].
  destruct Hin as [->|Hin].
  - exists fs. split; [reflexivity|]. split; [exact Hy|].
    apply keeps_for_each. intros z fs'. apply Hkeep.
  - destruct (IH _ Hres Hin) as (fs1 & Hsub & Hr & Hfin).
    exists fs1. split; [|now split]. etransitivity; [apply Hkeep | exact Hsub].
Qed.

Lemma for_each_does_nothing {A} (l : list A) (body : A -> IO unit) (fs : filesystem) :
  (forall x, In x l -> body x fs = Outcome (ok tt) fs []) ->
  for_each l body fs = Outcome (ok tt) fs [].
Proof.
  induction l as [|x l IH]; intros H; cbn [for_each]; [reflexivity|].
  unfold bind. rewrite (H x) by now left. cbn [res final events ok app].
  rewrite IH; [reflexivity|]. intros y Hy. apply H. now right.
Qed.

Lemma encode_outputs_app (evs1 evs2 : list event) :
  encode_outputs (evs1 ++ evs2) = encode_outputs evs1 ++ encode_outputs evs2.
Proof.
  induction evs1 as [|[] evs1 IH]; cbn [encode_outputs app]; try exact IH.
  - reflexivity.
  - now rewrite IH.
Qed.

Lemma in_encode_outputs (evs : list event) (p : string) :
  In p (encode_outputs evs) <->
  exists command, In (Run_ffmpeg command) evs /\ command_output command = p.
Proof.
  induction evs as [|ev evs IH]; cbn [encode_outputs].
  - split; [intros [] | intros (c & [] & _)].
  - destruct ev; cbn [In]; rewrite ?IH; split;
      try (intros (c & Hc & Hp); exists c; split; [now right | exact Hp]);
      try (intros (c & [Hc|Hc] & Hp); [discriminate | now exists c]).
    + intros [Hp|(c & Hc & Hp)]; [exists command; split; [now left | exact Hp]|].
      exists c. split; [now right | exact Hp].
    + intros (c & [Hc|Hc] & Hp); [inversion Hc; subst; now left|].
      right. now exists c.
Qed.

Section Completion.
Context (t : tools) (Hwrites : success_writes_output t).

Lemma process_file_completes cvp root file fs framerate bitrate width height :
  res (process_file t cvp root file fs) = ok tt ->
  is_video_file file = true ->
  read_track (mediainfo t (os_path_join root file)) = ok (framerate, bitrate, width, height) ->
  Py.float_lt_int bitrate VIDEO_BITRATE = false ->
  is_Some (final (process_file t cvp root file fs) !! os_path_join cvp file).
Proof.
  rewrite process_file_unfold. cbv zeta. intros Hres Hvid Hread Hlow.
  rewrite Hvid in *.
  destruct (fs !! os_path_join cvp file) as [n|] eqn:Hout.
  { cbn [final]. rewrite Hout. now eexists. }
  rewrite Hread in *. cbv beta iota delta [ok] in *. rewrite Hlow in *.
  destruct (gop_size framerate) as [e|gop]; [discriminate|].
  destruct (calculate_new_resolution width height) as [e|[nw nh]]; [discriminate|].
  destruct (ffmpeg t _) as [e|rc written] eqn:Hff; [discriminate|].
  cbn [res final] in *.
  destruct (Z.eqb_spec rc 0) as [->|]; [|discriminate].
  destruct written as [data|]; [|now destruct (Hwrites _ _ Hff)].
  rewrite lookup_insert_eq. now eexists.
Qed.

Lemma process_videos_completes mfp fs root file framerate bitrate width height :
  res (process_videos t mfp fs) = ok tt ->
  walk_candidates t mfp root file ->
  is_video_file file = true ->
  read_track (mediainfo t (os_path_join root file)) = ok (framerate, bitrate, width, height) ->
  Py.float_lt_int bitrate VIDEO_BITRATE = false ->
  is_Some (final (process_videos t mfp fs) !! os_path_join (output_directory mfp) file).
Proof.
  intros Hres (Hcv & dirs & files & Hentry & Hfile) Hvid Hread Hlow.
  unfold process_videos in *. fold (output_directory mfp) in *.
  set (cvp := output_directory mfp) in *.
  destruct (ensure_exists_spec cvp fs) as (Hr0 & _ & _). cbv zeta in Hr0.
  set (m0 := let* present := os_path_exists cvp in
             if negb present then os_makedirs cvp else ret tt) in *.
  change ((m0 ;; ?k) fs) with (bind m0 (fun _ => k) fs) in *.
  unfold bind in Hres |- *. rewrite Hr0 in *. cbv beta iota delta [ok] in *.
  cbn [res final] in *.
  destruct (for_each_ok_step _ _ (root, dirs, files)
              (keeps_process_directory t cvp) _ Hres Hentry) as (fs1 & _ & Hr1 & Hf1).
  unfold process_directory in Hr1, Hf1 at 1. rewrite Hcv in Hr1, Hf1.
  destruct (for_each_ok_step _ _ file
              (keeps_process_file t cvp root) _ Hr1 Hfile) as (fs2 & _ & Hr2 & Hf2).
  destruct (process_file_completes cvp root file fs2 _ _ _ _ Hr2 Hvid Hread Hlow) as [n Hn].
  exists n. eapply lookup_weaken; [|exact Hf1]. eapply lookup_weaken; [exact Hn | exact Hf2].
Qed.

Lemma fresh_pure {A} (fs : filesystem) (o : outcome A) :
  final o = fs -> encode_outputs (events o) = [] -> fresh_outputs fs o.
Proof.
  intros Hf He. unfold fresh_outputs. rewrite Hf, He.
  split; [reflexivity|]. split; [constructor|]. split; intros; contradiction.
Qed.

Lemma fresh_bind {A B} (m : IO A) (k : A -> IO B) fs :
  fresh_outputs fs (m fs) ->
  (forall a fs', fresh_outputs fs' (k a fs')) ->
  fresh_outputs fs (bind m k fs).
Proof.
  intros (Hs1 & Hn1 & Ha1 & Hp1) Hk. unfold bind.
  destruct (res (m fs)) as [e|a] eqn:Hres.
  - unfold fresh_outputs. cbn [res final events].
    repeat split; try assumption. intros b Hb. discriminate.
  - destruct (Hk a (final (m fs))) as (Hs2 & Hn2 & Ha2 & Hp2).
    unfold fresh_outputs. cbn [res final events]. rewrite encode_outputs_app.
    split; [etransitivity; eassumption|]. split; [|split].
    + apply NoDup_app. split; [exact Hn1|]. split; [|exact Hn2].
      intros p Hin1 Hin2. apply list_elem_of_In in Hin1, Hin2.
      destruct (Hp1 a eq_refl p Hin1) as [n Hn].
      rewrite (Ha2 p Hin2) in Hn. discriminate.
    + intros p Hin. apply in_app_or in Hin. destruct Hin as [Hin|Hin]; [now apply Ha1|].
      eapply lookup_weaken_None; [apply Ha2, Hin | exact Hs1].
    + intros b Hb p Hin. apply in_app_or in Hin. destruct Hin as [Hin|Hin].
      * destruct (Hp1 a eq_refl p Hin) as [n Hn]. exists n.
        eapply lookup_weaken; eassumption.
      * now apply (Hp2 b).
Qed.

Lemma fresh_for_each {A} (l : list A) (body : A -> IO unit) fs :
  (forall x fs', fresh_outputs fs' (body x fs')) ->
  fresh_outputs fs (for_each l body fs).
Proof.
  intros H. revert fs. induction l as [|x l IH]; intros fs; cbn [for_each].
  - now apply fresh_pure.
  - apply fresh_bind; [apply H|]. intros _ fs'. apply IH.
Qed.

Lemma fresh_process_file cvp root file fs :
  fresh_outputs fs (process_file t cvp root file fs).
Proof.
  rewrite process_file_unfold. cbv zeta.
  destruct (is_video_file file); [|now apply fresh_pure].
  destruct (fs !! os_path_join cvp file) eqn:Hout; [now apply fresh_pure|].
  destruct (read_track _) as [e|[[[fr br] w] h]]; [now apply fresh_pure|].
  destruct (Py.float_lt_int br VIDEO_BITRATE); [now apply fresh_pure|].
  destruct (gop_size fr) as [e|gop]; [now apply fresh_pure|].
  destruct (calculate_new_resolution w h) as [e|[nw nh]]; [now apply fresh_pure|].
  set (command := ffmpeg_command _ _ _ _ _ _).
  assert (Hone : NoDup [os_path_join cvp file]).
  { apply NoDup_singleton. }
  destruct (ffmpeg t command) as [e|rc written] eqn:Hff;
    unfold fresh_outputs; cbn [res final events encode_outputs].
  - change (command_output command) with (os_path_join cvp file).
    split; [reflexivity|]. split; [exact Hone|].
    split; [intros p [<-|[]]; exact Hout | intros a Ha; discriminate].
  - change (command_output command) with (os_path_join cvp file).
    split; [destruct written; [now apply insert_subseteq | reflexivity]|].
    split; [exact Hone|]. split; [intros p [<-|[]]; exact Hout|].
    intros a Ha p [<-|[]].
    destruct (Z.eqb_spec rc 0) as [->|]; [|discriminate].
    destruct written as [data|]; [|now destruct (Hwrites _ _ Hff)].
    rewrite lookup_insert_eq. now eexists.
Qed.

Lemma fresh_process_videos mfp fs :
  fresh_outputs fs (process_videos t mfp fs).
Proof.
  unfold process_videos. apply fresh_bind.
  - destruct (ensure_exists_spec (os_path_join (os_path_join mfp "Custom Versions")
                                               QUALITY_PROFILE) fs)
      as (_ & He & Hs & _). cbv zeta in He, Hs.
    unfold fresh_outputs. rewrite He. cbn [encode_outputs].
    split; [exact Hs|]. split; [constructor|]. split; intros; contradiction.
  - intros _ fs'. apply fresh_for_each. intros [[root dirs] files] fs''.
    unfold process_directory. destruct (str_in _ root); [now apply fresh_pure|].
    apply fresh_for_each. intros file fs3. apply fresh_process_file.
Qed.
End Completion.

(* ================================================================= *)
(** * More about strings: cancellation, [rfind], [splitext] *)

Lemma string_length_app (a b : string) :
  String.length (a ++ b) = (String.length a + String.length b)%nat.
Proof.
  induction a as [|c a IH]; [reflexivity|].
  rewrite string_app_cons. cbn [String.length]. now rewrite IH.
Qed.

Lemma string_app_inv_tail (a b f : string) : (a ++ f = b ++ f)%string -> a = b.
Proof.
  revert b. induction a as [|c a IH]; intros [|d b] H.
  - reflexivity.
  - exfalso. apply (f_equal String.length) in H.
    rewrite string_app_nil_l, string_length_app in H. cbn [String.length] in H. lia.
  - exfalso. apply (f_equal String.length) in H.
    rewrite string_app_nil_l, string_length_app in H. cbn [String.length] in H. lia.
  - rewrite !string_app_cons in H. inversion H. f_equal. now apply IH.
Qed.

Lemma string_snoc_inj (a b : string) (c d : ascii) :
  (a ++ String c "" = b ++ String d "")%string -> a = b /\ c = d.
Proof.
  revert b. induction a as [|x a IH]; intros [|y b] H.
  - rewrite !string_app_nil_l in H. inversion H. now split.
  - exfalso. rewrite string_app_nil_l, string_app_cons in H. inversion H as [[Hx Hb]].
    destruct b; discriminate.
  - exfalso. rewrite string_app_nil_l, string_app_cons in H. inversion H as [[Hx Ha]].
    destruct a; discriminate.
  - rewrite !string_app_cons in H. inversion H. destruct (IH b) as [-> ->]; [assumption|].
    now split.
Qed.

(** A directory under one whose path has the words, has them too. *)
Lemma lies_under_contains (needle base root : string) :
  str_in needle base = true -> lies_under base root -> str_in needle root = true.
Proof.
  intros Hbase. induction 1 as [|dir name _ IH Hname]; [exact Hbase|].
  now apply str_in_join_l.
Qed.

Lemma output_directory_contains (movie_folder_path : string) :
  str_in "Custom Versions" (output_directory movie_folder_path) = true.
Proof.
  unfold output_directory. apply str_in_join_l; [reflexivity|]. apply str_in_join_r.
Qed.

(** The output directory does not end in a slash. *)
Lemma output_directory_open (movie_folder_path : string) :
  String.eqb (output_directory movie_folder_path) "" ||
  endswith (output_directory movie_folder_path) "/" = false.
Proof.
  unfold output_directory.
  set (cv := os_path_join movie_folder_path "Custom Versions").
  assert (Hshape : exists x, os_path_join cv QUALITY_PROFILE = (x ++ "s")%string).
  { unfold os_path_join. change (startswith QUALITY_PROFILE "/") with false. cbv iota.
    destruct (_ || _).
    - exists (cv ++ "1Mbp")%string. now rewrite string_app_assoc.
    - exists (cv ++ "/1Mbp")%string. now rewrite string_app_assoc. }
  destruct Hshape as [x ->]. apply orb_false_intro.
  - apply String.eqb_neq. intros H. apply (f_equal String.length) in H.
    rewrite string_length_app in H. cbn [String.length] in H. lia.
  - destruct (endswith (x ++ "s") "/") eqn:He; [exfalso|reflexivity].
    apply endswith_spec in He. destruct He as [p Hp].
    apply string_snoc_inj in Hp. destruct Hp as [_ Hp]. discriminate.
Qed.

(** The input and the output of an encode are different files. *)
Lemma input_is_not_output (movie_folder_path root file : string) :
  str_in "Custom Versions" root = false ->
  startswith file "/" = false ->
  os_path_join root file <> os_path_join (output_directory movie_folder_path) file.
Proof.
  intros Hroot Hfile Heq. unfold os_path_join at 1 2 in Heq. rewrite Hfile in Heq.
  rewrite output_directory_open in Heq.
  pose proof (output_directory_contains movie_folder_path) as Hout.
  set (out := output_directory movie_folder_path) in *. clearbody out.
  destruct (_ || _).
  - rewrite <- string_app_assoc in Heq. apply string_app_inv_tail in Heq.
    subst root. rewrite str_in_app_l in Hroot by exact Hout. discriminate.
  - rewrite <- !string_app_assoc in Heq. apply string_app_inv_tail in Heq.
    apply string_snoc_inj in Heq. destruct Heq as [-> _]. congruence.
Qed.

Lemma rfind_app (c : ascii) (a b : string) :
  rfind c (a ++ b) =
  match rfind c b with
  | Some i => Some (String.length a + i)%nat
  | None => rfind c a
  end.
Proof.
  induction a as [|x a IH].
  - rewrite string_app_nil_l. now destruct (rfind c b).
  - rewrite string_app_cons. cbn [rfind String.length]. rewrite IH.
    now destruct (rfind c b).
Qed.

Lemma has_non_dot_prefix (a b : string) :
  has_non_dot (a ++ b) 0 (String.length a) = negb (all_dots a).
Proof.
  induction a as [|x a IH]; [now destruct b|].
  rewrite string_app_cons. cbn [has_non_dot String.length all_dots].
  destruct (Ascii.eqb x "."); [exact IH | reflexivity].
Qed.

Lemma substring_prefix (a b : string) : substring 0 (String.length a) (a ++ b) = a.
Proof.
  induction a as [|x a IH]; [now destruct b|].
  rewrite string_app_cons. cbn [substring String.length]. now rewrite IH.
Qed.

(** [os.path.splitext] on a name without a slash that ends in an
    extension of one dot. *)
Lemma splitext_root_app (stem ext : string) :
  rfind "/" (stem ++ ext) = None ->
  rfind "." ext = Some O ->
  splitext_root (stem ++ ext) = if all_dots stem then (stem ++ ext)%string else stem.
Proof.
  intros Hslash Hdot. unfold splitext_root.
  rewrite (rfind_app "." stem ext), Hdot, Hslash, Nat.add_0_r.
  cbn [Nat.leb andb]. rewrite has_non_dot_prefix.
  destruct (all_dots stem); cbn [negb]; [reflexivity | apply substring_prefix].
Qed.

(* ================================================================= *)
(** * What the loops write *)

Section Writes.
Context (t : tools).

Lemma writes_only_pure {A} (fs : filesystem) (o : outcome A) :
  final o = fs -> writes_only t fs o.
Proof. intros H p n Hp. rewrite H in Hp. now left. Qed.

Lemma writes_only_bind {A B} (m : IO A) (k : A -> IO B) fs :
  writes_only t fs (m fs) ->
  (forall a fs', writes_only t fs' (k a fs')) ->
  writes_only t fs (bind m k fs).
Proof.
  intros Hm Hk. unfold bind. destruct (res (m fs)) as [e|a].
  - intros p n Hp. cbn [final events] in *. exact (Hm p n Hp).
  - intros p n Hp. cbn [final events] in *.
    destruct (Hk a (final (m fs)) p n Hp) as [H|(c & rc & d & Hin & Hrest)].
    + destruct (Hm p n H) as [H'|(c & rc & d & Hin & Hrest)]; [now left|].
      right. exists c, rc, d. split; [|exact Hrest]. apply in_or_app. now left.
    + right. exists c, rc, d. split; [|exact Hrest]. apply in_or_app. now right.
Qed.

Lemma writes_only_for_each {A} (l : list A) (body : A -> IO unit) fs :
  (forall x fs', writes_only t fs' (body x fs')) ->
  writes_only t fs (for_each l body fs).
Proof.
  intros H. revert fs. induction l as [|x l IH]; intros fs; cbn [for_each].
  - now apply writes_only_pure.
  - apply writes_only_bind; [apply H|]. intros _ fs'. apply IH.
Qed.

Lemma writes_only_process_file cvp root file fs :
  writes_only t fs (process_file t cvp root file fs).
Proof.
  rewrite process_file_unfold. cbv zeta.
  destruct (is_video_file file); [|now apply writes_only_pure].
  destruct (fs !! os_path_join cvp file); [now apply writes_only_pure|].
  destruct (read_track _) as [e|[[[fr br] w] h]]; [now apply writes_only_pure|].
  destruct (Py.float_lt_int br VIDEO_BITRATE); [now apply writes_only_pure|].
  destruct (gop_size fr) as [e|gop]; [now apply writes_only_pure|].
  destruct (calculate_new_resolution w h) as [e|[nw nh]]; [now apply writes_only_pure|].
  set (command := ffmpeg_command _ _ _ _ _ _).
  destruct (ffmpeg t command) as [e|rc [data|]] eqn:Hff; try now apply writes_only_pure.
  intros p n Hp. cbn [final events] in *.
  destruct (decide (os_path_join cvp file = p)) as [Heq|Hne].
  - rewrite Heq, lookup_insert_eq in Hp. inversion Hp. right.
    exists command, rc, data. split; [right; now left|]. now repeat split.
  - rewrite lookup_insert_ne in Hp by exact Hne. now left.
Qed.

Lemma writes_only_process_directory cvp entry fs :
  writes_only t fs (process_directory t cvp entry fs).
Proof.
  destruct entry as [[root dirs] files]. unfold process_directory.
  destruct (str_in _ root); [now apply writes_only_pure|].
  apply writes_only_for_each. intros file fs'. apply writes_only_process_file.
Qed.

(** The directories that [os.makedirs] creates for a path are not
    longer than the path. *)
Lemma prefixes_at_slash_length (s : string) : forall acc p,
  In p (prefixes_at_slash acc s) ->
  (String.length p < String.length acc + String.length s)%nat.
Proof.
  induction s as [|c s IH]; intros acc p Hin; cbn [prefixes_at_slash] in Hin; [destruct Hin|].
  apply in_app_or in Hin. cbn [String.length]. destruct Hin as [Hin|Hin].
  - destruct (Ascii.eqb c "/" && negb (String.eqb acc "")); [|destruct Hin].
    destruct Hin as [<-|[]]. lia.
  - apply IH in Hin. rewrite string_length_app in Hin. cbn [String.length] in Hin. lia.
Qed.

(** A path that is longer than the output directory is not created by
    the run as a directory: what [process_videos] leaves there was
    there before, or is the output of one of its encodes. *)
Lemma process_videos_writes movie_folder_path fs p n :
  (String.length (output_directory movie_folder_path) < String.length p)%nat ->
  final (process_videos t movie_folder_path fs) !! p = Some n ->
  fs !! p = Some n \/
  exists command returncode data,
    In (Run_ffmpeg command) (events (process_videos t movie_folder_path fs)) /\
    command_output command = p /\
    ffmpeg t command = Ffmpeg_exit returncode (Some data) /\
    n = File data.
Proof.
  intros Hlong. unfold process_videos. fold (output_directory movie_folder_path).
  set (cvp := output_directory movie_folder_path) in *.
  set (ensure := let* present := os_path_exists cvp in
                 if negb present then os_makedirs cvp else ret tt).
  assert (Hsame : final (ensure fs) !! p = fs !! p).
  { unfold ensure, bind, os_path_exists. cbn [res final events ok].
    destruct (fs !! cvp) as [m|] eqn:Hc; cbn [negb ret os_makedirs res final events];
      [reflexivity|].
    destruct (foldl mkdir_if_absent fs (prefixes_at_slash "" cvp ++ [cvp]) !! p) as [m|] eqn:Hp.
    - apply foldl_mkdir_lookup in Hp. destruct Hp as [Hp|[_ Hin]]; [now rewrite Hp|].
      exfalso. apply in_app_or in Hin. destruct Hin as [Hin|[<-|[]]]; [|lia].
      apply prefixes_at_slash_length in Hin. cbn [String.length] in Hin. lia.
    - symmetry. eapply lookup_weaken_None; [exact Hp | apply foldl_mkdir_subseteq]. }
  intros Hp.
  destruct (ensure_exists_spec cvp fs) as (Hr0 & He0 & _). cbv zeta in Hr0, He0.
  fold ensure in Hr0, He0.
  change ((ensure ;; ?k) fs) with (bind ensure (fun _ => k) fs) in *.
  unfold bind in *. rewrite Hr0 in *. cbv beta iota delta [ok] in *.
  cbn [res final events] in *. rewrite He0. cbn [app].
  destruct (writes_only_for_each (os_walk t movie_folder_path) (process_directory t cvp)
              (final (ensure fs))
              (fun entry fs' => writes_only_process_directory cvp entry fs') p n Hp)
    as [H|H]; [left; now rewrite <- Hsame | now right].
Qed.
End Writes.

(* ================================================================= *)
(** * The whole run *)


(** X1. The events of a whole run, on any console.  When the library
    path is missing: its message and nothing else (nothing at all when
    the console refuses the message).  Otherwise, file by file, a
    probe followed by the failure and skip messages, by the skip
    message, or by a successful encode; and then the completion
    message when the run returns, or, when it raises, the probe (and
    the failed encode, or the one message printed) of the file at
    which it aborts, or nothing when the completion message is
    refused.  The calls on the file system are taken to succeed. *)
Theorem main_trace (c : console) (t : tools) (arg_plex_library_path : string)
        (fs : filesystem) :
  let o := Printing.main c t arg_plex_library_path fs in
  match fs !! os_path_expanduser t arg_plex_library_path with
  | None =>
      match refuses c Print_path_missing with
      | None => o = Outcome (ok tt) fs [Print_path_missing]
      | Some x => o = Outcome (raise x) fs []
      end
  | Some _ =>
      match res o with
      | inr _ => exists pre, events o = pre ++ [Print_complete] /\ blocks t pre
      | inl e => exists pre tail,
          events o = pre ++ tail /\ blocks t pre /\
          (abort_tail c t e tail \/ (tail = [] /\ refuses c Print_complete = Some e))
      end
  end.
Proof.
  cbv zeta. rewrite printing_main_unfold. cbv zeta.
  set (path := os_path_expanduser t arg_plex_library_path).
  pose proof (shape_main_loop c t path fs) as Hloop. cbv zeta in Hloop.
  set (loop := for_each (os_listdir t path) _) in *.
  destruct (fs !! path) as [n|].
  2:{ destruct (refuses c Print_path_missing); reflexivity. }
  unfold run_shape in Hloop.
  destruct (res (loop fs)) as [e|[]]; cbn [res final events].
  - destruct Hloop as (pre & tail & Hev & Hpre & Htail).
    exists pre, tail. split; [exact Hev|]. split; [exact Hpre | now left].
  - destruct (refuses c Print_complete) as [x|] eqn:Hp; cbn [res final events raise ok].
    + exists (events (loop fs)), []. rewrite app_nil_r.
      split; [reflexivity|]. split; [exact Hloop | now right].
    + now exists (events (loop fs)).
Qed.



(** X3. [main] removes and changes nothing that exists: every path
    keeps what it named.  What it adds are directories and the output
    files that the encodes among its events wrote. *)
Theorem main_keeps_and_creates (t : tools) (arg_plex_library_path : string)
        (fs : filesystem) :
  let o := main t arg_plex_library_path fs in
  (forall p n, fs !! p = Some n -> final o !! p = Some n) /\
  (forall p data,
      final o !! p = Some (File data) ->
      fs !! p = Some (File data) \/
      exists command returncode,
        In (Run_ffmpeg command) (events o) /\
        command_output command = p /\
        ffmpeg t command = Ffmpeg_exit returncode (Some data)).
Proof.
  cbv zeta. split.
  - intros p n Hp. eapply lookup_weaken; [exact Hp | apply keeps_main].
  - intros p data Hp.
    destruct (creates_only_main t arg_plex_library_path fs p _ Hp)
      as [H|[H|(c & rc & d & Hin & Hout & Hff & Hd)]];
      [now left | discriminate |].
    inversion Hd; subst d. right. now exists c, rc.
Qed.

(* ================================================================= *)
(** * The output folder *)

(** X4. [ensure_custom_versions_folder] returns without events; after
    it the folder [Custom Versions] of the title and the folder of the
    quality profile in it exist; what existed is unchanged, what is new
    is a directory; and a second call changes nothing. *)
Theorem ensure_custom_versions_folder_creates_both (movie_folder_path : string)
        (fs : filesystem) :
  let o := ensure_custom_versions_folder movie_folder_path fs in
  res o = ok tt /\ events o = [] /\
  is_Some (final o !! os_path_join movie_folder_path "Custom Versions") /\
  is_Some (final o !! os_path_join (os_path_join movie_folder_path "Custom Versions")
                                   QUALITY_PROFILE) /\
  (forall p n, fs !! p = Some n -> final o !! p = Some n) /\
  (forall p n, final o !! p = Some n -> fs !! p = Some n \/ n = Directory) /\
  ensure_custom_versions_folder movie_folder_path (final o) = Outcome (ok tt) (final o) [].
Proof.
  cbv zeta.
  destruct (ensure_custom_versions_folder_spec movie_folder_path fs)
    as (Hr & He & Hs & Hcv & Hq & Hn). cbv zeta in Hr, He, Hs, Hcv, Hq, Hn.
  unfold output_directory in Hq.
  set (fs' := final (ensure_custom_versions_folder movie_folder_path fs)) in *.
  repeat (split; [assumption|]).
  split; [intros p n Hp; eapply lookup_weaken; eassumption|].
  split; [exact Hn|].
  unfold ensure_custom_versions_folder, bind, os_path_exists.
  cbn [res final events ok].
  destruct Hcv as [n1 ->]. cbn [negb ret res final events ok].
  destruct Hq as [n2 ->]. reflexivity.
Qed.

(* ================================================================= *)
(** * What a run of [process_videos] achieves *)

(** X5. When every [ffmpeg] that exits with status 0 has written its
    output, then after a run of [process_videos] that returns, every
    video file of the walk (outside the skipped directories, with a
    relative name, as [os.walk] gives it) whose probe succeeds with a
    bitrate not below the threshold has its output in the output
    folder: at the path of that name lies what was there before the
    run, as it was, or the file that an encode of the run wrote. *)
Theorem eligible_videos_are_converted (t : tools) (movie_folder_path : string)
        (fs : filesystem) (root file : string)
        (framerate bitrate : Py.float) (width height : Z) :
  success_writes_output t ->
  res (process_videos t movie_folder_path fs) = ok tt ->
  walk_candidates t movie_folder_path root file ->
  is_video_file file = true ->
  startswith file "/" = false ->
  read_track (mediainfo t (os_path_join root file)) = ok (framerate, bitrate, width, height) ->
  Py.float_lt_int bitrate VIDEO_BITRATE = false ->
  let o := process_videos t movie_folder_path fs in
  let output_file := os_path_join (output_directory movie_folder_path) file in
  exists n,
    final o !! output_file = Some n /\
    (fs !! output_file = Some n \/
     exists command returncode data,
       In (Run_ffmpeg command) (events o) /\
       command_output command = output_file /\
       ffmpeg t command = Ffmpeg_exit returncode (Some data) /\
       n = File data).
Proof.
  intros Hw Hres Hcand Hv Hrel Hread Hlow o output_file.
  destruct (process_videos_completes t Hw movie_folder_path fs root file
              framerate bitrate width height Hres Hcand Hv Hread Hlow) as [n Hn].
  exists n. split; [exact Hn|].
  apply process_videos_writes; [|exact Hn].
  unfold output_file, os_path_join. rewrite Hrel, output_directory_open.
  rewrite !string_length_app. cbn [String.length]. lia.
Qed.

Lemma eligible_videos_are_converted_witness :
  let o := process_videos example_tools "lib/Film" example_fs in
  let output_file := os_path_join (output_directory "lib/Film") "a.mp4" in
  exists n,
    final o !! output_file = Some n /\
    (example_fs !! output_file = Some n \/
     exists command returncode data,
       In (Run_ffmpeg command) (events o) /\
       command_output command = output_file /\
       ffmpeg example_tools command = Ffmpeg_exit returncode (Some data) /\
       n = File data).
Proof.
  assert (H1 : success_writes_output example_tools).
  { intros command written H. inversion H. discriminate. }
  assert (H2 : res (process_videos example_tools "lib/Film" example_fs) = ok tt)
    by (vm_compute; reflexivity).
  assert (H3 : walk_candidates example_tools "lib/Film" "lib/Film" "a.mp4").
  { split; [vm_compute; reflexivity|]. eexists _, _. split; [left; reflexivity|].
    left; reflexivity. }
  assert (H4 : is_video_file "a.mp4" = true) by (vm_compute; reflexivity).
  assert (H5 : read_track (mediainfo example_tools (os_path_join "lib/Film" "a.mp4"))
               = ok (Py.float_of_decimal 23976 3,
                     S754_finite false 5497558138880000 (-40), 1920, 1080))
    by (vm_compute; reflexivity).
  assert (H6 : Py.float_lt_int (S754_finite false 5497558138880000 (-40)) VIDEO_BITRATE = false)
    by (vm_compute; reflexivity).
  assert (H7 : startswith "a.mp4" "/" = false) by (vm_compute; reflexivity).
  exact (eligible_videos_are_converted example_tools "lib/Film" example_fs
           "lib/Film" "a.mp4" _ _ _ _ H1 H2 H3 H4 H7 H5 H6).
Defined.

(** X6. After such a run, a second run encodes nothing: with the same
    probe results, the same or fewer files to walk, and a file system
    that has kept what the first run left, no [ffmpeg] is run. *)
Theorem second_run_encodes_nothing (t t' : tools) (movie_folder_path : string)
        (fs fs' : filesystem) :
  success_writes_output t ->
  res (process_videos t movie_folder_path fs) = ok tt ->
  (forall p, mediainfo t' p = mediainfo t p) ->
  (forall root file, walk_candidates t' movie_folder_path root file ->
                     walk_candidates t movie_folder_path root file) ->
  final (process_videos t movie_folder_path fs) ⊆ fs' ->
  forall command, ~ In (Run_ffmpeg command) (events (process_videos t' movie_folder_path fs')).
Proof.
  intros Hw Hok Hprobe Hwalk Hsub command Hin.
  destruct (encode_has_reason t' movie_folder_path fs' command Hin)
    as (r & f & fr & br & w & h & gop & nw & nh & _ & Hcand & Hvid & Hnone & Hread & Hlow & _).
  rewrite Hprobe in Hread.
  destruct (process_videos_completes t Hw movie_folder_path fs r f fr br w h
              Hok (Hwalk _ _ Hcand) Hvid Hread Hlow) as [n Hn].
  rewrite (lookup_weaken _ _ _ _ Hn Hsub) in Hnone. discriminate.
Qed.

Lemma second_run_encodes_nothing_witness :
  (exists command,
      In (Run_ffmpeg command) (events (process_videos example_tools "lib/Film" example_fs))) /\
  (forall command,
      ~ In (Run_ffmpeg command)
           (events (process_videos example_tools "lib/Film"
                      (final (process_videos example_tools "lib/Film" example_fs))))).
Proof.
  split.
  - eexists. vm_compute. right. left. reflexivity.
  - assert (H1 : success_writes_output example_tools).
    { intros command written H. inversion H. discriminate. }
    assert (H2 : res (process_videos example_tools "lib/Film" example_fs) = ok tt)
      by (vm_compute; reflexivity).
    exact (second_run_encodes_nothing example_tools example_tools "lib/Film" example_fs _
             H1 H2 (fun p => eq_refl) (fun root file H => H) (reflexivity _)).
Defined.

(** X7. When every [ffmpeg] that exits with status 0 has written its
    output, no two encodes of a run of [process_videos] write to the
    same output file: of several sources with one name, at most one is
    encoded. *)
Theorem no_output_is_encoded_twice (t : tools) (movie_folder_path : string)
        (fs : filesystem) :
  success_writes_output t ->
  NoDup (encode_outputs (events (process_videos t movie_folder_path fs))).
Proof.
  intros Hw. exact (proj1 (proj2 (fresh_process_videos t Hw movie_folder_path fs))).
Qed.

Lemma no_output_is_encoded_twice_witness :
  let o := process_videos twin_tools "lib/Film" example_fs in
  NoDup (encode_outputs (events o)) /\
  walk_candidates twin_tools "lib/Film" "lib/Film" "a.mp4" /\
  walk_candidates twin_tools "lib/Film" "lib/Film/extras" "a.mp4" /\
  events o =
  [Run_mediainfo "lib/Film/a.mp4";
   Run_ffmpeg (ffmpeg_command "lib/Film/a.mp4" "a.mp4" 12 854 480
                              "lib/Film/Custom Versions/1Mbps/a.mp4")].
Proof.
  assert (H1 : success_writes_output twin_tools).
  { intros command written H. inversion H. discriminate. }
  split; [exact (no_output_is_encoded_twice twin_tools "lib/Film" example_fs H1)|].
  split; [|split].
  - split; [vm_compute; reflexivity|]. eexists _, _. split; [left; reflexivity|].
    left; reflexivity.
  - split; [vm_compute; reflexivity|]. eexists _, _. split; [right; left; reflexivity|].
    left; reflexivity.
  - vm_compute. reflexivity.
Defined.

(** X8. When the file names of the walk are relative, as [os.walk]
    gives them, the output file of every encode differs from its input
    file. *)
Theorem encode_output_differs_from_input (t : tools) (movie_folder_path : string)
        (fs : filesystem) :
  (forall root dirs files file,
      In (root, dirs, files) (os_walk t movie_folder_path) -> In file files ->
      startswith file "/" = false) ->
  Forall (fun ev => forall command,
              ev = Run_ffmpeg command -> command_input command <> command_output command)
         (events (process_videos t movie_folder_path fs)).
Proof.
  intros Hnames. apply List.Forall_forall. intros ev Hin command ->.
  destruct (encode_has_reason t movie_folder_path fs command Hin)
    as (r & f & fr & br & w & h & gop & nw & nh & -> & Hcand & _).
  rewrite command_input_ffmpeg_command, command_output_ffmpeg_command.
  destruct Hcand as (Hcv & dirs & files & Hentry & Hfile).
  apply input_is_not_output; [exact Hcv|]. exact (Hnames _ _ _ _ Hentry Hfile).
Qed.

Lemma encode_output_differs_from_input_witness :
  Forall (fun ev => forall command,
              ev = Run_ffmpeg command -> command_input command <> command_output command)
         (events (process_videos example_tools "lib/Film" example_fs)).
Proof.
  apply (encode_output_differs_from_input example_tools "lib/Film" example_fs).
  intros root dirs files file Hentry Hfile.
  destruct Hentry as [H|[H|[H|[]]]]; inversion H; subst; clear H;
    repeat (destruct Hfile as [<-|Hfile]; [reflexivity|]); destruct Hfile.
Defined.

(** X9. Every encode of a run is of a file whose probe reported a
    [BitRate] field that converts to an int of at least 1,000,000, and
    a [Width] that is not 0: a track without [BitRate] is never
    encoded. *)
Theorem every_encode_has_bitrate_and_width (t : tools) (movie_folder_path : string)
        (fs : filesystem) (command : list string) :
  In (Run_ffmpeg command) (events (process_videos t movie_folder_path fs)) ->
  exists track n framerate bitrate width height,
    mediainfo t (command_input command) = Probe_track track /\
    BitRate track = Some (ok n) /\ 1000000 <= n /\
    read_track (Probe_track track) = ok (framerate, bitrate, width, height) /\
    width <> 0.
Proof.
  intros Hin.
  destruct (encode_has_reason t movie_folder_path fs command Hin)
    as (r & f & fr & br & w & h & gop & nw & nh & -> & _ & _ & _ & Hread & Hlow & _ & Hres).
  rewrite command_input_ffmpeg_command.
  destruct (mediainfo t (os_path_join r f)) as [e|track] eqn:Hm; [discriminate Hread|].
  assert (Hfin : finite_float br) by (eapply read_track_bitrate_finite, Hread).
  assert (Hw : w <> 0).
  { intros ->. change (calculate_new_resolution 0 h) with (@raise (Z * Z) ZeroDivisionError) in Hres.
    discriminate Hres. }
  assert (Hbr : exists n, BitRate track = Some (ok n) /\ Py.int_truediv n 1000 = ok br).
  { unfold read_track in Hread. unfold ok, raise in *.
    destruct (match FrameRate track with Some r0 => r0 | None => Py.float_of_int 0 end);
      cbn [rbind] in Hread; [discriminate|].
    destruct (BitRate track) as [[e|n]|]; cbn [rbind] in Hread; [discriminate| |].
    - exists n. split; [reflexivity|].
      destruct (Py.int_truediv n 1000) as [e|b]; cbn [rbind] in Hread; [discriminate|].
      destruct (match Width track with Some r0 => r0 | None => inr 0 end);
        cbn [rbind] in Hread; [discriminate|].
      destruct (match Height track with Some r0 => r0 | None => inr 0 end);
        cbn [rbind] in Hread; [discriminate|].
      inversion Hread; subst. reflexivity.
    - exfalso.
      change (Py.int_truediv 0 1000) with (@inr exn Py.float (S754_zero false)) in Hread.
      cbn [rbind] in Hread.
      destruct (match Width track with Some r0 => r0 | None => inr 0 end);
        cbn [rbind] in Hread; [discriminate|].
      destruct (match Height track with Some r0 => r0 | None => inr 0 end);
        cbn [rbind] in Hread; [discriminate|].
      inversion Hread; subst. vm_compute in Hlow. discriminate Hlow. }
  destruct Hbr as (n & Hn & Hdiv).
  exists track, n, fr, br, w, h. repeat (split; [first [reflexivity | assumption]|]).
  split; [|split; [exact Hread | exact Hw]].
  destruct (Z_lt_le_dec n 1000000) as [Hsmall|]; [exfalso|assumption].
  pose proof (bitrate_below_threshold n br Hdiv Hsmall) as Hval.
  apply (float_lt_threshold br Hfin) in Hval. congruence.
Qed.

Lemma every_encode_has_bitrate_and_width_witness :
  exists track n framerate bitrate width height,
    mediainfo example_tools "lib/Film/a.mp4" = Probe_track track /\
    BitRate track = Some (ok n) /\ 1000000 <= n /\
    read_track (Probe_track track) = ok (framerate, bitrate, width, height) /\
    width <> 0.
Proof.
  assert (H : In (Run_ffmpeg
                    (ffmpeg_command "lib/Film/a.mp4" "a.mp4" 11 854 480
                                    "lib/Film/Custom Versions/1Mbps/a.mp4"))
                 (events (process_videos example_tools "lib/Film" example_fs))).
  { vm_compute. right. left. reflexivity. }
  exact (every_encode_has_bitrate_and_width example_tools "lib/Film" example_fs _ H).
Defined.

(** X10. A title whose own path contains the words [Custom Versions]
    is not processed at all: when the directories of the walk lie under
    the title's folder, as [os.walk] gives them, and the creation of
    the output directory succeeds, [process_videos] returns without a
    probe, an encode or a message. *)
Theorem title_path_with_custom_versions_is_skipped (t : tools)
        (movie_folder_path : string) (fs : filesystem) :
  str_in "Custom Versions" movie_folder_path = true ->
  (forall root dirs files,
      In (root, dirs, files) (os_walk t movie_folder_path) ->
      lies_under movie_folder_path root) ->
  res (process_videos t movie_folder_path fs) = ok tt /\
  events (process_videos t movie_folder_path fs) = [].
Proof.
  intros Hcv Hroots. unfold process_videos.
  set (cvp := os_path_join (os_path_join movie_folder_path "Custom Versions") QUALITY_PROFILE).
  destruct (ensure_exists_spec cvp fs) as (Hr0 & He0 & _). cbv zeta in Hr0, He0.
  set (m0 := let* present := os_path_exists cvp in
             if negb present then os_makedirs cvp else ret tt) in *.
  change ((m0 ;; ?k) fs) with (bind m0 (fun _ => k) fs).
  unfold bind. rewrite Hr0. cbv beta iota delta [ok]. cbn [res final events].
  rewrite He0. rewrite for_each_does_nothing; [now split|].
  intros [[root dirs] files] Hentry. unfold process_directory.
  now rewrite (lies_under_contains _ _ _ Hcv (Hroots _ _ _ Hentry)).
Qed.

Lemma title_path_with_custom_versions_is_skipped_witness :
  let t := {| mediainfo := example_mediainfo;
              ffmpeg := fun _ => Ffmpeg_exit 0 (Some "encoded"%string);
              os_walk := fun top => [(top, [], ["a.mp4"%string])];
              os_listdir := fun _ => [];
              os_path_expanduser := fun p => p |} in
  res (process_videos t "lib/My Custom Versions" example_fs) = ok tt /\
  events (process_videos t "lib/My Custom Versions" example_fs) = [].
Proof.
  cbv zeta. apply title_path_with_custom_versions_is_skipped.
  - vm_compute. reflexivity.
  - intros root dirs files [H|[]]. inversion H. constructor.
Defined.

(* ================================================================= *)
(** * The library *)

(** X11. When the library path is a directory of which no entry is a
    directory (the videos lie in the library folder itself), and the
    console takes the completion message, [main] probes nothing,
    creates nothing and prints the completion message. *)
Theorem library_without_title_folders (c : console) (t : tools)
        (arg_plex_library_path : string) (fs : filesystem) :
  let plex_library_path := os_path_expanduser t arg_plex_library_path in
  fs !! plex_library_path = Some Directory ->
  (forall movie_folder,
      In movie_folder (os_listdir t plex_library_path) ->
      fs !! os_path_join plex_library_path movie_folder <> Some Directory) ->
  refuses c Print_complete = None ->
  Printing.main c t arg_plex_library_path fs = Outcome (ok tt) fs [Print_complete].
Proof.
  cbv zeta. intros Hp Hfiles Hc. unfold Printing.main. cbv zeta.
  set (path := os_path_expanduser t arg_plex_library_path) in *.
  assert (Hex : os_path_exists path fs = Outcome (ok true) fs [])
    by (unfold os_path_exists; now rewrite Hp).
  rewrite (bind_returns _ _ fs true) by now rewrite Hex.
  rewrite Hex. cbn [res final events negb app].
  set (loop := for_each (os_listdir t path) _).
  assert (Hloop : loop fs = Outcome (ok tt) fs []).
  { apply for_each_does_nothing.
    intros movie_folder Hin. unfold bind, os_path_isdir. cbn [res final events ok].
    specialize (Hfiles _ Hin).
    destruct (fs !! os_path_join path movie_folder) as [[|d]|]; cbn [negb];
      [contradiction | reflexivity | reflexivity]. }
  unfold bind. rewrite Hloop. cbn [res final events ok]. unfold Printing.print.
  rewrite Hc. reflexivity.
Qed.

Lemma library_without_title_folders_witness :
  Printing.main quiet_console example_tools "lib"
                (<["lib" := Directory]> (<["lib/Film" := File "x"]> ∅))
  = Outcome (ok tt) (<["lib" := Directory]> (<["lib/Film" := File "x"]> ∅)) [Print_complete].
Proof.
  apply (library_without_title_folders quiet_console example_tools "lib").
  - vm_compute. reflexivity.
  - intros movie_folder [<-|[<-|[]]]; vm_compute; discriminate.
  - reflexivity.
Defined.

(* ================================================================= *)
(** * The command line *)

(** X12. The title given to [ffmpeg] is the file name without the
    extension that made it a video file; only a name that is dots and
    the extension (such as [.mp4]) keeps it.  (For a name without a
    slash, as [os.walk] gives them.) *)
Theorem title_is_the_name_without_extension (file : string) :
  is_video_file file = true ->
  rfind "/" file = None ->
  exists stem ext,
    file = (stem ++ ext)%string /\
    In ext [".mp4"; ".mkv"; ".webm"; ".avi"]%string /\
    forall input gop new_width new_height output,
      nth 29 (ffmpeg_command input file gop new_width new_height output) ""%string
      = "-metadata"%string /\
      nth 30 (ffmpeg_command input file gop new_width new_height output) ""%string
      = ("title=" ++ (if all_dots stem then file else stem))%string.
Proof.
  intros Hvid Hslash. unfold is_video_file in Hvid.
  apply existsb_exists in Hvid. destruct Hvid as (ext & Hext & Hends).
  apply endswith_spec in Hends. destruct Hends as [stem ->].
  exists stem, ext. split; [reflexivity|]. split; [exact Hext|].
  intros input gop nw nh output. split; [reflexivity|].
  cbn [ffmpeg_command nth]. f_equal.
  apply splitext_root_app; [exact Hslash|].
  destruct Hext as [<-|[<-|[<-|[<-|[]]]]]; reflexivity.
Qed.

Lemma title_is_the_name_without_extension_witness :
  exists stem ext,
    "My.Film.mkv"%string = (stem ++ ext)%string /\
    In ext [".mp4"; ".mkv"; ".webm"; ".avi"]%string /\
    forall input gop new_width new_height output,
      nth 29 (ffmpeg_command input "My.Film.mkv" gop new_width new_height output) ""%string
      = "-metadata"%string /\
      nth 30 (ffmpeg_command input "My.Film.mkv" gop new_width new_height output) ""%string
      = ("title=" ++ (if all_dots stem then "My.Film.mkv" else stem))%string.
Proof.
  assert (H1 : is_video_file "My.Film.mkv" = true) by (vm_compute; reflexivity).
  assert (H2 : rfind "/" "My.Film.mkv" = None) by (vm_compute; reflexivity).
  exact (title_is_the_name_without_extension "My.Film.mkv" H1 H2).
Defined.

(* ================================================================= *)
(** * Errors and edge cases of the arithmetic *)

(** X13. [calculate_new_resolution] raises [ZeroDivisionError] exactly
    when the width is 0, and otherwise nothing but [OverflowError]; a
    height of 0 is no error: with a width that is not 0 the result is
    854 by 0. *)
Theorem calculate_new_resolution_errors (width height : Z) :
  (width = 0 -> calculate_new_resolution width height = raise ZeroDivisionError) /\
  (forall e, calculate_new_resolution width height = raise e ->
             (e = ZeroDivisionError /\ width = 0) \/ e = OverflowError) /\
  (width <> 0 -> height = 0 -> calculate_new_resolution width height = ok (854, 0)).
Proof.
  split; [intros ->; reflexivity|].
  split; [intros e; apply calculate_new_resolution_raises|].
  intros Hw ->. unfold calculate_new_resolution, fit_horizontal. cbv zeta.
  destruct (int_truediv_returns TARGET_HORIZONTAL_RES width) as [ratio Hdiv];
    [unfold TARGET_HORIZONTAL_RES; split; [lia|];
     apply (Z.lt_trans _ (2 ^ 10)); [reflexivity | apply Z.pow_lt_mono_r; lia]
    | exact Hw |].
  rewrite Hdiv. cbn [rbind ok].
  pose proof (finite_float_number _ (int_truediv_finite _ _ _ Hdiv)) as Hr.
  unfold Py.int_mul_float.
  change (Py.float_of_int 0) with (@inr exn Py.float (S754_zero false)). cbn [rbind ok].
  destruct ratio as [s|s| |s m ex]; try contradiction; reflexivity.
Qed.

Lemma Qtrunc_zero (q : Q) : Qtrunc q = 0 <-> (-1 < q /\ q < 1)%Q.
Proof.
  unfold Qtrunc. destruct (Qle_bool 0 q) eqn:Hs.
  - apply Qle_bool_iff in Hs. split.
    + intros H. pose proof (Qlt_floor q) as Hlt. rewrite H in Hlt.
      change (inject_Z (0 + 1)) with 1%Q in Hlt. split; lra.
    + intros [_ H]. apply Qfloor_unique; [exact Hs | exact H].
  - assert (Hneg : (q < 0)%Q).
    { apply Qnot_le_lt. intros H. apply Qle_bool_iff in H. congruence. }
    unfold Qceiling. split.
    + intros H. assert (Hf : Qfloor (- q) = 0) by lia.
      pose proof (Qlt_floor (- q)) as Hlt. rewrite Hf in Hlt.
      change (inject_Z (0 + 1)) with 1%Q in Hlt. split; lra.
    + intros [H _]. rewrite (Qfloor_unique (- q) 0); [reflexivity | | ];
        change (inject_Z 0) with 0%Q; lra.
Qed.

(** X14. The keyframe interval of a finite frame rate is 0 exactly
    when the frame rate is between -2 and 2; so it is for the frame
    rate 0 that the probe reports when the [FrameRate] field is
    absent. *)
Theorem gop_size_is_zero_below_two :
  (forall framerate,
      finite_float framerate ->
      (gop_size framerate = ok 0 <-> (- (2) < fval framerate /\ fval framerate < 2)%Q)) /\
  (forall track framerate bitrate width height,
      FrameRate track = None ->
      read_track (Probe_track track) = ok (framerate, bitrate, width, height) ->
      gop_size framerate = ok 0).
Proof.
  split.
  - intros fr Hfin. rewrite (gop_size_exact fr Hfin). split.
    + intros H. inversion H as [Hz]. apply Qtrunc_zero in Hz. split; lra.
    + intros [H1 H2]. f_equal. apply Qtrunc_zero. split; lra.
  - intros track fr br w h Hnone Hread. unfold read_track in Hread. rewrite Hnone in Hread.
    change (Py.float_of_int 0) with (@inr exn Py.float (S754_zero false)) in Hread.
    cbn [rbind] in Hread. unfold ok in *.
    destruct (let! n := match BitRate track with Some r => r | None => inr 0 end in
              Py.int_truediv n 1000); cbn [rbind] in Hread; [discriminate|].
    destruct (match Width track with Some r => r | None => inr 0 end);
      cbn [rbind] in Hread; [discriminate|].
    destruct (match Height track with Some r => r | None => inr 0 end);
      cbn [rbind] in Hread; [discriminate|].
    inversion Hread; subst. reflexivity.
Qed.

(* ================================================================= *)
(** * Where the outputs go, and what stays of them *)

Lemma events_bind {A B} (Q : event -> Prop) (m : IO A) (k : A -> IO B) fs :
  Forall Q (events (m fs)) ->
  (forall a fs', Forall Q (events (k a fs'))) ->
  Forall Q (events (bind m k fs)).
Proof.
  intros Hm Hk. unfold bind. destruct (res (m fs)) as [e|a]; cbn [events]; [exact Hm|].
  apply Forall_app. split; [exact Hm | apply Hk].
Qed.

Lemma events_for_each {A} (Q : event -> Prop) (l : list A) (body : A -> IO unit) fs :
  (forall x fs', In x l -> Forall Q (events (body x fs'))) ->
  Forall Q (events (for_each l body fs)).
Proof.
  revert fs. induction l as [|x l IH]; intros fs H; cbn [for_each]; [constructor|].
  apply events_bind; [apply H; now left|]. intros _ fs'. apply IH.
  intros y fs'' Hy. apply H. now right.
Qed.

(** The encodes of [main] write into the output folder of a title of
    the library, under the name of a video file. *)
Lemma main_encodes_into_output_folders (t : tools) (arg_plex_library_path : string)
      (fs : filesystem) :
  Forall (fun ev => forall command,
              ev = Run_ffmpeg command ->
              exists movie_folder file,
                In movie_folder (os_listdir t (os_path_expanduser t arg_plex_library_path)) /\
                is_video_file file = true /\
                command_output command =
                  os_path_join (output_directory
                                  (os_path_join (os_path_expanduser t arg_plex_library_path)
                                                movie_folder)) file)
         (events (main t arg_plex_library_path fs)).
Proof.
  unfold main. cbv zeta.
  set (path := os_path_expanduser t arg_plex_library_path).
  apply events_bind; [constructor|].
  intros [|] fs'; cbn [negb];
    [|cbn [emit events]; forall_events; intros c Hc; discriminate Hc].
  apply events_bind;
    [|intros _ fs''; cbn [emit events]; forall_events; intros c Hc; discriminate Hc].
  apply events_for_each. intros movie_folder fs'' Hin.
  apply events_bind; [constructor|].
  intros [|] fs3; cbn [negb]; [|constructor].
  apply events_bind.
  - rewrite (proj1 (proj2 (ensure_custom_versions_folder_spec _ fs3))). constructor.
  - intros _ fs4.
    destruct (process_videos_accounted t (os_path_join path movie_folder) fs4) as [_ Hall].
    eapply List.Forall_impl; [|exact Hall].
    intros ev Hacc command ->. inversion Hacc; subst.
    exists movie_folder, file. now repeat split.
Qed.

(** X17. Every file that exists after [main] and did not before lies
    in the folder [Custom Versions/1Mbps] of a title of the library,
    under the name of a video file. *)
Theorem main_writes_only_into_output_folders (t : tools) (arg_plex_library_path : string)
        (fs : filesystem) (p : string) (data : string) :
  final (main t arg_plex_library_path fs) !! p = Some (File data) ->
  fs !! p = Some (File data) \/
  exists movie_folder file,
    In movie_folder (os_listdir t (os_path_expanduser t arg_plex_library_path)) /\
    is_video_file file = true /\
    p = os_path_join (output_directory
                        (os_path_join (os_path_expanduser t arg_plex_library_path)
                                      movie_folder)) file.
Proof.
  intros Hp.
  destruct (creates_only_main t arg_plex_library_path fs p _ Hp)
    as [H|[H|(c & rc & d & Hin & Hout & _)]]; [now left | discriminate | right].
  pose proof (main_encodes_into_output_folders t arg_plex_library_path fs) as Hall.
  rewrite List.Forall_forall in Hall.
  destruct (Hall _ Hin c eq_refl) as (mf & f & Hmf & Hvid & Heq).
  exists mf, f. rewrite <- Hout. now repeat split.
Qed.

Lemma main_writes_only_into_output_folders_witness :
  example_fs !! "lib/Film/Custom Versions/1Mbps/a.mp4" = Some (File "encoded") \/
  exists movie_folder file,
    In movie_folder (os_listdir example_tools (os_path_expanduser example_tools "lib")) /\
    is_video_file file = true /\
    "lib/Film/Custom Versions/1Mbps/a.mp4"%string
    = os_path_join (output_directory
                      (os_path_join (os_path_expanduser example_tools "lib") movie_folder))
                   file.
Proof.
  apply (main_writes_only_into_output_folders example_tools "lib" example_fs).
  vm_compute. reflexivity.
Defined.

Section Persist.
Context (t : tools).

Lemma persist_pure {A} (o : outcome A) :
  (forall command, ~ In (Run_ffmpeg command) (events o)) -> outputs_persist t o.
Proof. intros H c rc d Hin. now destruct (H c). Qed.

Lemma persist_bind {A B} (m : IO A) (k : A -> IO B) fs :
  outputs_persist t (m fs) ->
  (forall a fs', outputs_persist t (k a fs') /\ fs' ⊆ final (k a fs')) ->
  outputs_persist t (bind m k fs).
Proof.
  intros Hm Hk. unfold bind. destruct (res (m fs)) as [e|a]; [exact Hm|].
  destruct (Hk a (final (m fs))) as [Hp Hs].
  intros c rc d Hin Hff. cbn [final events] in *.
  apply in_app_or in Hin. destruct Hin as [Hin|Hin].
  - eapply lookup_weaken; [exact (Hm c rc d Hin Hff) | exact Hs].
  - exact (Hp c rc d Hin Hff).
Qed.

Lemma persist_for_each {A} (l : list A) (body : A -> IO unit) fs :
  (forall x fs', outputs_persist t (body x fs') /\ fs' ⊆ final (body x fs')) ->
  outputs_persist t (for_each l body fs).
Proof.
  intros H. revert fs. induction l as [|x l IH]; intros fs; cbn [for_each].
  - apply persist_pure. intros c [].
  - apply persist_bind; [apply H|]. intros _ fs'. split; [apply IH|].
    apply keeps_for_each. intros y fs''. apply H.
Qed.

Lemma persist_process_file cvp root file fs :
  outputs_persist t (process_file t cvp root file fs).
Proof.
  rewrite process_file_unfold. cbv zeta.
  destruct (is_video_file file); [|apply persist_pure; intros c []].
  destruct (fs !! os_path_join cvp file); [apply persist_pure; intros c []|].
  destruct (read_track _) as [e|[[[fr br] w] h]].
  { apply persist_pure. intros c [H|[H|[H|[]]]]; discriminate. }
  destruct (Py.float_lt_int br VIDEO_BITRATE).
  { apply persist_pure. intros c [H|[H|[]]]; discriminate. }
  destruct (gop_size fr) as [e|gop].
  { apply persist_pure. intros c [H|[]]; discriminate. }
  destruct (calculate_new_resolution w h) as [e|[nw nh]].
  { apply persist_pure. intros c [H|[]]; discriminate. }
  set (command := ffmpeg_command _ _ _ _ _ _).
  destruct (ffmpeg t command) as [e|rc written] eqn:Hff;
    intros c rc' d Hin Hc; cbn [final events] in *;
    destruct Hin as [Hin|[Hin|[]]]; try discriminate; inversion Hin; subst c;
    rewrite Hff in Hc; inversion Hc; subst.
  change (command_output command) with (os_path_join cvp file).
  apply lookup_insert_eq.
Qed.

Lemma persist_process_videos mfp fs :
  outputs_persist t (process_videos t mfp fs).
Proof.
  unfold process_videos. apply persist_bind.
  - apply persist_pure. intros c.
    rewrite (proj1 (proj2 (ensure_exists_spec _ fs))). intros [].
  - intros _ fs'. split; [|apply keeps_for_each; intros x fs''; apply keeps_process_directory].
    apply persist_for_each. intros [[root dirs] files] fs''.
    split; [|apply (keeps_process_directory t _ (root, dirs, files))].
    unfold process_directory. destruct (str_in _ root); [apply persist_pure; intros c []|].
    apply persist_for_each. intros file fs3.
    split; [apply persist_process_file | apply keeps_process_file].
Qed.
End Persist.

(** X18. What an [ffmpeg] run wrote stays, also when it failed or the
    run aborts later; and a later run, whatever its tools, does not
    encode to that output again: a source whose failed encode left a
    partial output is not retried. *)
Theorem written_output_blocks_later_encodes (t : tools) (movie_folder_path : string)
        (fs : filesystem) (command : list string) (returncode : Z) (data : string) :
  In (Run_ffmpeg command) (events (process_videos t movie_folder_path fs)) ->
  ffmpeg t command = Ffmpeg_exit returncode (Some data) ->
  final (process_videos t movie_folder_path fs) !! command_output command = Some (File data) /\
  forall t' fs' command',
    final (process_videos t movie_folder_path fs) ⊆ fs' ->
    In (Run_ffmpeg command') (events (process_videos t' movie_folder_path fs')) ->
    command_output command' <> command_output command.
Proof.
  intros Hin Hff.
  pose proof (persist_process_videos t movie_folder_path fs command returncode data Hin Hff)
    as Hthere.
  split; [exact Hthere|].
  intros t' fs' command' Hsub Hin' Heq.
  destruct (encode_has_reason t' movie_folder_path fs' command' Hin')
    as (r & f & fr & br & w & h & gop & nw & nh & -> & _ & _ & Hnone & _).
  rewrite command_output_ffmpeg_command in Heq. rewrite Heq in Hnone.
  rewrite (lookup_weaken _ _ _ _ Hthere Hsub) in Hnone. discriminate.
Qed.

Lemma written_output_blocks_later_encodes_witness :
  let command := ffmpeg_command "lib/Film/a.mp4" "a.mp4" 11 854 480
                                "lib/Film/Custom Versions/1Mbps/a.mp4" in
  final (process_videos partial_tools "lib/Film" example_fs) !! command_output command
  = Some (File "part") /\
  forall t' fs' command',
    final (process_videos partial_tools "lib/Film" example_fs) ⊆ fs' ->
    In (Run_ffmpeg command') (events (process_videos t' "lib/Film" fs')) ->
    command_output command' <> command_output command.
Proof.
  cbv zeta.
  apply (written_output_blocks_later_encodes partial_tools "lib/Film" example_fs _ 1).
  - vm_compute. right. left. reflexivity.
  - reflexivity.
Defined.

(** X19. A title without video files: when no file name of the walk
    is accepted by [is_video_file], [process_videos] probes and encodes
    nothing, but the output folder exists afterwards; what it has added
    are directories. *)
Theorem title_without_videos (t : tools) (movie_folder_path : string) (fs : filesystem) :
  (forall root dirs files file,
      In (root, dirs, files) (os_walk t movie_folder_path) -> In file files ->
      is_video_file file = false) ->
  let o := process_videos t movie_folder_path fs in
  res o = ok tt /\ events o = [] /\
  is_Some (final o !! output_directory movie_folder_path) /\
  forall p n, final o !! p = Some n -> fs !! p = Some n \/ n = Directory.
Proof.
  intros Hnone. cbv zeta. unfold process_videos. fold (output_directory movie_folder_path).
  set (cvp := output_directory movie_folder_path).
  destruct (ensure_exists_spec cvp fs) as (Hr0 & He0 & _ & Hp0 & _ & Hn0).
  cbv zeta in Hr0, He0, Hp0, Hn0.
  set (m0 := let* present := os_path_exists cvp in
             if negb present then os_makedirs cvp else ret tt) in *.
  change ((m0 ;; ?k) fs) with (bind m0 (fun _ => k) fs).
  unfold bind. rewrite Hr0. cbv beta iota delta [ok]. cbn [res final events].
  rewrite He0. rewrite for_each_does_nothing; [now repeat split|].
  intros [[root dirs] files] Hentry. unfold process_directory.
  destruct (str_in _ root); [reflexivity|].
  apply for_each_does_nothing. intros file Hfile.
  rewrite process_file_unfold. cbv zeta.
  now rewrite (Hnone _ _ _ _ Hentry Hfile).
Qed.

Lemma title_without_videos_witness :
  let t := {| mediainfo := example_mediainfo;
              ffmpeg := fun _ => Ffmpeg_exit 0 (Some "encoded"%string);
              os_walk := fun top => [(top, [], ["notes.txt"; "cover.jpg"]%string)];
              os_listdir := fun _ => [];
              os_path_expanduser := fun p => p |} in
  let o := process_videos t "lib/Film" example_fs in
  res o = ok tt /\ events o = [] /\
  is_Some (final o !! output_directory "lib/Film") /\
  forall p n, final o !! p = Some n -> example_fs !! p = Some n \/ n = Directory.
Proof.
  cbv zeta. apply title_without_videos.
  intros root dirs files file [H|[]] Hfile. inversion H; subst.
  destruct Hfile as [<-|[<-|[]]]; reflexivity.
Defined.

(* ================================================================= *)
(** * How far rounding can fall below the exact value *)

Lemma bpow_lt (a b : Z) : (a < b)%Z -> (bpow a < bpow b)%Q.
Proof.
  intros H. eapply Qlt_le_trans; [|apply (bpow_le (a + 1) b); lia].
  rewrite bpow_add. change (bpow 1) with 2%Q. pose proof (bpow_pos a). lra.
Qed.

Lemma bpow_le_inv (a b : Z) : (bpow a <= bpow b)%Q -> (a <= b)%Z.
Proof.
  intros H. destruct (Z_le_gt_dec a b) as [|Hgt]; [assumption|exfalso].
  pose proof (bpow_lt b a ltac:(lia)). lra.
Qed.

Lemma F2Q_pow2 (k e : Z) : (0 <= k)%Z -> (F2Q (2 ^ k) e == bpow (k + e))%Q.
Proof.
  intros Hk. unfold F2Q. rewrite <- bpow_inject by exact Hk. now rewrite bpow_add.
Qed.

Lemma F2Q_succ_le_bpow (mx ex : Z) :
  (0 <= mx)%Z -> (F2Q (mx + 1) ex <= bpow (Zdigits2 mx + ex))%Q.
Proof.
  intros H.
  assert (Hle : (mx + 1 <= 2 ^ Zdigits2 mx)%Z).
  { destruct (Z.eq_dec mx 0) as [->|Hnz]; [cbn; lia|].
    pose proof (Zdigits2_bounds mx ltac:(lia)). lia. }
  eapply Qle_trans; [apply (F2Q_le _ (2 ^ Zdigits2 mx)); exact Hle|].
  rewrite F2Q_pow2 by apply Zdigits2_nonneg. apply Qle_refl.
Qed.

Lemma F2Q_sub (a b e : Z) : (F2Q (a - b) e == F2Q a e - F2Q b e)%Q.
Proof.
  unfold F2Q. unfold Z.sub. rewrite inject_Z_plus, inject_Z_opp. ring.
Qed.

(** In the normal range, the rounded value is at most one part in
    [2^52] below the value [(mx + 1) * 2^ex], which bounds from above
    whatever [mx * 2^ex] and the position stand for. *)
Lemma binary_round_aux_lower (s : bool) (mx ex : Z) (lx : location) :
  0 <= mx -> ex <= fexp64 (Zdigits2 mx + ex) ->
  (bpow (-1021) <= F2Q (mx + 1) ex)%Q ->
  match binary_round_aux Py.prec Py.emax s mx ex lx with
  | S754_finite _ m e => (F2Q (mx + 1) ex * (1 - bpow (-52)) <= F2Q (Zpos m) e)%Q
  | S754_infinity _ => True
  | _ => False
  end.
Proof.
  intros Hmx Hal Hbig.
  set (d := Zdigits2 mx) in *.
  assert (Hrange : -1021 <= d + ex).
  { apply bpow_le_inv. eapply Qle_trans; [exact Hbig|]. now apply F2Q_succ_le_bpow. }
  rewrite fexp64_eq in Hal.
  assert (Hd : 53 <= d) by lia.
  assert (Hpos : 0 < mx).
  { destruct (Z.eq_dec mx 0) as [Hz|]; [|lia]. unfold d in Hd. rewrite Hz in Hd.
    cbn [Zdigits2] in Hd. lia. }
  destruct (Zdigits2_bounds mx Hpos) as [Hlo Hhi]. fold d in Hlo, Hhi.
  destruct (binary_round_aux_anatomy s mx ex lx Hmx) as (m2 & Hb & _ & Heq).
  cbv zeta in Heq. rewrite Heq. clear Heq. fold d in Hb |- *.
  rewrite (fexp64_eq (d + ex)) in *.
  replace (Z.max 0 (Z.max (d + ex - 53) (-1074) - ex)) with (d - 53) in * by lia.
  set (n := d - 53) in *. set (m1 := mx / 2 ^ n) in *. set (e1 := ex + n) in *.
  assert (Hn : 0 <= n) by (unfold n; lia).
  pose proof (Z.pow_pos_nonneg 2 n ltac:(lia) Hn) as Hpn.
  assert (H52 : 2 ^ 52 <= m1).
  { apply div_pow2_lower; [lia | lia |]. replace (52 + n) with (d - 1) by (unfold n; lia).
    exact Hlo. }
  assert (H53 : m1 < 2 ^ 53).
  { apply div_pow2_upper; [lia | lia |]. replace (53 + n) with d by (unfold n; lia).
    exact Hhi. }
  (* truncation loses less than one unit of the last place *)
  assert (Htrunc : (F2Q (mx + 1) ex - bpow e1 <= F2Q m1 e1)%Q).
  { assert (Hz : mx + 1 - 2 ^ n <= m1 * 2 ^ n).
    { unfold m1. pose proof (Z.div_mod mx (2 ^ n) ltac:(lia)).
      pose proof (Z.mod_pos_bound mx (2 ^ n) ltac:(lia)). lia. }
    apply (F2Q_le _ _ ex) in Hz. rewrite F2Q_sub, F2Q_pow2, F2Q_shift in Hz by lia.
    replace (n + ex) with e1 in Hz by (unfold e1; lia). exact Hz. }
  (* one unit of the last place is one part in 2^52 *)
  assert (Hulp : (bpow e1 <= F2Q (mx + 1) ex * bpow (-52))%Q).
  { assert (Hz : 2 ^ (d - 1) <= mx + 1) by lia.
    apply (F2Q_le _ _ ex) in Hz. rewrite F2Q_pow2 in Hz by lia.
    assert (E : (bpow e1 == bpow (d - 1 + ex) * bpow (-52))%Q).
    { rewrite <- bpow_add. replace (d - 1 + ex + -52) with e1 by (unfold e1, n; lia).
      reflexivity. }
    rewrite E. apply Qmult_le_compat_r; [exact Hz|]. apply Qlt_le_weak, bpow_pos. }
  assert (Hgoal : forall v : Q, (F2Q m1 e1 <= v)%Q ->
                                (F2Q (mx + 1) ex * (1 - bpow (-52)) <= v)%Q).
  { intros v Hv. set (X := F2Q (mx + 1) ex) in *. set (U := bpow (-52)) in *.
    set (T := F2Q m1 e1) in *. set (B := bpow e1) in *. clearbody X U T B.
    assert (X * (1 - U) == X - X * U)%Q by ring. lra. }
  assert (He1 : -1074 <= e1) by (unfold e1, n; lia).
  destruct (Z_lt_le_dec m2 (2 ^ 53)) as [Hsmall|Hcarry].
  - assert (Hd2 : Zdigits2 m2 = 53) by (apply Zdigits2_unique; lia).
    rewrite Hd2, fexp64_eq.
    replace (Z.max 0 (Z.max (53 + e1 - 53) (-1074) - e1)) with 0 by lia.
    rewrite Z.pow_0_r, Z.div_1_r, Z.add_0_r.
    destruct m2 as [|p2|p2]; try lia.
    destruct (e1 <=? Py.emax - Py.prec); [|exact I].
    apply Hgoal. apply F2Q_le. lia.
  - assert (Hm2 : m2 = 2 ^ 53) by lia.
    assert (Hd2 : Zdigits2 m2 = 54) by (rewrite Hm2; apply Zdigits2_unique; lia).
    rewrite Hd2, fexp64_eq.
    replace (Z.max 0 (Z.max (54 + e1 - 53) (-1074) - e1)) with 1 by lia.
    rewrite Hm2. change (2 ^ 53 / 2 ^ 1) with (Zpos 4503599627370496).
    cbv iota beta.
    destruct (e1 + 1 <=? Py.emax - Py.prec); [|exact I].
    apply Hgoal. change (Zpos 4503599627370496) with (2 ^ 52).
    rewrite <- (F2Q_shift (2 ^ 52) e1 1) by lia.
    apply F2Q_le. change (2 ^ 52 * 2 ^ 1) with (2 ^ 53). lia.
Qed.

(** The quotient and exponent that the division of two ints gives to
    the rounding, with the exact quotient bounded on both sides. *)
Lemma SFdiv_core_binary_int_bounds (m1 m2 : positive) :
  let '(q, e', _) := SFdiv_core_binary Py.prec Py.emax (Zpos m1) 0 (Zpos m2) 0 in
  (inject_Z (Zpos m1) < F2Q (q + 1) e' * inject_Z (Zpos m2))%Q.
Proof.
  unfold SFdiv_core_binary.
  set (d1 := Zdigits2 (Zpos m1)). set (d2 := Zdigits2 (Zpos m2)).
  rewrite !Z.add_0_r, !Z.sub_0_r, Z.sub_0_l.
  set (e' := Z.min (fexp64 (d1 - d2)) 0).
  assert (He' : e' <= 0) by (unfold e'; lia).
  set (m' := match - e' with Z0 => Zpos m1 | Zpos _ => Z.shiftl (Zpos m1) (- e') | Zneg _ => 0 end).
  assert (Hm' : m' = Zpos m1 * 2 ^ (- e')).
  { unfold m'. remember (- e') as k eqn:Hk. destruct k as [|k|k]; try lia.
    apply Z.shiftl_mul_pow2. lia. }
  clearbody m'.
  pose proof (Z_div_mod m' (Zpos m2) ltac:(lia)) as Hdm.
  destruct (Z.div_eucl m' (Zpos m2)) as [q r]. destruct Hdm as [Hdm Hr].
  assert (Hlt : Zpos m1 * 2 ^ (- e') < (q + 1) * Zpos m2) by lia.
  rewrite Zlt_Qlt, !inject_Z_mult in Hlt.
  rewrite <- (bpow_inject (- e')) in Hlt by lia.
  assert (Hone : (bpow (- e') * bpow e' == 1)%Q).
  { rewrite <- bpow_add. replace (- e' + e') with 0 by lia. reflexivity. }
  unfold F2Q. pose proof (bpow_pos e') as Hb.
  set (Q1 := inject_Z (Zpos m1)) in *. set (Q2 := inject_Z (Zpos m2)) in *.
  set (Qq := inject_Z (q + 1)) in *. clearbody Q1 Q2 Qq.
  assert (Hmul : (Q1 * bpow (- e') * bpow e' < Qq * Q2 * bpow e')%Q).
  { apply Qmult_lt_compat_r; [exact Hb | exact Hlt]. }
  assert (E : (Q1 * bpow (- e') * bpow e' == Q1)%Q).
  { rewrite <- Qmult_assoc, Hone. ring. }
  rewrite E in Hmul. lra.
Qed.

Lemma int_truediv_lower (a b : Z) (f : Py.float) :
  0 < a -> 0 < b ->
  (bpow (-1021) * inject_Z b <= inject_Z a)%Q ->
  Py.int_truediv a b = ok f ->
  (inject_Z a * (1 - bpow (-52)) <= fval f * inject_Z b)%Q.
Proof.
  intros Ha Hb Hrange H. unfold Py.int_truediv in H.
  destruct (Z.eqb_spec b 0) as [|_]; [lia|].
  destruct a as [|pa|pa]; try lia. destruct b as [|pb|pb]; try lia.
  cbn [Py.raw_of_int SFdiv xorb] in H.
  pose proof (SFdiv_core_binary_int pa pb) as Hc.
  pose proof (SFdiv_core_binary_int_bounds pa pb) as Hup.
  destruct (SFdiv_core_binary Py.prec Py.emax (Zpos pa) 0 (Zpos pb) 0) as [[q e'] l].
  destruct Hc as (Hq & Hfe & _).
  assert (Hqb : (0 < inject_Z (Zpos pb))%Q)
    by (change 0%Q with (inject_Z 0); rewrite <- Zlt_Qlt; lia).
  assert (Hqa : (0 < inject_Z (Zpos pa))%Q)
    by (change 0%Q with (inject_Z 0); rewrite <- Zlt_Qlt; lia).
  pose proof (bpow_pos (-52)) as Hu0.
  assert (Hu1 : (bpow (-52) <= 1 # 2)%Q).
  { eapply Qle_trans; [apply (bpow_le (-52) (-1)); lia|]. apply Qle_lteq; right; reflexivity. }
  assert (Hbig : (bpow (-1021) <= F2Q (q + 1) e')%Q).
  { apply Qnot_lt_le. intros Hlt.
    assert (F2Q (q + 1) e' * inject_Z (Zpos pb) <= bpow (-1021) * inject_Z (Zpos pb))%Q
      by (apply Qmult_le_compat_r; lra).
    lra. }
  pose proof (binary_round_aux_lower false q e' l Hq Hfe Hbig) as Hlow.
  pose proof (binary_round_aux_sign false q e' l Hq) as Hsg.
  destruct (binary_round_aux Py.prec Py.emax false q e' l) as [sz|sz| |sz m e];
    try contradiction; try discriminate.
  inversion H; subst f sz. cbn [fval].
  set (A := inject_Z (Zpos pa)) in *. set (B := inject_Z (Zpos pb)) in *.
  set (X := F2Q (q + 1) e') in *. set (R := F2Q (Zpos m) e) in *. set (U := bpow (-52)) in *.
  assert (HRB : (X * (1 - U) * B <= R * B)%Q) by (apply Qmult_le_compat_r; lra).
  assert (HAX : (A * (1 - U) <= X * B * (1 - U))%Q) by (apply Qmult_le_compat_r; lra).
  assert (E : (X * (1 - U) * B == X * B * (1 - U))%Q) by ring.
  lra.
Qed.

Lemma float_of_int_lower (w : Z) (f : Py.float) :
  0 < w -> Py.float_of_int w = ok f ->
  (inject_Z w * (1 - bpow (-52)) <= fval f)%Q.
Proof.
  intros Hw H. unfold Py.float_of_int in H.
  destruct w as [|p|p]; try lia. cbn [binary_normalize] in H.
  unfold binary_round in H.
  pose proof (shl_align_value p 0 (fexp64 (Zpos (digits2_pos p) + 0))) as Hv.
  pose proof (shl_align_aligned p 0) as Hal.
  destruct (shl_align p 0 (fexp64 (Zpos (digits2_pos p) + 0))) as [mz ez].
  cbn [fst snd] in Hv, Hal.
  assert (Hval : (F2Q (Zpos mz) ez == inject_Z (Zpos p))%Q).
  { rewrite Hv. unfold F2Q. change (bpow 0) with 1%Q. ring. }
  assert (Hone : (1 <= inject_Z (Zpos p))%Q)
    by (change 1%Q with (inject_Z 1); rewrite <- Zle_Qle; lia).
  assert (Hsucc : (F2Q (Zpos mz) ez <= F2Q (Zpos mz + 1) ez)%Q) by (apply F2Q_le; lia).
  assert (Hbig : (bpow (-1021) <= F2Q (Zpos mz + 1) ez)%Q).
  { assert (bpow (-1021) <= bpow 0)%Q by (apply bpow_le; lia).
    change (bpow 0) with 1%Q in *. lra. }
  pose proof (binary_round_aux_lower false (Zpos mz) ez loc_Exact
                (Pos2Z.is_nonneg mz) Hal Hbig) as Hlow.
  pose proof (binary_round_aux_sign false (Zpos mz) ez loc_Exact (Pos2Z.is_nonneg mz)) as Hsg.
  destruct (binary_round_aux Py.prec Py.emax false (Zpos mz) ez loc_Exact) as [sz|sz| |sz m e];
    try contradiction; try discriminate.
  inversion H; subst f sz. cbn [fval].
  pose proof (bpow_pos (-52)) as Hu0.
  assert (Hu1 : (bpow (-52) <= 1 # 2)%Q).
  { eapply Qle_trans; [apply (bpow_le (-52) (-1)); lia|]. apply Qle_lteq; right; reflexivity. }
  set (W := inject_Z (Zpos p)) in *. set (X := F2Q (Zpos mz + 1) ez) in *.
  set (X0 := F2Q (Zpos mz) ez) in *. set (R := F2Q (Zpos m) e) in *. set (U := bpow (-52)) in *.
  clearbody W X X0 R U.
  assert (W * (1 - U) <= X * (1 - U))%Q by (apply Qmult_le_compat_r; lra).
  lra.
Qed.

Lemma float_mul_lower (x y : Py.float) :
  nonneg_float x -> nonneg_float y ->
  (bpow (-1021) <= fval x * fval y)%Q ->
  match Py.float_mul x y with
  | S754_infinity _ => True
  | f => (fval x * fval y * (1 - bpow (-52)) <= fval f)%Q
  end.
Proof.
  intros Hx Hy Hbig.
  pose proof (bpow_pos (-1021)) as Hp.
  destruct x as [[|]|[|]| |[|] mx ex]; cbn [nonneg_float] in Hx; try contradiction;
  destruct y as [[|]|[|]| |[|] my ey]; cbn [nonneg_float] in Hy; try contradiction;
  cbn [fval] in Hbig; try (exfalso; lra).
  cbn [Py.float_mul SFmul xorb fval].
  assert (Hval : (F2Q (Zpos (mx * my)) (ex + ey) == F2Q (Zpos mx) ex * F2Q (Zpos my) ey)%Q).
  { rewrite Pos2Z.inj_mul. apply F2Q_mul. }
  assert (Hsucc : (F2Q (Zpos (mx * my)) (ex + ey) <= F2Q (Zpos (mx * my) + 1) (ex + ey))%Q)
    by (apply F2Q_le; lia).
  assert (Hbig' : (bpow (-1021) <= F2Q (Zpos (mx * my) + 1) (ex + ey))%Q) by lra.
  pose proof (binary_round_aux_lower false (Zpos (mx * my)) (ex + ey) loc_Exact
                (Pos2Z.is_nonneg _) (mul_aligned mx ex my ey Hx Hy) Hbig') as Hlow.
  pose proof (binary_round_aux_sign false (Zpos (mx * my)) (ex + ey) loc_Exact
                (Pos2Z.is_nonneg _)) as Hsg.
  destruct (binary_round_aux Py.prec Py.emax false (Zpos (mx * my)) (ex + ey) loc_Exact)
    as [sz|sz| |sz m e]; try contradiction; [exact I|].
  subst sz. cbn [fval].
  pose proof (bpow_pos (-52)) as Hu0.
  assert (Hu1 : (bpow (-52) <= 1 # 2)%Q).
  { eapply Qle_trans; [apply (bpow_le (-52) (-1)); lia|]. apply Qle_lteq; right; reflexivity. }
  set (P := (F2Q (Zpos mx) ex * F2Q (Zpos my) ey)%Q) in *.
  set (X := F2Q (Zpos (mx * my) + 1) (ex + ey)) in *.
  set (X0 := F2Q (Zpos (mx * my)) (ex + ey)) in *.
  set (R := F2Q (Zpos m) e) in *. set (U := bpow (-52)) in *.
  clearbody P X X0 R U.
  assert (P * (1 - U) <= X * (1 - U))%Q by (apply Qmult_le_compat_r; lra).
  lra.
Qed.

(** [int(y * (c / x))] is the exact quotient [c * y / x] rounded down,
    or one less when the quotient is an integer: for ints of at most
    32 bits the three roundings cannot do more. *)
Lemma scaled_within_one (c x y z : Z) :
  0 < c < 2 ^ 10 -> 0 < x < 2 ^ 32 -> 0 < y < 2 ^ 32 ->
  (let! ratio := Py.int_truediv c x in
   let! scaled := Py.int_mul_float y ratio in
   Py.int_of_float scaled) = ok z ->
  c * y - x <= z * x <= c * y.
Proof.
  intros [Hc Hcb] [Hx Hxb] [Hy Hyb] H.
  destruct (Py.int_truediv c x) as [?|ratio] eqn:Hdiv; [discriminate|].
  cbn [rbind] in H. unfold Py.int_mul_float in H.
  destruct (Py.float_of_int y) as [?|yf] eqn:Hyf; [discriminate|].
  cbn [rbind ok] in H.
  (* the constants *)
  assert (Hu0 : (0 < bpow (-52))%Q) by apply bpow_pos.
  assert (Hu : (bpow (-52) <= 1 # 4096)%Q).
  { eapply Qle_trans; [apply (bpow_le (-52) (-12)); lia|]. apply Qle_lteq; right; reflexivity. }
  assert (Ht1 : (bpow (-1022) <= 1 # 68719476736)%Q).
  { eapply Qle_trans; [apply (bpow_le (-1022) (-36)); lia|]. apply Qle_lteq; right; reflexivity. }
  assert (Ht2 : (bpow (-1021) <= 1 # 68719476736)%Q).
  { eapply Qle_trans; [apply (bpow_le (-1021) (-36)); lia|]. apply Qle_lteq; right; reflexivity. }
  assert (Hqx : (1 <= inject_Z x)%Q) by (change 1%Q with (inject_Z 1); rewrite <- Zle_Qle; lia).
  assert (Hqy : (1 <= inject_Z y)%Q) by (change 1%Q with (inject_Z 1); rewrite <- Zle_Qle; lia).
  assert (Hqc : (1 <= inject_Z c)%Q) by (change 1%Q with (inject_Z 1); rewrite <- Zle_Qle; lia).
  assert (Hqxb : (inject_Z x <= 4294967296)%Q).
  { change 4294967296%Q with (inject_Z (2 ^ 32)). rewrite <- Zle_Qle. lia. }
  assert (Hprod : (inject_Z c * inject_Z y <= 4398046511104)%Q).
  { rewrite <- inject_Z_mult. change 4398046511104%Q with (inject_Z (2 ^ 42)).
    rewrite <- Zle_Qle. change (2 ^ 42) with (2 ^ 10 * 2 ^ 32). nia. }
  (* the three roundings, from above and from below *)
  destruct (int_truediv_pos c x ratio Hc Hx Hdiv) as [Hnr Hr].
  assert (Hrl : (inject_Z c * (1 - bpow (-52)) <= fval ratio * inject_Z x)%Q).
  { apply int_truediv_lower; [exact Hc | exact Hx | | exact Hdiv].
    pose proof (bpow_pos (-1021)).
    assert (bpow (-1021) * inject_Z x <= (1 # 68719476736) * inject_Z x)%Q
      by (apply Qmult_le_compat_r; lra).
    lra. }
  destruct (float_of_int_pos y yf Hy Hyf) as [Hny Hyb'].
  pose proof (float_of_int_lower y yf Hy Hyf) as Hyl.
  pose proof (float_mul_nonneg yf ratio Hny Hnr) as Hmul.
  destruct (nonneg_float_range _ Hnr) as [Hr0 _].
  destruct (nonneg_float_range _ Hny) as [Hy0 _].
  set (U := bpow (-52)) in *. set (A := fval ratio) in *. set (Y := fval yf) in *.
  set (qx := inject_Z x) in *. set (qy := inject_Z y) in *. set (qc := inject_Z c) in *.
  (* the ratio and the product are far above the subnormal range *)
  assert (HAx : (1 # 2 <= A * qx)%Q).
  { assert (qc * (1 # 2) <= qc * (1 - U))%Q
      by (rewrite !(Qmult_comm qc); apply Qmult_le_compat_r; lra).
    lra. }
  assert (HA : (1 # 8589934592 <= A)%Q).
  { assert (A * qx <= A * 4294967296)%Q
      by (rewrite !(Qmult_comm A); apply Qmult_le_compat_r; lra).
    lra. }
  assert (HY : (1 # 2 <= Y)%Q).
  { assert (qy * (1 # 2) <= qy * (1 - U))%Q
      by (rewrite !(Qmult_comm qy); apply Qmult_le_compat_r; lra).
    lra. }
  assert (HYA : (1 # 17179869184 <= Y * A)%Q).
  { assert ((1 # 2) * A <= Y * A)%Q by (apply Qmult_le_compat_r; lra). lra. }
  assert (Hr' : (A * qx <= qc * (1 + U))%Q).
  { destruct Hr as [Hr|Hr]; [exact Hr|]. exfalso. fold A in Hr. lra. }
  pose proof (float_mul_lower yf ratio Hny Hnr ltac:(fold Y A; lra)) as Hml.
  fold Y A in Hml. change (bpow (-52)) with U in Hml.
  set (s := Py.float_mul yf ratio) in *.
  assert (Hs : nonneg_float s /\ (fval s <= Y * A * (1 + U))%Q /\
               (Y * A * (1 - U) <= fval s)%Q).
  { destruct s as [ | | | ]; try discriminate H.
    - destruct Hmul as [Hn _]. split; [exact Hn|]. cbn [fval] in *. exfalso.
      assert (Y * A * (1 # 2) <= Y * A * (1 - U))%Q
        by (rewrite !(Qmult_comm (Y * A)); apply Qmult_le_compat_r; lra).
      lra.
    - destruct Hmul as [Hn Hup]. split; [exact Hn|]. split; [|exact Hml].
      destruct Hup as [Hup|Hup]; [exact Hup|]. exfalso.
      assert (Y * A * (1 # 2) <= Y * A * (1 - U))%Q
        by (rewrite !(Qmult_comm (Y * A)); apply Qmult_le_compat_r; lra).
      lra. }
  clear Hmul Hml. destruct Hs as (Hns & Hsu & Hsl). clearbody s.
  destruct (int_of_float_nonneg s Hns) as (z' & Hz' & Hz0 & Hzl & Hzu).
  rewrite Hz' in H. inversion H; subst z'. clear H Hz'.
  set (S := fval s) in *. set (qz := inject_Z z) in *. set (P := (qc * qy)%Q) in *.
  assert (Hqz : (0 <= qz)%Q) by (unfold qz; change 0%Q with (inject_Z 0); rewrite <- Zle_Qle; lia).
  assert (HUP : (U * P <= 1 # 1024)%Q).
  { assert (U * P <= U * 4398046511104)%Q
      by (rewrite !(Qmult_comm U); apply Qmult_le_compat_r; lra).
    assert (U * 4398046511104 == bpow (-10))%Q.
    { unfold U. change 4398046511104%Q with (bpow 42). now rewrite <- bpow_add. }
    assert (bpow (-10) == 1 # 1024)%Q by reflexivity. lra. }
  assert (HUP0 : (0 <= U * P)%Q) by (apply Qmult_le_0_compat; unfold P; nra).
  enough (Hq : (P - 1 < (qz + 1) * qx)%Q /\ (qz * qx < P + 1)%Q).
  { destruct Hq as [Hlo Hhi]. split.
    - assert (H12 : (inject_Z (c * y - 1) < inject_Z ((z + 1) * x))%Q).
      { unfold Z.sub. rewrite !inject_Z_plus, !inject_Z_mult, inject_Z_opp, !inject_Z_plus.
        change (inject_Z 1) with 1%Q. exact Hlo. }
      rewrite <- Zlt_Qlt in H12. lia.
    - assert (H12 : (inject_Z (z * x) < inject_Z (c * y + 1))%Q).
      { rewrite !inject_Z_plus, !inject_Z_mult. change (inject_Z 1) with 1%Q. exact Hhi. }
      rewrite <- Zlt_Qlt in H12. lia. }
  clearbody U A Y qx qy qc S qz.
  split.
  - (* from below *)
    assert (H1 : (qy * (1 - U) * A <= Y * A)%Q) by (apply Qmult_le_compat_r; lra).
    assert (H2 : (qy * (1 - U) * A * (1 - U) <= S)%Q).
    { eapply Qle_trans; [|exact Hsl]. apply Qmult_le_compat_r; lra. }
    assert (H3 : (qy * (1 - U) * A * (1 - U) * qx <= S * qx)%Q)
      by (apply Qmult_le_compat_r; lra).
    assert (H4 : (qy * (1 - U) * A * (1 - U) * qx == qy * ((1 - U) * (1 - U)) * (A * qx))%Q) by ring.
    assert (H5 : (qy * ((1 - U) * (1 - U)) * (qc * (1 - U)) <= qy * ((1 - U) * (1 - U)) * (A * qx))%Q).
    { rewrite !(Qmult_comm (qy * ((1 - U) * (1 - U)))).
      apply Qmult_le_compat_r; [exact Hrl|].
      apply Qmult_le_0_compat; [lra|]. apply Qmult_le_0_compat; lra. }
    assert (H6 : (1 - 3 * U <= (1 - U) * (1 - U) * (1 - U))%Q) by nra.
    assert (H7 : (P * (1 - 3 * U) <= P * ((1 - U) * (1 - U) * (1 - U)))%Q).
    { rewrite !(Qmult_comm P). apply Qmult_le_compat_r; [exact H6|]. unfold P. nra. }
    assert (H8 : (P * ((1 - U) * (1 - U) * (1 - U))
                  == qy * ((1 - U) * (1 - U)) * (qc * (1 - U)))%Q) by (unfold P; ring).
    assert (H9 : (P * (1 - 3 * U) == P - 3 * (U * P))%Q) by ring.
    assert (H10 : (S * qx < (qz + 1) * qx)%Q) by (apply Qmult_lt_compat_r; lra).
    lra.
  - (* from above *)
    assert (H1 : (Y * A <= qy * (1 + U) * A)%Q) by (apply Qmult_le_compat_r; lra).
    assert (H2 : (S <= qy * (1 + U) * A * (1 + U))%Q).
    { eapply Qle_trans; [exact Hsu|]. apply Qmult_le_compat_r; lra. }
    assert (H3 : (qz * qx <= qy * (1 + U) * A * (1 + U) * qx)%Q)
      by (apply Qmult_le_compat_r; lra).
    assert (H4 : (qy * (1 + U) * A * (1 + U) * qx == qy * ((1 + U) * (1 + U)) * (A * qx))%Q) by ring.
    assert (H5 : (qy * ((1 + U) * (1 + U)) * (A * qx) <= qy * ((1 + U) * (1 + U)) * (qc * (1 + U)))%Q).
    { rewrite !(Qmult_comm (qy * ((1 + U) * (1 + U)))).
      apply Qmult_le_compat_r; [exact Hr'|].
      apply Qmult_le_0_compat; [lra|]. apply Qmult_le_0_compat; lra. }
    assert (H6 : ((1 + U) * (1 + U) * (1 + U) <= 1 + 4 * U)%Q) by nra.
    assert (H7 : (P * ((1 + U) * (1 + U) * (1 + U)) <= P * (1 + 4 * U))%Q).
    { rewrite !(Qmult_comm P). apply Qmult_le_compat_r; [exact H6|]. unfold P. nra. }
    assert (H8 : (P * ((1 + U) * (1 + U) * (1 + U))
                  == qy * ((1 + U) * (1 + U)) * (qc * (1 + U)))%Q) by (unfold P; ring).
    assert (H9 : (P * (1 + 4 * U) == P + 4 * (U * P))%Q) by ring.
    lra.
Qed.

Lemma fit_horizontal_within_one (w h z : Z) :
  0 < w < 2 ^ 32 -> 0 < h < 2 ^ 32 -> fit_horizontal w h = ok z ->
  854 * h - w <= z * w <= 854 * h.
Proof.
  intros Hw Hh H. apply (scaled_within_one 854 w h z); try assumption.
  split; [lia | reflexivity].
Qed.

Lemma fit_vertical_within_one (w h z : Z) :
  0 < w < 2 ^ 32 -> 0 < h < 2 ^ 32 -> fit_vertical w h = ok z ->
  480 * w - h <= z * h <= 480 * w.
Proof.
  intros Hw Hh H. apply (scaled_within_one 480 h w z); try assumption.
  split; [lia | reflexivity].
Qed.

(** X15. For a width and a height of at most 32 bits,
    [calculate_new_resolution] returns, and the dimension it computes
    is the exact proportional one rounded down, or one less when the
    exact one is an integer: the result is 854 wide with a height of
    at most 480 within one pixel below [854 * height / width], or 480
    high with a width within one pixel below [480 * width / height]. *)
Theorem calculate_new_resolution_within_one_pixel (width height : Z) :
  0 < width < 2 ^ 32 -> 0 < height < 2 ^ 32 ->
  exists new_width new_height,
    calculate_new_resolution width height = ok (new_width, new_height) /\
    ((new_width = 854 /\ new_height <= 480 /\
      854 * height - width <= new_height * width <= 854 * height) \/
     (new_height = 480 /\ 480 * width < 854 * height /\
      480 * width - height <= new_width * height <= 480 * width)).
Proof.
  intros Hw Hh.
  assert (Hbig : 2 ^ 32 < 2 ^ 1000) by (apply Z.pow_lt_mono_r; lia).
  unfold calculate_new_resolution. cbv zeta.
  destruct (fit_horizontal_total width height) as [z1 H1]; [lia | lia |].
  pose proof (fit_horizontal_within_one width height z1 Hw Hh H1) as Hb1.
  rewrite H1. cbv beta iota delta [rbind ok].
  unfold TARGET_VERTICAL_RES, TARGET_HORIZONTAL_RES.
  destruct (Z.gtb_spec z1 480) as [Hgt|Hle].
  - destruct (fit_vertical_total width height) as [z2 H2]; [lia | lia |].
    pose proof (fit_vertical_within_one width height z2 Hw Hh H2) as Hb2.
    rewrite H2. exists z2, 480. split; [reflexivity|]. right.
    split; [reflexivity|]. split; [nia | exact Hb2].
  - exists 854, z1. split; [reflexivity|]. left. now repeat split.
Qed.

Lemma calculate_new_resolution_within_one_pixel_witness :
  exists new_width new_height,
    calculate_new_resolution 1280 720 = ok (new_width, new_height) /\
    ((new_width = 854 /\ new_height <= 480 /\
      854 * 720 - 1280 <= new_height * 1280 <= 854 * 720) \/
     (new_height = 480 /\ 480 * 1280 < 854 * 720 /\
      480 * 1280 - 720 <= new_width * 720 <= 480 * 1280)).
Proof.
  apply (calculate_new_resolution_within_one_pixel 1280 720);
    (split; [lia | reflexivity]).
Defined.

(** The lower end is reached: the exact result for a square source of
    side 22 is 480 by 480. *)
Lemma square_source_is_one_pixel_short :
  calculate_new_resolution 22 22 = ok (479, 480).
Proof. vm_compute. reflexivity. Qed.

(* ================================================================= *)
(** * The bitrate threshold *)

(** In the normal range the rounded value is at least the value with
    the significand cut to 53 bits. *)
Lemma binary_round_aux_trunc (s : bool) (mx ex : Z) (lx : location) :
  0 <= mx -> ex <= fexp64 (Zdigits2 mx + ex) ->
  (bpow (-1021) <= F2Q (mx + 1) ex)%Q ->
  let n := Zdigits2 mx - 53 in
  0 <= n /\ 2 ^ 52 <= mx / 2 ^ n /\
  match binary_round_aux Py.prec Py.emax s mx ex lx with
  | S754_finite _ m e => (F2Q (mx / 2 ^ n) (ex + n) <= F2Q (Zpos m) e)%Q
  | S754_infinity _ => True
  | _ => False
  end.
Proof.
  intros Hmx Hal Hbig. cbv zeta.
  set (d := Zdigits2 mx) in *.
  assert (Hrange : -1021 <= d + ex).
  { apply bpow_le_inv. eapply Qle_trans; [exact Hbig|]. now apply F2Q_succ_le_bpow. }
  rewrite fexp64_eq in Hal.
  assert (Hd : 53 <= d) by lia.
  assert (Hpos : 0 < mx).
  { destruct (Z.eq_dec mx 0) as [Hz|]; [|lia]. unfold d in Hd. rewrite Hz in Hd.
    cbn [Zdigits2] in Hd. lia. }
  destruct (Zdigits2_bounds mx Hpos) as [Hlo Hhi]. fold d in Hlo, Hhi.
  destruct (binary_round_aux_anatomy s mx ex lx Hmx) as (m2 & Hb & _ & Heq).
  cbv zeta in Heq. rewrite Heq. clear Heq. fold d in Hb |- *.
  rewrite (fexp64_eq (d + ex)) in *.
  replace (Z.max 0 (Z.max (d + ex - 53) (-1074) - ex)) with (d - 53) in * by lia.
  set (n := d - 53) in *. set (m1 := mx / 2 ^ n) in *. set (e1 := ex + n) in *.
  assert (Hn : 0 <= n) by (unfold n; lia).
  pose proof (Z.pow_pos_nonneg 2 n ltac:(lia) Hn) as Hpn.
  assert (H52 : 2 ^ 52 <= m1).
  { apply div_pow2_lower; [lia | lia |]. replace (52 + n) with (d - 1) by (unfold n; lia).
    exact Hlo. }
  assert (H53 : m1 < 2 ^ 53).
  { apply div_pow2_upper; [lia | lia |]. replace (53 + n) with d by (unfold n; lia).
    exact Hhi. }
  split; [exact Hn|]. split; [exact H52|].
  assert (He1 : -1074 <= e1) by (unfold e1, n; lia).
  destruct (Z_lt_le_dec m2 (2 ^ 53)) as [Hsmall|Hcarry].
  - assert (Hd2 : Zdigits2 m2 = 53) by (apply Zdigits2_unique; lia).
    rewrite Hd2, fexp64_eq.
    replace (Z.max 0 (Z.max (53 + e1 - 53) (-1074) - e1)) with 0 by lia.
    rewrite Z.pow_0_r, Z.div_1_r, Z.add_0_r.
    destruct m2 as [|p2|p2]; try lia.
    destruct (e1 <=? Py.emax - Py.prec); [|exact I].
    apply F2Q_le. lia.
  - assert (Hm2 : m2 = 2 ^ 53) by lia.
    assert (Hd2 : Zdigits2 m2 = 54) by (rewrite Hm2; apply Zdigits2_unique; lia).
    rewrite Hd2, fexp64_eq.
    replace (Z.max 0 (Z.max (54 + e1 - 53) (-1074) - e1)) with 1 by lia.
    rewrite Hm2. change (2 ^ 53 / 2 ^ 1) with (Zpos 4503599627370496).
    cbv iota beta.
    destruct (e1 + 1 <=? Py.emax - Py.prec); [|exact I].
    change (Zpos 4503599627370496) with (2 ^ 52).
    rewrite <- (F2Q_shift (2 ^ 52) e1 1) by lia.
    apply F2Q_le. change (2 ^ 52 * 2 ^ 1) with (2 ^ 53). lia.
Qed.

(** The integer quotient that the division gives to the rounding. *)
Lemma SFdiv_core_binary_int_quotient (m1 m2 : positive) :
  let '(q, e', _) := SFdiv_core_binary Py.prec Py.emax (Zpos m1) 0 (Zpos m2) 0 in
  e' <= 0 /\ q = (Zpos m1 * 2 ^ (- e')) / Zpos m2.
Proof.
  unfold SFdiv_core_binary.
  set (d1 := Zdigits2 (Zpos m1)). set (d2 := Zdigits2 (Zpos m2)).
  rewrite !Z.add_0_r, !Z.sub_0_r, Z.sub_0_l.
  set (e' := Z.min (fexp64 (d1 - d2)) 0).
  assert (He' : e' <= 0) by (unfold e'; lia).
  set (m' := match - e' with Z0 => Zpos m1 | Zpos _ => Z.shiftl (Zpos m1) (- e') | Zneg _ => 0 end).
  assert (Hm' : m' = Zpos m1 * 2 ^ (- e')).
  { unfold m'. remember (- e') as k eqn:Hk. destruct k as [|k|k]; try lia.
    apply Z.shiftl_mul_pow2. lia. }
  clearbody m'. subst m'.
  destruct (Z.div_eucl (Zpos m1 * 2 ^ (- e')) (Zpos m2)) as [q r] eqn:E.
  split; [exact He'|]. unfold Z.div. now rewrite E.
Qed.

(** A [BitRate] of at least 1,000,000 divides to at least 1000: the
    rounding of the quotient does not fall below a float. *)
Lemma bitrate_at_threshold (n : Z) (bitrate : Py.float) :
  1000000 <= n -> Py.int_truediv n 1000 = ok bitrate ->
  (inject_Z VIDEO_BITRATE <= fval bitrate)%Q.
Proof.
  intros Hn H. unfold VIDEO_BITRATE. unfold Py.int_truediv in H. cbn [Z.eqb] in H.
  destruct n as [|pa|pa]; try lia. cbn [Py.raw_of_int SFdiv xorb] in H.
  pose proof (SFdiv_core_binary_int pa 1000) as Hc.
  pose proof (SFdiv_core_binary_int_bounds pa 1000) as Hup.
  pose proof (SFdiv_core_binary_int_quotient pa 1000) as Hquo.
  destruct (SFdiv_core_binary Py.prec Py.emax (Zpos pa) 0 1000 0) as [[q e'] l].
  destruct Hc as (Hq & Hfe & _). destruct Hquo as [He' Hqd].
  assert (Hqa : (1000000 <= inject_Z (Zpos pa))%Q).
  { change 1000000%Q with (inject_Z 1000000). now rewrite <- Zle_Qle. }
  change (inject_Z 1000) with 1000%Q in *.
  assert (Hx : (1000 < F2Q (q + 1) e')%Q) by lra.
  assert (Hbig : (bpow (-1021) <= F2Q (q + 1) e')%Q).
  { assert (bpow (-1021) <= bpow 0)%Q by (apply bpow_le; lia).
    change (bpow 0) with 1%Q in *. lra. }
  destruct (binary_round_aux_trunc false q e' l Hq Hfe Hbig) as (Hnn & H52 & Htr).
  cbv zeta in Hnn, H52, Htr.
  pose proof (binary_round_aux_sign false q e' l Hq) as Hsg.
  destruct (binary_round_aux Py.prec Py.emax false q e' l) as [sz|sz| |sz m e];
    try contradiction; try discriminate.
  inversion H; subst bitrate sz. cbn [fval].
  eapply Qle_trans; [|exact Htr].
  set (nn := Zdigits2 q - 53) in *. set (e1 := e' + nn).
  pose proof (Z.pow_pos_nonneg 2 nn ltac:(lia) Hnn) as Hpn.
  pose proof (Z.pow_pos_nonneg 2 (- e') ltac:(lia) ltac:(lia)) as Hpk.
  destruct (Z_le_gt_dec e1 3) as [Hlow|Hhigh].
  - (* the threshold is a multiple of the unit of the last place *)
    assert (Hq1000 : 1000 * 2 ^ (- e') <= q).
    { rewrite Hqd. apply Z.div_le_lower_bound; [lia|]. nia. }
    assert (Hsplit : 1000 * 2 ^ (- e') = 2 ^ nn * (125 * 2 ^ (3 - e1))).
    { replace 1000 with (125 * 2 ^ 3) by reflexivity.
      replace (- e') with ((3 - e1) + nn - 3) by (unfold e1; lia).
      rewrite (Z.mul_comm (2 ^ nn)), <- !Z.mul_assoc, <- !Z.pow_add_r by (unfold e1 in *; lia).
      f_equal. f_equal. lia. }
    assert (Hm1 : 125 * 2 ^ (3 - e1) <= q / 2 ^ nn).
    { apply Z.div_le_lower_bound; [lia|]. lia. }
    eapply Qle_trans; [|apply F2Q_le; exact Hm1].
    rewrite F2Q_shift by lia. replace (e1 + (3 - e1)) with 3 by lia.
    apply Qle_lteq; right; reflexivity.
  - (* far above the threshold *)
    eapply Qle_trans; [|apply F2Q_le; exact H52].
    rewrite F2Q_pow2 by lia.
    eapply Qle_trans; [|apply (bpow_le 10); fold e1; lia].
    vm_compute. discriminate.
Qed.

(** X16. The division by 1000 does not move the threshold: the test
    [original_bitrate < VIDEO_BITRATE] on [int(BitRate) / 1000] holds
    exactly when the [BitRate] is below 1,000,000. *)
Theorem bitrate_threshold_is_exact (n : Z) (bitrate : Py.float) :
  Py.int_truediv n 1000 = ok bitrate ->
  (Py.float_lt_int bitrate VIDEO_BITRATE = true <-> n < 1000000).
Proof.
  intros H. pose proof (int_truediv_finite n 1000 bitrate H) as Hfin.
  rewrite (float_lt_threshold bitrate Hfin). split.
  - intros Hlt. destruct (Z_lt_le_dec n 1000000) as [|Hge]; [assumption|exfalso].
    pose proof (bitrate_at_threshold n bitrate Hge H). lra.
  - intros Hlt. now apply (bitrate_below_threshold n).
Qed.

Lemma bitrate_threshold_is_exact_witness :
  Py.float_lt_int (S754_finite false 8796084226114978 (-43)) VIDEO_BITRATE = true
  <-> 999999 < 1000000.
Proof.
  apply (bitrate_threshold_is_exact 999999). vm_compute. reflexivity.
Defined.
